(** * KeyboardMouseShare: a shallow embedding of the communication core

    The development follows the Python packages of the repository:

    - [validators]   : src/utils/validators.py
    - [device], [device_dict] : src/models/device.py
    - [repositories] : src/models/repositories.py (the [devices] table of
                       src/models/schema.py)
    - [input_event]  : src/models/input_event.py
    - [connection_entity] : src/models/connection.py
    - [connection]   : src/network/connection.py
    - [input_relay], [relay_manager] : src/relay/input_relay.py
    - [input_event_receiver] : src/network/device_communicator.py
    - [discovery]    : src/network/discovery.py

    Python objects are records, mutation is explicit state passing, and an
    exception is the [Raise] case of [result].  Functions of the Python
    standard library (json, datetime.isoformat, str.encode) are the fields of
    the class [PyLib]; nothing is assumed about them except where a theorem
    says so in a hypothesis.  The discovery service works in several
    threads over one sqlite3 connection: a call that reaches the database
    carries the ident of the thread it is made in. *)

From Stdlib Require Import Bool Arith ZArith List String Ascii Lia QArith.
From Stdlib Require Import DecimalString.
From Stdlib Require Import Strings.Byte.
Import ListNotations.

Set Implicit Arguments.
Set Warnings "-register-all".

Local Open Scope string_scope.
Local Open Scope Z_scope.

(* ===================================================================== *)
(** ** Python values, exceptions and dictionaries *)
(* ===================================================================== *)

Module py.

(** The exception classes that the modelled code raises or catches. *)
Inductive exn : Type :=
| ValueError (msg : string)
| TypeError
| KeyError (key : string)
| AttributeError
| OverflowError
| UnicodeDecodeError
| JSONDecodeError
| RuntimeError (msg : string)
| socket_timeout
| OSError
| BrokenPipeError
| IntegrityError
| ProgrammingError.

Inductive result (A : Type) : Type :=
| Ok (a : A)
| Raise (e : exn).

Arguments Ok {A} a.
Arguments Raise {A} e.

Definition bind {A B} (m : result A) (k : A -> result B) : result B :=
  match m with
  | Ok a => k a
  | Raise e => Raise e
  end.

Definition is_ok {A} (m : result A) : bool :=
  match m with Ok _ => true | Raise _ => false end.

(** A thread, by its ident ([threading.get_ident()]). *)
Definition thread : Type := nat.

(** [str] is a sequence of code points; the model keeps the code points
    below 256, which is what [Stdlib.Strings.String] holds. *)
Definition str := string.

(** A [datetime] is an instant, in microseconds since the epoch (UTC). *)
Definition datetime := Z.

(** [(a - b).total_seconds()], kept exact as microseconds. *)
Definition total_microseconds (a b : datetime) : Z := a - b.

(** The clock: [clock k] is what the [k]-th call of
    [datetime.now(timezone.utc)] gives; [reads] counts the calls so far. *)
Record World : Type := {
  clock : nat -> datetime;
  reads : nat
}.

Definition now (w : World) : datetime * World :=
  (clock w (reads w), {| clock := clock w; reads := S (reads w) |}).

(** An insertion-ordered dictionary with string keys, as Python's [dict]:
    assignment to a present key keeps its position, a new key goes last. *)
Definition dict (V : Type) := list (string * V).

Fixpoint get {V} (k : string) (d : dict V) : option V :=
  match d with
  | [] => None
  | (k', v) :: d' => if String.eqb k k' then Some v else get k d'
  end.

Definition contains {V} (k : string) (d : dict V) : bool :=
  match get k d with Some _ => true | None => false end.

Fixpoint set {V} (k : string) (v : V) (d : dict V) : dict V :=
  match d with
  | [] => [(k, v)]
  | (k', v') :: d' =>
      if String.eqb k k' then (k, v) :: d' else (k', v') :: set k v d'
  end.

Fixpoint del {V} (k : string) (d : dict V) : dict V :=
  match d with
  | [] => []
  | (k', v') :: d' => if String.eqb k k' then d' else (k', v') :: del k d'
  end.

Definition keys {V} (d : dict V) : list string := map fst d.
Definition values {V} (d : dict V) : list V := map snd d.

(** JSON-serializable values (without floats): what [json.dumps] takes and
    [json.loads] gives back. *)
Inductive json : Type :=
| JNull
| JBool (b : bool)
| JInt (n : Z)
| JStr (s : string)
| JList (l : list json)
| JDict (d : list (string * json)).







End py.

Import py.

Declare Scope py_scope.
Delimit Scope py_scope with py.
Notation "x <- m ;; k" := (py.bind m (fun x => k))
  (at level 61, m at next level, right associativity) : py_scope.
Notation "'check' b 'else' e ;; k" := (if (b : bool) then k else py.Raise e)
  (at level 61, b at next level, e at next level, right associativity) : py_scope.
Local Open Scope py_scope.

(** The standard-library functions the code calls.  They are parameters of
    the model. *)
Class PyLib : Type := {
  (** [json.dumps(v)] *)
  json_dumps : json -> string;
  (** [json.loads(s)], raising [JSONDecodeError] *)
  json_loads : string -> result json;
  (** [s.encode('utf-8')] *)
  str_encode : string -> list byte;
  (** [b.decode('utf-8')], raising [UnicodeDecodeError] *)
  bytes_decode : list byte -> result string;
  (** [t.isoformat()] *)
  isoformat : datetime -> string;
  (** [datetime.fromisoformat(s)], raising [ValueError] *)
  fromisoformat : string -> result datetime;
  (** The largest timeout, in whole seconds, that [socket.settimeout] takes
      on the platform (it depends on the width of the C types behind it) *)
  timeout_max : Z;
  (** [threading.TIMEOUT_MAX], in milliseconds: the longest wait that a
      lock takes on the platform *)
  wait_max_ms : Z
}.

(* ===================================================================== *)
(** ** Regular expressions, as [re.match] decides them *)
(* ===================================================================== *)

Module re.

Inductive regex : Type :=
| Void
| Eps
| Cls (p : ascii -> bool)
| Seq (r1 r2 : regex)
| Alt (r1 r2 : regex)
| Star (r : regex).

Fixpoint nullable (r : regex) : bool :=
  match r with
  | Void => false
  | Eps => true
  | Cls _ => false
  | Seq r1 r2 => nullable r1 && nullable r2
  | Alt r1 r2 => nullable r1 || nullable r2
  | Star _ => true
  end.

(** Brzozowski derivative. *)
Fixpoint deriv (c : ascii) (r : regex) : regex :=
  match r with
  | Void => Void
  | Eps => Void
  | Cls p => if p c then Eps else Void
  | Seq r1 r2 =>
      if nullable r1
      then Alt (Seq (deriv c r1) r2) (deriv c r2)
      else Seq (deriv c r1) r2
  | Alt r1 r2 => Alt (deriv c r1) (deriv c r2)
  | Star r1 => Seq (deriv c r1) (Star r1)
  end.

(** The whole of [s] is in the language of [r]. *)
Fixpoint accepts (r : regex) (s : string) : bool :=
  match s with
  | EmptyString => nullable r
  | String c s' => accepts (deriv c r) s'
  end.

(** [r{n}] *)
Fixpoint Rep (n : nat) (r : regex) : regex :=
  match n with
  | O => Eps
  | S n' => Seq r (Rep n' r)
  end.

(** [r{0,n}] *)
Fixpoint Upto (n : nat) (r : regex) : regex :=
  match n with
  | O => Eps
  | S n' => Alt Eps (Seq r (Upto n' r))
  end.

(** [r{lo,hi}] *)
Definition Range (lo hi : nat) (r : regex) : regex :=
  Seq (Rep lo r) (Upto (hi - lo) r).

(** [r+] *)
Definition Plus (r : regex) : regex := Seq r (Star r).

(** [s] without its last character, when that is a newline. *)
Fixpoint strip_final_newline (s : string) : option string :=
  match s with
  | EmptyString => None
  | String c EmptyString =>
      if Ascii.eqb c "010"%char then Some EmptyString else None
  | String c s' =>
      match strip_final_newline s' with
      | Some t => Some (String c t)
      | None => None
      end
  end.

(** [bool(re.match("^r$", s))]: [$] matches at the end of the string and
    also just before a newline that ends the string. *)
Definition match_anchored (r : regex) (s : string) : bool :=
  accepts r s
  || match strip_final_newline s with
     | Some s' => accepts r s'
     | None => false
     end.

Definition between (lo hi c : ascii) : bool :=
  (Ascii.leb lo c && Ascii.leb c hi)%bool.

Definition chr (a : ascii) : regex := Cls (Ascii.eqb a).

(** [[0-9]]; on the code points below 256 this is also [\d]. *)
Definition digit (c : ascii) : bool := between "0" "9" c.

(** [[0-9A-Fa-f]], which is also [[0-9a-f]] under [re.IGNORECASE]. *)
Definition hexdigit (c : ascii) : bool :=
  (digit c || between "A" "F" c || between "a" "f" c)%bool.

Definition alnum (c : ascii) : bool :=
  (between "a" "z" c || between "A" "Z" c || digit c)%bool.

(** [\s] on a [str] pattern: the characters for which [str.isspace] holds
    (tab to carriage return, the separators 28..31, space, NEL, NBSP). *)
Definition space (c : ascii) : bool :=
  (between "009" "013" c || between "028" "031" c || Ascii.eqb c " "
   || Ascii.eqb c "133" || Ascii.eqb c "160")%bool.

(** The language of a regular expression: the strings it matches as a
    whole.  [accepts] decides it (see [accepts_lang]). *)
Inductive lang : regex -> string -> Prop :=
| lang_Eps : lang Eps EmptyString
| lang_Cls (p : ascii -> bool) (c : ascii) :
    p c = true -> lang (Cls p) (String c EmptyString)
| lang_Seq (r1 r2 : regex) (s1 s2 : string) :
    lang r1 s1 -> lang r2 s2 -> lang (Seq r1 r2) (s1 ++ s2)
| lang_Alt_l (r1 r2 : regex) (s : string) : lang r1 s -> lang (Alt r1 r2) s
| lang_Alt_r (r1 r2 : regex) (s : string) : lang r2 s -> lang (Alt r1 r2) s
| lang_Star_nil (r : regex) : lang (Star r) EmptyString
| lang_Star_app (r : regex) (s1 s2 : string) :
    lang r s1 -> lang (Star r) s2 -> lang (Star r) (s1 ++ s2).

(** [s] has one character for each of the classes [ps], in their order. *)
Fixpoint shape (ps : list (ascii -> bool)) (s : string) : bool :=
  match ps, s with
  | [], EmptyString => true
  | p :: ps', String c s' => p c && shape ps' s'
  | _, _ => false
  end.

(** Every character of [s] is in the class [p]. *)
Fixpoint all_chars (p : ascii -> bool) (s : string) : bool :=
  match s with
  | EmptyString => true
  | String c s' => p c && all_chars p s'
  end.

(** The classes of an expression that is a sequence of classes. *)
Fixpoint classes (r : regex) : option (list (ascii -> bool)) :=
  match r with
  | Eps => Some []
  | Cls p => Some [p]
  | Seq r1 r2 =>
      match classes r1, classes r2 with
      | Some ps1, Some ps2 => Some (ps1 ++ ps2)%list
      | _, _ => None
      end
  | _ => None
  end.

Definition newline : string := String "010" EmptyString.

End re.

(* ===================================================================== *)
(** ** src/utils/validators.py *)
(* ===================================================================== *)

Module validators.

Import re.

(** [ip.split(".")] *)
Fixpoint split_on (sep : ascii) (s : string) : list string :=
  match s with
  | EmptyString => [EmptyString]
  | String c s' =>
      if Ascii.eqb c sep then EmptyString :: split_on sep s'
      else match split_on sep s' with
           | [] => [String c EmptyString]
           | p :: ps => String c p :: ps
           end
  end.

Definition digit_value (c : ascii) : Z :=
  Z.of_N (N_of_ascii c) - 48.

(** [int(part)] for a run of decimal digits that a single newline may
    follow (the only strings the IPv4 pattern lets through); [None] stands
    for [ValueError]. *)
Fixpoint int_digits (acc : Z) (s : string) : option Z :=
  match s with
  | EmptyString => Some acc
  | String c s' =>
      if digit c then int_digits (10 * acc + digit_value c) s'
      else if (Ascii.eqb c "010" && String.eqb s' EmptyString)%bool then Some acc
      else None
  end.

Definition int (s : string) : option Z :=
  match s with
  | EmptyString => None
  | String c _ => if digit c then int_digits 0 s else None
  end.

Definition ipv4_pattern : regex :=
  Seq (Rep 3 (Seq (Range 1 3 (Cls digit)) (chr "."))) (Range 1 3 (Cls digit)).

Definition ipv6_pattern : regex :=
  Seq (Range 2 7 (Seq (Range 0 4 (Cls hexdigit)) (chr ":")))
      (Range 0 4 (Cls hexdigit)).

Definition validate_ip_address (ip : string) : bool :=
  if match_anchored ipv4_pattern ip then
    forallb (fun part =>
               match int part with
               | Some v => (0 <=? v) && (v <=? 255)
               | None => false
               end)%bool
            (split_on "." ip)
  else match_anchored ipv6_pattern ip.

Definition validate_port (port : Z) : bool :=
  ((1 <=? port) && (port <=? 65535))%bool.

Definition name_pattern : regex :=
  Plus (Cls (fun c => alnum c || space c || Ascii.eqb c "-"
                      || Ascii.eqb c "'")%bool).

Definition validate_device_name (name : string) (max_length : Z) : bool :=
  if String.eqb name EmptyString then false
  else if Z.of_nat (String.length name) >? max_length then false
  else match_anchored name_pattern name.

(** The class of the pattern of [validate_passphrase]: letters, digits and
    the symbols the pattern lists. *)
Definition passphrase_char (c : ascii) : bool :=
  (alnum c
   || existsb (Ascii.eqb c)
              (list_ascii_of_string "!@#$%^&*()_+=-[]{}|;:',.<>?/`~"))%bool.

Definition passphrase_pattern : regex := Plus (Cls passphrase_char).

Definition validate_passphrase (passphrase : string) (expected_length : Z)
  : bool :=
  if String.eqb passphrase EmptyString then false
  else if negb (Z.of_nat (String.length passphrase) =? expected_length)
  then false
  else match_anchored passphrase_pattern passphrase.

Definition mac_pattern : regex :=
  Seq (Rep 5 (Seq (Rep 2 (Cls hexdigit))
                  (Cls (fun c => Ascii.eqb c ":" || Ascii.eqb c "-")%bool)))
      (Rep 2 (Cls hexdigit)).

Definition validate_mac_address (mac : string) : bool :=
  match_anchored mac_pattern mac.

Definition uuid_pattern : regex :=
  Seq (Rep 8 (Cls hexdigit)) (Seq (chr "-")
  (Seq (Rep 4 (Cls hexdigit)) (Seq (chr "-")
  (Seq (Rep 4 (Cls hexdigit)) (Seq (chr "-")
  (Seq (Rep 4 (Cls hexdigit)) (Seq (chr "-")
  (Rep 12 (Cls hexdigit))))))))).

Definition validate_uuid (uuid_str : string) : bool :=
  match_anchored uuid_pattern uuid_str.

Definition validate_device_role (role : string) : bool :=
  existsb (String.eqb role) ["MASTER"; "CLIENT"; "UNASSIGNED"].

Definition validate_os_type (os_type : string) : bool :=
  existsb (String.eqb os_type) ["Windows"; "Darwin"].

(** The patterns, read position by position: what the theorems about the
    validators compare the code with. *)
Definition mac_classes : list (ascii -> bool) :=
  let sep := fun c => (Ascii.eqb c ":" || Ascii.eqb c "-")%bool in
  [hexdigit; hexdigit; sep; hexdigit; hexdigit; sep; hexdigit; hexdigit; sep;
   hexdigit; hexdigit; sep; hexdigit; hexdigit; sep; hexdigit; hexdigit].

Definition uuid_classes : list (ascii -> bool) :=
  (repeat hexdigit 8 ++ [Ascii.eqb "-"] ++ repeat hexdigit 4
   ++ [Ascii.eqb "-"] ++ repeat hexdigit 4 ++ [Ascii.eqb "-"]
   ++ repeat hexdigit 4 ++ [Ascii.eqb "-"] ++ repeat hexdigit 12)%list.

Definition name_char (c : ascii) : bool :=
  (alnum c || space c || Ascii.eqb c "-" || Ascii.eqb c "'")%bool.

(** Printable ASCII other than the space, the double quote (code 34) and
    the backslash. *)
Definition printable_unquoted (c : ascii) : bool :=
  (between "!" "~" c && negb (Ascii.eqb c "034")
   && negb (Ascii.eqb c "\"))%bool.

(** One to three decimal digits. *)
Definition octet_text (s : string) : bool :=
  ((1 <=? String.length s)%nat && (String.length s <=? 3)%nat
   && all_chars digit s)%bool.

(** The number that a run of decimal digits writes. *)
Definition decimal (s : string) : Z :=
  fold_left (fun acc c => 10 * acc + digit_value c) (list_ascii_of_string s) 0.

End validators.

(* ===================================================================== *)
(** ** src/models/device.py *)
(* ===================================================================== *)

Module device.

Import validators.

Inductive DeviceRole : Type := MASTER | CLIENT | UNASSIGNED.

Definition DeviceRole_value (r : DeviceRole) : string :=
  match r with
  | MASTER => "MASTER"
  | CLIENT => "CLIENT"
  | UNASSIGNED => "UNASSIGNED"
  end.

Inductive DeviceOS : Type := WINDOWS | MACOS.

Definition DeviceOS_value (o : DeviceOS) : string :=
  match o with
  | WINDOWS => "Windows"
  | MACOS => "Darwin"
  end.

Record Device : Type := {
  id : string;
  mac_address : string;
  name : string;
  os : DeviceOS;
  role : DeviceRole;
  ip_address : option string;
  port : Z;
  version : string;
  is_registered : bool;
  created_at : datetime;
  last_seen : datetime
}.

(** Truthiness of an optional string: [None] and the empty string are false. *)
Definition truthy (s : option string) : bool :=
  match s with
  | None => false
  | Some t => negb (String.eqb t EmptyString)
  end.

(** [Device.__post_init__] *)
Definition __post_init__ (self : Device) : result unit :=
  check validate_uuid (id self) else ValueError "Invalid UUID" ;;
  check negb (negb (String.eqb (mac_address self) EmptyString)
              && negb (validate_mac_address (mac_address self)))
    else ValueError "Invalid MAC address" ;;
  check validate_device_name (name self) 50 else ValueError "Invalid device name" ;;
  check validate_port (port self) else ValueError "Invalid port" ;;
  check negb (truthy (ip_address self)
              && negb (match ip_address self with
                       | Some ip => validate_ip_address ip
                       | None => true
                       end))
    else ValueError "Invalid IP address" ;;
  check validate_os_type (DeviceOS_value (os self)) else ValueError "Invalid OS" ;;
  Ok tt.

(** The dataclass constructor: the fields are stored, then
    [__post_init__] runs; the object exists only if it returns. *)
Definition new (fields : Device) : result Device :=
  _ <- __post_init__ fields ;; Ok fields.

Definition set_is_registered (b : bool) (d : Device) : Device :=
  {| id := id d; mac_address := mac_address d; name := name d; os := os d;
     role := role d; ip_address := ip_address d; port := port d;
     version := version d; is_registered := b;
     created_at := created_at d; last_seen := last_seen d |}.

Definition set_ip_address (ip : option string) (d : Device) : Device :=
  {| id := id d; mac_address := mac_address d; name := name d; os := os d;
     role := role d; ip_address := ip; port := port d;
     version := version d; is_registered := is_registered d;
     created_at := created_at d; last_seen := last_seen d |}.

Definition set_last_seen (t : datetime) (d : Device) : Device :=
  {| id := id d; mac_address := mac_address d; name := name d; os := os d;
     role := role d; ip_address := ip_address d; port := port d;
     version := version d; is_registered := is_registered d;
     created_at := created_at d; last_seen := t |}.

End device.

(* ===================================================================== *)
(** ** src/models/input_event.py *)
(* ===================================================================== *)

Module input_event.

Import validators.

Inductive InputEventType : Type :=
| KEY_PRESS
| KEY_RELEASE
| MOUSE_MOVE
| MOUSE_CLICK
| MOUSE_RELEASE
| MOUSE_SCROLL.

Definition InputEventType_value (t : InputEventType) : string :=
  match t with
  | KEY_PRESS => "KEY_PRESS"
  | KEY_RELEASE => "KEY_RELEASE"
  | MOUSE_MOVE => "MOUSE_MOVE"
  | MOUSE_CLICK => "MOUSE_CLICK"
  | MOUSE_RELEASE => "MOUSE_RELEASE"
  | MOUSE_SCROLL => "MOUSE_SCROLL"
  end.

Definition all_types : list InputEventType :=
  [KEY_PRESS; KEY_RELEASE; MOUSE_MOVE; MOUSE_CLICK; MOUSE_RELEASE; MOUSE_SCROLL].

(** [InputEventType(value)]: the member with that value, or [ValueError]. *)
Definition InputEventType_of_value (value : json) : result InputEventType :=
  match value with
  | JStr s =>
      match find (fun t => String.eqb (InputEventType_value t) s) all_types with
      | Some t => Ok t
      | None => Raise (ValueError "not a valid InputEventType")
      end
  | _ => Raise (ValueError "not a valid InputEventType")
  end.

(** [payload] is annotated [dict]; a dataclass does not enforce its
    annotations, and the field holds whatever value it is given. *)
Record InputEvent : Type := {
  id : string;
  event_type : InputEventType;
  source_device_id : string;
  target_device_id : string;
  payload : json;
  timestamp : datetime;
  is_encrypted : bool
}.

(** [needle in haystack] on two [str]: [needle] occurs in [haystack]. *)
Fixpoint occurs (needle haystack : string) : bool :=
  String.prefix needle haystack
  || match haystack with
     | EmptyString => false
     | String _ rest => occurs needle rest
     end.

(** [key in value] for a [str] key, which Python decides by the type of
    [value]: a key of a [dict], a part of a [str], an element of a [list];
    a value that is no container raises [TypeError]. *)
Definition py_in (key : string) (value : json) : result bool :=
  match value with
  | JDict d => Ok (contains key d)
  | JStr s => Ok (occurs key s)
  | JList l =>
      Ok (existsb (fun v => match v with
                            | JStr s => String.eqb s key
                            | _ => false
                            end) l)
  | JNull | JBool _ | JInt _ => Raise TypeError
  end.

(** [InputEvent._validate_payload] *)
Definition _validate_payload (self : InputEvent) : result unit :=
  match event_type self with
  | KEY_PRESS | KEY_RELEASE =>
      has_keycode <- py_in "keycode" (payload self) ;;
      check has_keycode else ValueError "KEY event missing keycode" ;; Ok tt
  | MOUSE_MOVE =>
      has_x <- py_in "x" (payload self) ;;
      check has_x else ValueError "MOUSE_MOVE missing x/y" ;;
      has_y <- py_in "y" (payload self) ;;
      check has_y else ValueError "MOUSE_MOVE missing x/y" ;; Ok tt
  | MOUSE_CLICK | MOUSE_RELEASE =>
      has_button <- py_in "button" (payload self) ;;
      check has_button
        else ValueError "MOUSE_CLICK/RELEASE missing button" ;; Ok tt
  | MOUSE_SCROLL =>
      has_delta <- py_in "scroll_delta" (payload self) ;;
      check has_delta
        else ValueError "MOUSE_SCROLL missing scroll_delta" ;; Ok tt
  end.

(** [InputEvent.__post_init__] *)
Definition __post_init__ (self : InputEvent) : result unit :=
  check validate_uuid (source_device_id self)
    else ValueError "Invalid source device ID" ;;
  check validate_uuid (target_device_id self)
    else ValueError "Invalid target device ID" ;;
  _validate_payload self.

(** The dataclass constructor. *)
Definition new (fields : InputEvent) : result InputEvent :=
  _ <- __post_init__ fields ;; Ok fields.

(** [InputEvent.to_dict] *)
Definition to_dict `{PyLib} (self : InputEvent) : dict json :=
  [ ("id", JStr (id self));
    ("event_type", JStr (InputEventType_value (event_type self)));
    ("source_device_id", JStr (source_device_id self));
    ("target_device_id", JStr (target_device_id self));
    ("payload", payload self);
    ("timestamp", JStr (isoformat (timestamp self)));
    ("is_encrypted", JBool (is_encrypted self)) ].

(** [data[key]] *)
Definition getitem (key : string) (data : dict json) : result json :=
  match get key data with
  | Some v => Ok v
  | None => Raise (KeyError key)
  end.

(** The fields other than [payload] are typed by the annotations of the
    dataclass: a value of another type in one of them is reported as
    [TypeError]. *)
Definition as_str (v : json) : result string :=
  match v with JStr s => Ok s | _ => Raise TypeError end.

Definition as_bool (v : json) : result bool :=
  match v with JBool b => Ok b | _ => Raise TypeError end.

(** [InputEvent.from_dict]; [fresh_uuid] is what [str(uuid.uuid4())]
    gives in this call. *)
Definition from_dict `{PyLib} (fresh_uuid : string) (data : dict json)
  : result InputEvent :=
  id_ <- as_str (match get "id" data with
                 | Some v => v
                 | None => JStr fresh_uuid
                 end) ;;
  et <- getitem "event_type" data ;;
  event_type_ <- InputEventType_of_value et ;;
  src <- getitem "source_device_id" data ;;
  source_device_id_ <- as_str src ;;
  tgt <- getitem "target_device_id" data ;;
  target_device_id_ <- as_str tgt ;;
  payload_ <- getitem "payload" data ;;
  ts <- getitem "timestamp" data ;;
  ts_str <- as_str ts ;;
  timestamp_ <- fromisoformat ts_str ;;
  is_encrypted_ <- as_bool (match get "is_encrypted" data with
                            | Some v => v
                            | None => JBool true
                            end) ;;
  new {| id := id_; event_type := event_type_;
         source_device_id := source_device_id_;
         target_device_id := target_device_id_;
         payload := payload_; timestamp := timestamp_;
         is_encrypted := is_encrypted_ |}.

(** The payload of each kind as the data model describes it: keycode (and
    modifiers) for the key events, x and y for a move, button for click and
    release, scroll_delta for a scroll.  This is the statement to compare
    [_validate_payload] with, not a translation of it. *)
Definition schema_keys (t : InputEventType) : list string :=
  match t with
  | KEY_PRESS => ["keycode"]
  | KEY_RELEASE => ["keycode"]
  | MOUSE_MOVE => ["x"; "y"]
  | MOUSE_CLICK => ["button"]
  | MOUSE_RELEASE => ["button"]
  | MOUSE_SCROLL => ["scroll_delta"]
  end.

Definition payload_matches_schema (t : InputEventType) (p : json) : bool :=
  match p with
  | JDict d => forallb (fun k => contains k d) (schema_keys t)
  | _ => false
  end.

End input_event.

(* ===================================================================== *)
(** ** src/network/connection.py *)
(* ===================================================================== *)

Module connection.

(** What the next [recv] on a socket meets. *)
Inductive rx_event : Type :=
| Data (chunk : list byte)   (* bytes that have arrived together *)
| Closed                     (* the peer has closed: [recv] gives no bytes *)
| TimedOut                   (* nothing within the timeout *)
| Failed.                    (* [OSError] *)

(** One end of the TLS byte stream. [tx] is what has been written so far;
    [tx_script] gives the outcome of the coming [sendall] calls ([None]:
    all bytes written), and an exhausted script means success. *)
Record socket : Type := {
  rx : list rx_event;
  tx : list byte;
  tx_script : list (option exn);
  timeout : option Z
}.

Definition with_timeout (t : Z) (s : socket) : socket :=
  {| rx := rx s; tx := tx s; tx_script := tx_script s; timeout := Some t |}.

(** [sock.settimeout(t)] for an [int]: a negative value raises
    [ValueError], one above what the platform holds [OverflowError], and
    the socket is then as it was. *)
Definition settimeout `{PyLib} (t : Z) (s : socket) : result socket :=
  if t <? 0 then Raise (ValueError "Timeout value out of range")
  else if timeout_max <? t then Raise OverflowError
  else Ok (with_timeout t s).

Definition with_rx (evs : list rx_event) (s : socket) : socket :=
  {| rx := evs; tx := tx s; tx_script := tx_script s; timeout := timeout s |}.

(** [sock.recv(bufsize)]: at most [bufsize] bytes of what has arrived. *)
Definition recv (bufsize : nat) (s : socket) : result (list byte) * socket :=
  match rx s with
  | [] => (Raise socket_timeout, s)
  | Data chunk :: evs =>
      let now := firstn bufsize chunk in
      let later := skipn bufsize chunk in
      (Ok now, with_rx (match later with
                        | [] => evs
                        | _ :: _ => Data later :: evs
                        end) s)
  | Closed :: _ => (Ok [], s)
  | TimedOut :: evs => (Raise socket_timeout, with_rx evs s)
  | Failed :: evs => (Raise OSError, with_rx evs s)
  end.

(** [sock.sendall(data)] *)
Definition sendall (data : list byte) (s : socket) : result unit * socket :=
  match tx_script s with
  | Some e :: script =>
      (Raise e, {| rx := rx s; tx := tx s; tx_script := script;
                   timeout := timeout s |})
  | None :: script =>
      (Ok tt, {| rx := rx s; tx := (tx s ++ data)%list; tx_script := script;
                 timeout := timeout s |})
  | [] =>
      (Ok tt, {| rx := rx s; tx := (tx s ++ data)%list; tx_script := [];
                 timeout := timeout s |})
  end.

Record ConnectionHandler : Type := {
  port : Z;
  certfile : string;
  keyfile : string;
  socket_ : option socket
}.

Definition with_socket (s : option socket) (self : ConnectionHandler)
  : ConnectionHandler :=
  {| port := port self; certfile := certfile self; keyfile := keyfile self;
     socket_ := s |}.

Definition byte_of_Z (z : Z) : byte :=
  match Byte.of_N (Z.to_N (z mod 256)) with
  | Some b => b
  | None => x00
  end.

Definition Z_of_byte (b : byte) : Z := Z.of_N (Byte.to_N b).

(** [n.to_bytes(4, 'big')] *)
Definition to_bytes4 (n : Z) : result (list byte) :=
  if (0 <=? n) && (n <? 2 ^ 32)
  then Ok [byte_of_Z (Z.shiftr n 24); byte_of_Z (Z.shiftr n 16);
           byte_of_Z (Z.shiftr n 8); byte_of_Z n]
  else Raise OverflowError.

(** [int.from_bytes(bs, 'big')] *)
Definition from_bytes (bs : list byte) : Z :=
  fold_left (fun acc b => acc * 256 + Z_of_byte b) bs 0.

Definition len {A} (l : list A) : Z := Z.of_nat (List.length l).

(** The largest accepted frame: [1024 * 1024]. *)
Definition MAX_MESSAGE : Z := 1024 * 1024.

(** The message that [send_message] builds. *)
Definition build_message `{PyLib} (msg_type data : json) (now : datetime)
  : json :=
  JDict [ ("msg_type", msg_type); ("data", data);
          ("timestamp", JStr (isoformat now)) ].

(** The frame on the wire for a message. *)
Definition frame (json_bytes : list byte) : result (list byte) :=
  length_bytes <- to_bytes4 (len json_bytes) ;;
  Ok (length_bytes ++ json_bytes)%list.

(** [ConnectionHandler.send_message].  Every exception is caught and
    turns into the result [False]. *)
Definition send_message `{PyLib} (msg_type data : json)
    (self : ConnectionHandler) (w : World) : bool * ConnectionHandler * World :=
  match socket_ self with
  | None => (false, self, w)
  | Some sock =>
      let (t, w1) := now w in
      let message := build_message msg_type data t in
      let json_str := json_dumps message in
      let json_bytes := str_encode json_str in
      let length := len json_bytes in
      match to_bytes4 length with
      | Raise _ => (false, self, w1)
      | Ok length_bytes =>
          match sendall length_bytes sock with
          | (Raise _, sock1) => (false, with_socket (Some sock1) self, w1)
          | (Ok _, sock1) =>
              match sendall json_bytes sock1 with
              | (Raise _, sock2) => (false, with_socket (Some sock2) self, w1)
              | (Ok _, sock2) => (true, with_socket (Some sock2) self, w1)
              end
          end
      end
  end.


(** A call of [handler.send_message] with the positional arguments [args]: Python
    binds them to the parameters [(msg_type, data)] and raises [TypeError]
    for any other number of arguments, before the body runs. *)
Definition call_send_message `{PyLib} (args : list json)
    (self : ConnectionHandler) (w : World)
  : result bool * ConnectionHandler * World :=
  match args with
  | [msg_type; data] =>
      let '(r, self', w') := send_message msg_type data self w in
      (Ok r, self', w')
  | _ => (Raise TypeError, self, w)
  end.

(** The two read loops of [receive_message]:
    [while len(buf) < want: chunk = recv(want - len(buf)); ...].
    [Ok None] is the early [return None] on an empty chunk.  Every
    iteration that goes on adds a byte, so [want] rounds of fuel are
    enough. *)
Fixpoint recv_loop (fuel want : nat) (buf : list byte) (s : socket)
  : result (option (list byte)) * socket :=
  if (want <=? List.length buf)%nat then (Ok (Some buf), s)
  else match fuel with
       | O => (Ok (Some buf), s)
       | S fuel' =>
           match recv (want - List.length buf) s with
           | (Raise e, s') => (Raise e, s')
           | (Ok [], s') => (Ok None, s')
           | (Ok chunk, s') => recv_loop fuel' want (buf ++ chunk)%list s'
           end
       end.

Definition recv_exactly (want : nat) (s : socket)
  : result (option (list byte)) * socket :=
  recv_loop want want [] s.

(** [ConnectionHandler.receive_message]. Every exception is caught and
    turns into the result [None]. *)
Definition receive_message `{PyLib} (timeout_ : Z) (self : ConnectionHandler)
  : option json * ConnectionHandler :=
  match socket_ self with
  | None => (None, self)
  | Some sock =>
      match settimeout timeout_ sock with
      | Raise _ => (None, self)
      | Ok sock0 =>
      match recv_exactly 4 sock0 with
      | (Raise _, sock1) => (None, with_socket (Some sock1) self)
      | (Ok None, sock1) => (None, with_socket (Some sock1) self)
      | (Ok (Some length_bytes), sock1) =>
          let length := from_bytes length_bytes in
          if (length <=? 0) || (length >? MAX_MESSAGE)
          then (None, with_socket (Some sock1) self)
          else
            match recv_exactly (Z.to_nat length) sock1 with
            | (Raise _, sock2) => (None, with_socket (Some sock2) self)
            | (Ok None, sock2) => (None, with_socket (Some sock2) self)
            | (Ok (Some json_bytes), sock2) =>
                let self' := with_socket (Some sock2) self in
                match bytes_decode json_bytes with
                | Raise _ => (None, self')
                | Ok json_str =>
                    match json_loads json_str with
                    | Raise _ => (None, self')
                    | Ok (JDict d) => (Some (JDict d), self')
                    | Ok _ =>
                        (* [message.get] raises AttributeError *)
                        (None, self')
                    end
                end
            end
      end
      end
  end.

(** What goes on the wire for a message, and what is read back from the
    bytes of a frame: the two conversions of [send_message] and the two of
    [receive_message]. *)
Definition message_bytes `{PyLib} (message : json) : list byte :=
  str_encode (json_dumps message).

Definition read_message `{PyLib} (json_bytes : list byte) : result json :=
  json_str <- bytes_decode json_bytes ;; json_loads json_str.

(** The bytes that wait at the head of a stream: the chunks up to the first
    event that is not data. *)
Fixpoint arrived (evs : list rx_event) : list byte :=
  match evs with
  | Data chunk :: evs' => (chunk ++ arrived evs')%list
  | _ => []
  end.

(** The handler has given up its connection: it has no socket left to
    read from. *)
Definition abandoned (self : ConnectionHandler) : Prop := socket_ self = None.

(** [ConnectionHandler.close] *)
Definition close (self : ConnectionHandler) : ConnectionHandler :=
  match socket_ self with
  | Some _ => with_socket None self
  | None => self
  end.

(** Successive calls of [receive_message], with their results. *)
Fixpoint receive_messages `{PyLib} (n : nat) (timeout_ : Z)
    (self : ConnectionHandler) : list (option json) * ConnectionHandler :=
  match n with
  | O => ([], self)
  | S n' =>
      let (m, self1) := receive_message timeout_ self in
      let (ms, self2) := receive_messages n' timeout_ self1 in
      (m :: ms, self2)
  end.

(** The frames of the payloads, one after the other. *)
Fixpoint frames (payloads : list (list byte)) : result (list byte) :=
  match payloads with
  | [] => Ok []
  | p :: ps => f <- frame p ;; fs <- frames ps ;; Ok (f ++ fs)%list
  end.

(** The bytes are the beginning of a frame and not all of it: fewer than
    the four bytes of the length, or a length within the limit and fewer
    bytes after it than it announces. *)
Definition partial_frame (bytes : list byte) : bool :=
  (List.length bytes <? 4)%nat
  || ((from_bytes (firstn 4 bytes) <=? MAX_MESSAGE)
      && (len (skipn 4 bytes) <? from_bytes (firstn 4 bytes))).

(** The stream stops: nothing more has arrived, or what comes next is the
    end of the connection, a timeout or an error. *)
Definition stops (evs : list rx_event) : bool :=
  match evs with
  | Data _ :: _ => false
  | _ => true
  end.

(** What is left of a stream that stops once [recv] has met the stop: a
    timeout and an error are consumed, the end of the connection stays. *)
Definition after_stop (evs : list rx_event) : list rx_event :=
  match evs with
  | TimedOut :: evs' => evs'
  | Failed :: evs' => evs'
  | _ => evs
  end.

End connection.

(* ===================================================================== *)
(** ** src/relay/input_relay.py *)
(* ===================================================================== *)

Module input_relay.

Import device input_event.

Record RelayConfig : Type := {
  max_queue_size : Z;
  max_retries : Z;
  retry_delay_ms : Z;
  enable_encryption : bool;
  batch_size : Z;
  batch_timeout_ms : Z;
  log_events : bool;
  enable_metrics : bool
}.

(** The defaults of the dataclass. *)
Definition RelayConfig_default : RelayConfig :=
  {| max_queue_size := 1000; max_retries := 3; retry_delay_ms := 100;
     enable_encryption := true; batch_size := 10; batch_timeout_ms := 50;
     log_events := true; enable_metrics := true |}.

Record RelayMetrics : Type := {
  events_received : Z;
  events_forwarded : Z;
  events_failed : Z;
  bytes_sent : Z;
  bytes_received : Z;
  avg_latency_ms : Q
}.

Definition RelayMetrics_new : RelayMetrics :=
  {| events_received := 0; events_forwarded := 0; events_failed := 0;
     bytes_sent := 0; bytes_received := 0; avg_latency_ms := 0%Q |}.

(** The relay calls its connection as [connection.send_message(arg)] and
    looks at nothing but whether the call raised.  The connection is
    duck-typed: [conn_send_message args c w] is that call with the
    positional arguments [args], [Some e] when it raises [e]. *)
Class Connection (C : Type) : Type := {
  conn_send_message : list json -> C -> World -> option exn * C * World
}.

(** The connection of the application, [ConnectionHandler]. *)
#[export] Instance ConnectionHandler_Connection `{PyLib}
  : Connection connection.ConnectionHandler := {
  conn_send_message args c w :=
    match connection.call_send_message args c w with
    | (Ok _, c', w') => (None, c', w')
    | (Raise e, c', w') => (Some e, c', w')
    end
}.

(** A stand-in connection that takes any arguments, as the Mock of the
    unit tests: it records the arguments of every call and raises what its
    script says ([None], or an exhausted script: the call returns). *)
Record Recorder : Type := {
  calls : list (list json);
  side_effect : list (option exn)
}.

#[export] Instance Recorder_Connection : Connection Recorder := {
  conn_send_message args c w :=
    ( match side_effect c with
      | Some e :: _ => Some e
      | _ => None
      end,
      {| calls := (calls c ++ [args])%list; side_effect := tl (side_effect c) |},
      w )
}.

(** A callback is seen through what matters to the relay: whether the call
    raises. *)
Definition callback := InputEvent -> option exn.

(** The size from which an [int] is too large for a [float]: [n / 1000.0]
    raises [OverflowError] when [n], rounded to 53 bits, reaches 2^1024. *)
Definition float_limit : Z := 2 ^ 1024 - 2 ^ 970.

Section Relay.

Context `{PyLib} {C : Type} `{Connection C}.

Record InputRelay : Type := {
  local_device : Device;
  remote_device : Device;
  connection_ : option C;
  config : RelayConfig;
  event_queue : list InputEvent;     (* queue.Queue(maxsize=max_queue_size) *)
  batch_buffer : list InputEvent;
  is_running : bool;
  metrics : RelayMetrics;
  _latencies : list Q;
  on_event_forwarded : option callback;
  on_event_failed : option callback
}.

(** [InputRelay.__init__] *)
Definition __init__ (local remote : Device) (connection_handler : option C)
    (cfg : option RelayConfig) : InputRelay :=
  {| local_device := local; remote_device := remote;
     connection_ := connection_handler;
     config := match cfg with Some c => c | None => RelayConfig_default end;
     event_queue := []; batch_buffer := []; is_running := false;
     metrics := RelayMetrics_new; _latencies := [];
     on_event_forwarded := None; on_event_failed := None |}.

Definition with_queue (q : list InputEvent) (r : InputRelay) : InputRelay :=
  {| local_device := local_device r; remote_device := remote_device r;
     connection_ := connection_ r; config := config r;
     event_queue := q; batch_buffer := batch_buffer r;
     is_running := is_running r; metrics := metrics r;
     _latencies := _latencies r;
     on_event_forwarded := on_event_forwarded r;
     on_event_failed := on_event_failed r |}.

Definition with_batch (b : list InputEvent) (r : InputRelay) : InputRelay :=
  {| local_device := local_device r; remote_device := remote_device r;
     connection_ := connection_ r; config := config r;
     event_queue := event_queue r; batch_buffer := b;
     is_running := is_running r; metrics := metrics r;
     _latencies := _latencies r;
     on_event_forwarded := on_event_forwarded r;
     on_event_failed := on_event_failed r |}.

Definition with_running (b : bool) (r : InputRelay) : InputRelay :=
  {| local_device := local_device r; remote_device := remote_device r;
     connection_ := connection_ r; config := config r;
     event_queue := event_queue r; batch_buffer := batch_buffer r;
     is_running := b; metrics := metrics r;
     _latencies := _latencies r;
     on_event_forwarded := on_event_forwarded r;
     on_event_failed := on_event_failed r |}.

Definition with_metrics (m : RelayMetrics) (r : InputRelay) : InputRelay :=
  {| local_device := local_device r; remote_device := remote_device r;
     connection_ := connection_ r; config := config r;
     event_queue := event_queue r; batch_buffer := batch_buffer r;
     is_running := is_running r; metrics := m;
     _latencies := _latencies r;
     on_event_forwarded := on_event_forwarded r;
     on_event_failed := on_event_failed r |}.

Definition with_latencies (l : list Q) (r : InputRelay) : InputRelay :=
  {| local_device := local_device r; remote_device := remote_device r;
     connection_ := connection_ r; config := config r;
     event_queue := event_queue r; batch_buffer := batch_buffer r;
     is_running := is_running r; metrics := metrics r;
     _latencies := l;
     on_event_forwarded := on_event_forwarded r;
     on_event_failed := on_event_failed r |}.

Definition with_connection (c : option C) (r : InputRelay) : InputRelay :=
  {| local_device := local_device r; remote_device := remote_device r;
     connection_ := c; config := config r;
     event_queue := event_queue r; batch_buffer := batch_buffer r;
     is_running := is_running r; metrics := metrics r;
     _latencies := _latencies r;
     on_event_forwarded := on_event_forwarded r;
     on_event_failed := on_event_failed r |}.

(** [relay.on_event_forwarded = callback] *)
Definition set_on_event_forwarded (cb : option callback) (r : InputRelay)
  : InputRelay :=
  {| local_device := local_device r; remote_device := remote_device r;
     connection_ := connection_ r; config := config r;
     event_queue := event_queue r; batch_buffer := batch_buffer r;
     is_running := is_running r; metrics := metrics r;
     _latencies := _latencies r;
     on_event_forwarded := cb;
     on_event_failed := on_event_failed r |}.

Definition incr_received (m : RelayMetrics) : RelayMetrics :=
  {| events_received := events_received m + 1;
     events_forwarded := events_forwarded m; events_failed := events_failed m;
     bytes_sent := bytes_sent m; bytes_received := bytes_received m;
     avg_latency_ms := avg_latency_ms m |}.

Definition incr_forwarded (m : RelayMetrics) : RelayMetrics :=
  {| events_received := events_received m;
     events_forwarded := events_forwarded m + 1;
     events_failed := events_failed m;
     bytes_sent := bytes_sent m; bytes_received := bytes_received m;
     avg_latency_ms := avg_latency_ms m |}.

Definition incr_failed (m : RelayMetrics) : RelayMetrics :=
  {| events_received := events_received m;
     events_forwarded := events_forwarded m;
     events_failed := events_failed m + 1;
     bytes_sent := bytes_sent m; bytes_received := bytes_received m;
     avg_latency_ms := avg_latency_ms m |}.

Definition add_bytes_sent (n : Z) (m : RelayMetrics) : RelayMetrics :=
  {| events_received := events_received m;
     events_forwarded := events_forwarded m; events_failed := events_failed m;
     bytes_sent := bytes_sent m + n; bytes_received := bytes_received m;
     avg_latency_ms := avg_latency_ms m |}.

Definition set_avg_latency (a : Q) (m : RelayMetrics) : RelayMetrics :=
  {| events_received := events_received m;
     events_forwarded := events_forwarded m; events_failed := events_failed m;
     bytes_sent := bytes_sent m; bytes_received := bytes_received m;
     avg_latency_ms := a |}.

(** [InputRelay.start], without the thread it creates: the loop is
    [_relay_loop_iteration] below, run by the scheduler. *)
Definition start (self : InputRelay) : bool * InputRelay :=
  if is_running self then (false, self)
  else (true, with_running true self).

(** [queue.Queue.put_nowait]: a queue with [maxsize <= 0] is unbounded. *)
Definition put_nowait (event : InputEvent) (maxsize : Z)
    (q : list InputEvent) : option (list InputEvent) :=
  if (0 <? maxsize) && (maxsize <=? Z.of_nat (List.length q))
  then None                                  (* queue.Full *)
  else Some (q ++ [event])%list.

(** [InputRelay.queue_event] *)
Definition queue_event (event : InputEvent) (self : InputRelay)
  : bool * InputRelay :=
  if negb (is_running self) then (false, self)
  else
    match put_nowait event (max_queue_size (config self)) (event_queue self) with
    | Some q =>
        (true, with_metrics (incr_received (metrics self)) (with_queue q self))
    | None =>
        (false, with_metrics (incr_failed (metrics self)) self)
    end.

(** [InputRelay._add_to_batch] *)
Definition _add_to_batch (event : InputEvent) (self : InputRelay) : InputRelay :=
  with_batch (batch_buffer self ++ [event])%list self.

Definition Qsum (l : list Q) : Q := fold_left Qplus l 0%Q.

(** The bookkeeping of [_forward_event] after a send that returned. *)
Definition record_success (event_json : string) (start_time : datetime)
    (self : InputRelay) (w : World) : InputRelay * World :=
  let self1 :=
    with_metrics (add_bytes_sent (connection.len (str_encode event_json))
                                 (metrics self)) self in
  let (t, w1) := now w in
  let latency := Qmake (total_microseconds t start_time) 1000 in
  let lat1 := (_latencies self1 ++ [latency])%list in
  let lat2 := if (100 <? List.length lat1)%nat then tl lat1 else lat1 in
  let avg := Qdiv (Qsum lat2) (inject_Z (Z.of_nat (List.length lat2))) in
  (with_metrics (set_avg_latency avg (metrics self1))
                (with_latencies lat2 self1), w1).

(** The arguments of the call in [_forward_event]:
    [self.connection.send_message({"type": "INPUT_EVENT", "payload": event_dict})],
    one positional argument. *)
Definition send_args (event_dict : dict json) : list json :=
  [JDict [("type", JStr "INPUT_EVENT"); ("payload", JDict event_dict)]].

(** The loop [for attempt in range(max_retries)] of [_forward_event], with
    [remaining] attempts to go. *)
Fixpoint forward_attempts (remaining : nat) (event : InputEvent)
    (start_time : datetime) (conn : C) (self : InputRelay) (w : World)
  : bool * InputRelay * World :=
  match remaining with
  | O => (false, with_connection (Some conn) self, w)
  | S remaining' =>
      let event_dict := to_dict event in
      let event_json := json_dumps (JDict event_dict) in
      match conn_send_message (send_args event_dict) conn w with
      | (None, conn', w1) =>
          let (self', w2) :=
            record_success event_json start_time
                           (with_connection (Some conn') self) w1 in
          (true, self', w2)
      | (Some _, conn', w1) =>
          forward_attempts remaining' event start_time conn' self w1
      end
  end.

(** [InputRelay._forward_event] *)
Definition _forward_event (event : InputEvent) (self : InputRelay) (w : World)
  : bool * InputRelay * World :=
  match connection_ self with
  | None => (false, self, w)
  | Some conn =>
      let (start_time, w1) := now w in
      forward_attempts (Z.to_nat (max_retries (config self))) event
                       start_time conn self w1
  end.

Definition invoke (cb : option callback) (event : InputEvent) : option exn :=
  match cb with
  | Some f => f event
  | None => None
  end.

(** The loop [for event in events_to_send] of [_flush_batch]; an exception
    of a callback leaves the loop. *)
Fixpoint forward_all (events_to_send : list InputEvent) (self : InputRelay)
    (w : World) : option exn * InputRelay * World :=
  match events_to_send with
  | [] => (None, self, w)
  | event :: rest =>
      match _forward_event event self w with
      | (true, self1, w1) =>
          let self2 := with_metrics (incr_forwarded (metrics self1)) self1 in
          match invoke (on_event_forwarded self2) event with
          | Some e => (Some e, self2, w1)
          | None => forward_all rest self2 w1
          end
      | (false, self1, w1) =>
          let self2 := with_metrics (incr_failed (metrics self1)) self1 in
          match invoke (on_event_failed self2) event with
          | Some e => (Some e, self2, w1)
          | None => forward_all rest self2 w1
          end
      end
  end.

(** [InputRelay._flush_batch] *)
Definition _flush_batch (self : InputRelay) (w : World)
  : option exn * InputRelay * World :=
  match batch_buffer self with
  | [] => (None, self, w)
  | events_to_send => forward_all events_to_send (with_batch [] self) w
  end.

(** [event_queue.get(timeout=timeout_ms / 1000.0)]; [Ok None] is
    [queue.Empty].  The division raises [OverflowError] for an [int] that
    is too large for a [float]; [get] raises [ValueError] for a negative
    timeout before it looks at the queue; and on an empty queue the wait
    raises [OverflowError] for a timeout above [threading.TIMEOUT_MAX]. *)
Definition queue_get (timeout_ms : Z) (q : list InputEvent)
  : result (option (InputEvent * list InputEvent)) :=
  if float_limit <=? Z.abs timeout_ms then Raise OverflowError
  else if timeout_ms <? 0
       then Raise (ValueError "'timeout' must be a non-negative number")
  else match q with
       | event :: q' => Ok (Some (event, q'))
       | [] => if wait_max_ms <? timeout_ms then Raise OverflowError
               else Ok None
       end.

(** One turn of the [while self.is_running] loop of [_relay_loop]; the
    exceptions that reach the loop are logged and dropped: a turn in which
    [get] raises takes nothing from the queue and sends nothing. *)
Definition _relay_loop_iteration (self : InputRelay) (w : World)
  : InputRelay * World :=
  match queue_get (batch_timeout_ms (config self)) (event_queue self) with
  | Raise _ => (self, w)
  | Ok (Some (event, q)) =>
      let self1 := _add_to_batch event (with_queue q self) in
      if batch_size (config self1) <=? Z.of_nat (List.length (batch_buffer self1))
      then let '(_, self2, w2) := _flush_batch self1 w in (self2, w2)
      else (self1, w)
  | Ok None =>                               (* queue.Empty *)
      match batch_buffer self with
      | [] => (self, w)
      | _ :: _ => let '(_, self2, w2) := _flush_batch self w in (self2, w2)
      end
  end.

(** [n] turns of the relay loop while the relay is running. *)
Fixpoint _relay_loop (n : nat) (self : InputRelay) (w : World)
  : InputRelay * World :=
  match n with
  | O => (self, w)
  | S n' =>
      if is_running self
      then let (self', w') := _relay_loop_iteration self w in
           _relay_loop n' self' w'
      else (self, w)
  end.

(** [InputRelay.stop], without the join of the thread. *)
Definition stop (self : InputRelay) (w : World) : bool * InputRelay * World :=
  if negb (is_running self) then (false, self, w)
  else
    match _flush_batch (with_running false self) w with
    | (None, self', w') => (true, self', w')
    | (Some _, self', w') => (false, self', w')
    end.

(** Successive calls of [queue_event], with their results. *)
Fixpoint queue_events (events : list InputEvent) (self : InputRelay)
  : list bool * InputRelay :=
  match events with
  | [] => ([], self)
  | e :: es =>
      let (ok, self1) := queue_event e self in
      let (oks, self2) := queue_events es self1 in
      (ok :: oks, self2)
  end.

End Relay.

Arguments InputRelay C : clear implicits.

(** The call that forwards [event], as the connection sees it. *)
Definition wire_call `{PyLib} (event : InputEvent) : list json :=
  send_args (to_dict event).

(** A relay in working order over a recorder [c]: it is running, makes at
    least one attempt for an event, has no callback set, and the recorder
    raises nothing. *)
Definition ready (r : InputRelay Recorder) (c : Recorder) : Prop :=
  connection_ r = Some c
  /\ side_effect c = []
  /\ is_running r = true
  /\ 1 <= max_retries (config r)
  /\ on_event_forwarded r = None
  /\ on_event_failed r = None.

End input_relay.

(* ===================================================================== *)
(** ** src/relay/input_relay.py: [RelayManager] *)
(* ===================================================================== *)

Module relay_manager.

Import device input_event input_relay.

Section Manager.

Context `{PyLib} {C : Type} `{Connection C}.

(** [relays] maps the id of a remote device to its relay.  The relays are
    objects that the manager holds; a method that hands one out hands out
    the object, which is seen here as its state at that moment. *)
Record RelayManager : Type := {
  local_device : Device;
  relays : dict (InputRelay C)
}.

(** [RelayManager.__init__] *)
Definition __init__ (local : Device) : RelayManager :=
  {| local_device := local; relays := [] |}.

Definition with_relays (rs : dict (InputRelay C)) (self : RelayManager)
  : RelayManager :=
  {| local_device := local_device self; relays := rs |}.

(** [RelayManager.add_relay] *)
Definition add_relay (remote_device : Device) (connection_handler : option C)
    (config : option RelayConfig) (self : RelayManager)
  : option (InputRelay C) * RelayManager :=
  match get (device.id remote_device) (relays self) with
  | Some relay => (Some relay, self)
  | None =>
      let relay := input_relay.__init__ (local_device self) remote_device
                     connection_handler config in
      let (_, relay1) := start relay in
      (Some relay1,
       with_relays (py.set (device.id remote_device) relay1 (relays self))
                   self)
  end.

(** [RelayManager.remove_relay]: the relay is stopped, whatever [stop]
    returns, and leaves the manager. *)
Definition remove_relay (device_id : string) (self : RelayManager) (w : World)
  : bool * RelayManager * World :=
  match get device_id (relays self) with
  | None => (false, self, w)
  | Some relay =>
      let '(_, _, w1) := stop relay w in
      (true, with_relays (py.del device_id (relays self)) self, w1)
  end.

(** The loop [for relay in self.relays.values()] of [broadcast_event],
    over the items of the dictionary: every relay is offered the event. *)
Fixpoint broadcast_items (event : InputEvent)
    (items : dict (InputRelay C)) : nat * dict (InputRelay C) :=
  match items with
  | [] => (O, [])
  | (device_id, relay) :: rest =>
      let (ok, relay1) := queue_event event relay in
      let (count, rest1) := broadcast_items event rest in
      ((if ok then S count else count), (device_id, relay1) :: rest1)
  end.

(** [RelayManager.broadcast_event] *)
Definition broadcast_event (event : InputEvent) (self : RelayManager)
  : nat * RelayManager :=
  let (count, items) := broadcast_items event (relays self) in
  (count, with_relays items self).

(** [RelayManager.get_relay] *)
Definition get_relay (device_id : string) (self : RelayManager)
  : option (InputRelay C) :=
  get device_id (relays self).


(** [RelayManager.get_metrics_summary] *)
Definition get_metrics_summary (self : RelayManager) : dict RelayMetrics :=
  map (fun kv => (fst kv, metrics (snd kv))) (relays self).

(** The loop of [shutdown]: every relay is stopped; [stop] catches what is
    raised in it, so that nothing reaches the loop. *)
Fixpoint stop_all (rs : list (InputRelay C)) (w : World) : World :=
  match rs with
  | [] => w
  | relay :: rest => let '(_, _, w1) := stop relay w in stop_all rest w1
  end.

(** [RelayManager.shutdown] *)
Definition shutdown (self : RelayManager) (w : World)
  : bool * RelayManager * World :=
  (true, with_relays [] self, stop_all (values (relays self)) w).

(** What is done to a manager through its methods. *)
Inductive action : Type :=
| AddRelay (remote_device : Device) (connection_handler : option C)
           (config : option RelayConfig)
| RemoveRelay (device_id : string)
| BroadcastEvent (event : InputEvent)
| Shutdown.

Definition step (a : action) (self : RelayManager) (w : World)
  : RelayManager * World :=
  match a with
  | AddRelay remote_device connection_handler config =>
      (snd (add_relay remote_device connection_handler config self), w)
  | RemoveRelay device_id =>
      let '(_, self1, w1) := remove_relay device_id self w in (self1, w1)
  | BroadcastEvent event => (snd (broadcast_event event self), w)
  | Shutdown => let '(_, self1, w1) := shutdown self w in (self1, w1)
  end.

Fixpoint run (actions : list action) (self : RelayManager) (w : World)
  : RelayManager * World :=
  match actions with
  | [] => (self, w)
  | a :: rest => let (self1, w1) := step a self w in run rest self1 w1
  end.


End Manager.

Arguments RelayManager C : clear implicits.
Arguments action C : clear implicits.

End relay_manager.

(* ===================================================================== *)
(** ** src/models/repositories.py over the [devices] table of schema.py *)
(* ===================================================================== *)

Module repositories.

Import device.

(** [Database]: [connection] is [None] until [connect()]; the connection
    is seen through the rows of table [devices].  [created_in] is the
    thread that called [connect()]: [sqlite3.connect(str(self.db_path))]
    leaves [check_same_thread] at its default, so the connection remembers
    the thread that opened it. *)
Record Database : Type := {
  connection : option (list Device);
  created_in : thread
}.

Definition with_rows (rows : list Device) (db : Database) : Database :=
  {| connection := Some rows; created_in := created_in db |}.

(** [Database.connect], called in the thread [caller], on the table as
    the file has it. *)
Definition connect (caller : thread) (rows : list Device) : Database :=
  {| connection := Some rows; created_in := caller |}.

(** [self.db.connection.cursor()], called in the thread [caller]: without
    a connection the attribute is missing on [None]; a connection gives a
    cursor to the thread that opened it and raises
    [sqlite3.ProgrammingError] in any other. *)
Definition cursor (caller : thread) (db : Database) : result (list Device) :=
  match connection db with
  | None => Raise AttributeError
  | Some rows =>
      if (caller =? created_in db)%nat then Ok rows
      else Raise ProgrammingError
  end.

(** [CHECK (port >= 1024 AND port <= 65535)] *)
Definition port_check (d : Device) : bool :=
  (1024 <=? port d) && (port d <=? 65535).

(** [id TEXT PRIMARY KEY] *)
Definition id_taken (k : string) (rows : list Device) : bool :=
  existsb (fun r => String.eqb (id r) k) rows.

(** [mac_address TEXT UNIQUE NOT NULL], against the rows other than [k]. *)
Definition mac_taken (k mac : string) (rows : list Device) : bool :=
  existsb (fun r => negb (String.eqb (id r) k)
                    && String.eqb (mac_address r) mac) rows.

(** [DeviceRepository.create]: INSERT INTO devices. *)
Definition create (caller : thread) (d : Device) (db : Database)
  : result Device * Database :=
  match cursor caller db with
  | Raise e => (Raise e, db)
  | Ok rows =>
      if id_taken (id d) rows || mac_taken (id d) (mac_address d) rows
         || negb (port_check d)
      then (Raise IntegrityError, db)
      else (Ok d, with_rows (rows ++ [d])%list db)
  end.

(** [DeviceRepository._row_to_device]: the row goes through the
    constructor of [Device]. *)
Definition _row_to_device (row : Device) : result Device := device.new row.

(** [DeviceRepository.read]: SELECT * FROM devices WHERE id = ?. *)
Definition read (caller : thread) (device_id : string) (db : Database)
  : result (option Device) :=
  rows <- cursor caller db ;;
  match find (fun r => String.eqb (id r) device_id) rows with
  | None => Ok None
  | Some row => d <- _row_to_device row ;; Ok (Some d)
  end.

(** The columns that UPDATE sets, on one row. *)
Definition update_row (d row : Device) : Device :=
  {| id := id row; mac_address := mac_address d; name := name d;
     os := os d; role := role d; ip_address := ip_address d;
     port := port d; version := version d;
     is_registered := is_registered d;
     created_at := created_at row; last_seen := last_seen d |}.

(** [DeviceRepository.update]: UPDATE devices SET ... WHERE id = ?. *)
Definition update (caller : thread) (d : Device) (db : Database)
  : result Device * Database :=
  match cursor caller db with
  | Raise e => (Raise e, db)
  | Ok rows =>
      if id_taken (id d) rows
         && (mac_taken (id d) (mac_address d) rows || negb (port_check d))
      then (Raise IntegrityError, db)
      else (Ok d,
            with_rows (map (fun r => if String.eqb (id r) (id d)
                                     then update_row d r else r) rows) db)
  end.

End repositories.

(* ===================================================================== *)
(** ** src/network/discovery.py *)
(* ===================================================================== *)

Module discovery.

Import device repositories.

(** What [zeroconf.get_service_info] answers: the TXT properties (their
    values decoded), the parsed addresses and the port. *)
Record ServiceInfo : Type := {
  properties : dict string;
  parsed_addresses : list string;
  info_port : Z
}.

Inductive ServiceStateChange : Type := Added | Removed | Updated.

(** A listener is seen through whether a call of it raises. *)
Definition listener := string -> Device -> option exn.

(** A call [listener(kind, device)] of the listener at position [who] of
    [listeners]. *)
Record call : Type := {
  who : nat;
  kind : string;
  subject : Device
}.

(** [_offline_thread] is seen through the ident of the thread. *)
Record DiscoveryService : Type := {
  local_device : Device;
  db : Database;
  discovered_devices : dict Device;
  listeners : list listener;
  running : bool;
  _offline_thread : option thread
}.

Definition OFFLINE_THRESHOLD : Z := 60.

(** [DiscoveryService.__init__] *)
Definition __init__ (local : Device) (database : Database) : DiscoveryService :=
  {| local_device := local; db := database; discovered_devices := [];
     listeners := []; running := false; _offline_thread := None |}.

Definition with_db (database : Database) (s : DiscoveryService) :=
  {| local_device := local_device s; db := database;
     discovered_devices := discovered_devices s;
     listeners := listeners s; running := running s;
     _offline_thread := _offline_thread s |}.

Definition with_discovered (m : dict Device) (s : DiscoveryService) :=
  {| local_device := local_device s; db := db s;
     discovered_devices := m;
     listeners := listeners s; running := running s;
     _offline_thread := _offline_thread s |}.

Definition with_running (b : bool) (s : DiscoveryService) :=
  {| local_device := local_device s; db := db s;
     discovered_devices := discovered_devices s;
     listeners := listeners s; running := b;
     _offline_thread := _offline_thread s |}.

Definition with_offline_thread (t : option thread) (s : DiscoveryService) :=
  {| local_device := local_device s; db := db s;
     discovered_devices := discovered_devices s;
     listeners := listeners s; running := running s;
     _offline_thread := t |}.

Definition with_local_device (d : Device) (s : DiscoveryService) :=
  {| local_device := d; db := db s;
     discovered_devices := discovered_devices s;
     listeners := listeners s; running := running s;
     _offline_thread := _offline_thread s |}.

(** [DiscoveryService.add_listener] *)
Definition add_listener (callback : listener) (s : DiscoveryService) :=
  {| local_device := local_device s; db := db s;
     discovered_devices := discovered_devices s;
     listeners := (listeners s ++ [callback])%list; running := running s;
     _offline_thread := _offline_thread s |}.

(** [for listener in self.listeners: try: listener(kind, device) ...]:
    every listener is called, whatever the others raise. *)
Definition notify (event_kind : string) (d : Device) (ls : list listener)
  : list call :=
  map (fun i => {| who := i; kind := event_kind; subject := d |})
      (seq 0 (List.length ls)).

(** [s.upper()], on the letters a to z. *)
Definition upper_char (c : ascii) : ascii :=
  if re.between "a" "z" c
  then ascii_of_N (N_of_ascii c - 32)
  else c.

Fixpoint upper (s : string) : string :=
  match s with
  | EmptyString => EmptyString
  | String c s' => String (upper_char c) (upper s')
  end.

(** [DeviceOS[name]]: lookup by member name, [None] for [KeyError]. *)
Definition DeviceOS_by_name (n : string) : option DeviceOS :=
  if String.eqb n "WINDOWS" then Some WINDOWS
  else if String.eqb n "MACOS" then Some MACOS
  else None.

(** [DeviceRole[name]] *)
Definition DeviceRole_by_name (n : string) : option DeviceRole :=
  if String.eqb n "MASTER" then Some MASTER
  else if String.eqb n "CLIENT" then Some CLIENT
  else if String.eqb n "UNASSIGNED" then Some UNASSIGNED
  else None.

(** [name.split("._kms")[0] if "._kms" in name else name]: what comes
    before the first ["._kms"], or all of [name]. *)
Fixpoint device_name_of (service_name : string) : string :=
  if String.prefix "._kms" service_name then EmptyString
  else match service_name with
       | EmptyString => EmptyString
       | String c rest => String c (device_name_of rest)
       end.

Definition property (key default : string) (info : ServiceInfo) : string :=
  match get key (properties info) with
  | Some v => v
  | None => default
  end.

(** [DiscoveryService._on_device_added], called in the thread [caller];
    [info] is the answer of [zeroconf.get_service_info].  The result is
    the new service, the calls made to the listeners and the clock. *)
Definition _on_device_added (caller : thread) (service_name : string)
    (info : option ServiceInfo) (self : DiscoveryService) (w : World)
  : DiscoveryService * list call * World :=
  match info with
  | None => (self, [], w)
  | Some info =>
      let device_id := property "device_id" "" info in
      let os_name := property "os" "Windows" info in
      let version_ := property "version" "1.0.0" info in
      let role_ := property "role" "UNASSIGNED" info in
      let ip := match parsed_addresses info with
                | a :: _ => Some a
                | [] => None
                end in
      let port_ := info_port info in
      if String.eqb device_id (id (local_device self)) then (self, [], w)
      else
        let device_name := device_name_of service_name in
        let device_os := match DeviceOS_by_name (upper os_name) with
                         | Some o => o
                         | None => WINDOWS
                         end in
        let device_role := match DeviceRole_by_name (upper role_) with
                           | Some r => r
                           | None => UNASSIGNED
                           end in
        let (t_seen, w1) := now w in
        let (t_created, w2) := now w1 in
        match device.new {| id := device_id; name := device_name;
                            mac_address := ""; os := device_os;
                            role := device_role; ip_address := ip;
                            port := port_; version := version_;
                            is_registered := true;
                            created_at := t_created;
                            last_seen := t_seen |} with
        | Raise _ => (self, [], w2)
        | Ok fresh =>
            match read caller device_id (db self) with
            | Raise _ => (self, [], w2)
            | Ok (Some existing) =>
                let (t, w3) := now w2 in
                let existing' :=
                  set_last_seen t
                    (set_is_registered true (set_ip_address ip existing)) in
                match update caller existing' (db self) with
                | (Raise _, _) => (self, [], w3)
                | (Ok _, db') =>
                    let self' :=
                      with_discovered
                        (py.set device_id existing' (discovered_devices self))
                        (with_db db' self) in
                    (self', notify "device_added" existing' (listeners self'), w3)
                end
            | Ok None =>
                match create caller fresh (db self) with
                | (Raise _, _) => (self, [], w2)
                | (Ok _, db') =>
                    let self' :=
                      with_discovered
                        (py.set device_id fresh (discovered_devices self))
                        (with_db db' self) in
                    (self', notify "device_added" fresh (listeners self'), w2)
                end
            end
        end
  end.

(** [DiscoveryService._on_device_removed]: the first discovered device
    with that name goes. *)
Definition _on_device_removed (caller : thread) (service_name : string)
    (self : DiscoveryService) : DiscoveryService * list call :=
  let device_name := device_name_of service_name in
  match find (fun kv => String.eqb (name (snd kv)) device_name)
             (discovered_devices self) with
  | None => (self, [])
  | Some (device_id, d) =>
      let self1 := with_discovered (py.del device_id (discovered_devices self))
                                   self in
      let d' := set_is_registered false d in
      match update caller d' (db self1) with
      | (Raise _, _) => (self1, [])
      | (Ok _, db') =>
          let self2 := with_db db' self1 in
          (self2, notify "device_removed" d' (listeners self2))
      end
  end.

(** [DiscoveryService._on_device_updated]: remove, then add. *)
Definition _on_device_updated (caller : thread) (service_name : string)
    (info : option ServiceInfo) (self : DiscoveryService) (w : World)
  : DiscoveryService * list call * World :=
  let (self1, calls1) := _on_device_removed caller service_name self in
  let '(self2, calls2, w2) :=
    _on_device_added caller service_name info self1 w in
  (self2, (calls1 ++ calls2)%list, w2).

(** [DiscoveryService.on_service_state_change], called in the thread
    [caller]: the service browser calls it in the thread of zeroconf, the
    tests of the repository in their own. *)
Definition on_service_state_change (caller : thread) (service_name : string)
    (state_change : ServiceStateChange) (info : option ServiceInfo)
    (self : DiscoveryService) (w : World)
  : DiscoveryService * list call * World :=
  match state_change with
  | Added => _on_device_added caller service_name info self w
  | Removed =>
      let (self', calls) := _on_device_removed caller service_name self in
      (self', calls, w)
  | Updated => _on_device_updated caller service_name info self w
  end.

(** The body of the loop over [list(self.discovered_devices.items())] in
    [check_offline_loop], run in the thread [caller], for the entries
    [items] still to visit.  The first component tells whether an
    exception left the loop. *)
Fixpoint check_offline_items (caller : thread) (t : datetime)
    (items : list (string * Device)) (self : DiscoveryService)
  : option exn * DiscoveryService * list call :=
  match items with
  | [] => (None, self, [])
  | (device_id, d) :: rest =>
      let time_since_seen := total_microseconds t (last_seen d) in
      if (time_since_seen >? OFFLINE_THRESHOLD * 1000000) && is_registered d
      then
        (* [device.is_registered = False] on the object the map holds *)
        let d' := set_is_registered false d in
        let self1 :=
          with_discovered (py.set device_id d' (discovered_devices self))
                          self in
        match update caller d' (db self1) with
        | (Raise e, _) => (Some e, self1, [])
        | (Ok _, db') =>
            let self2 := with_db db' self1 in
            let calls1 := notify "device_offline" d' (listeners self2) in
            let '(e, self3, calls2) :=
              check_offline_items caller t rest self2 in
            (e, self3, (calls1 ++ calls2)%list)
        end
      else check_offline_items caller t rest self
  end.

(** One turn of [check_offline_loop]: the sweep, which runs in the thread
    that [_start_offline_detection] made and nowhere else.  An exception is
    logged and the turn ends. *)
Definition check_offline (self : DiscoveryService) (w : World)
  : DiscoveryService * list call * World :=
  match _offline_thread self with
  | None => (self, [], w)
  | Some sweeper =>
      if running self then
        let (t, w1) := now w in
        let '(_, self', calls) :=
          check_offline_items sweeper t (discovered_devices self) self in
        (self', calls, w1)
      else (self, [], w)
  end.

(** [DiscoveryService.start], called in the thread [caller]: the service
    is switched on and the local device registered, where an exception of
    the repository goes to the caller; then [_start_offline_detection]
    starts the thread of the sweep, whose ident is [sweeper]. *)
Definition start (caller sweeper : thread) (self : DiscoveryService)
  : option exn * DiscoveryService :=
  let self1 := with_running true self in
  let local' := set_is_registered true (local_device self1) in
  let self2 := with_local_device local' self1 in
  match update caller local' (db self2) with
  | (Raise e, _) => (Some e, self2)
  | (Ok _, db') =>
      (None, with_offline_thread (Some sweeper) (with_db db' self2))
  end.

(** [DiscoveryService.stop] *)
Definition stop (self : DiscoveryService) : DiscoveryService :=
  with_running false self.

(** [DiscoveryService.get_discovered] *)
Definition get_discovered (self : DiscoveryService) : list Device :=
  values (discovered_devices self).

(** What can happen to a discovery service: the calls of its methods,
    each in the thread of its caller, and the turns of the loop in the
    thread of the sweep.  [Start] names the caller and the thread that
    [threading.Thread] makes, which is not the one it is made in. *)
Inductive action : Type :=
| AddListener (callback : listener)
| Start (caller sweeper : thread)
| Stop
| StateChange (caller : thread) (service_name : string)
              (state_change : ServiceStateChange) (info : option ServiceInfo)
| Sweep.

Definition step (a : action) (self : DiscoveryService) (w : World)
  : DiscoveryService * list call * World :=
  match a with
  | AddListener cb => (add_listener cb self, [], w)
  | Start caller sweeper => (snd (start caller sweeper self), [], w)
  | Stop => (stop self, [], w)
  | StateChange caller n sc info =>
      on_service_state_change caller n sc info self w
  | Sweep => check_offline self w
  end.

(** A run: the actions in order, with all the calls made to listeners. *)
Fixpoint run (actions : list action) (self : DiscoveryService) (w : World)
  : DiscoveryService * list call * World :=
  match actions with
  | [] => (self, [], w)
  | a :: rest =>
      let '(self1, calls1, w1) := step a self w in
      let '(self2, calls2, w2) := run rest self1 w1 in
      (self2, (calls1 ++ calls2)%list, w2)
  end.

(** The device has been silent for longer than the liveness window when
    the clock shows [t]: the first half of the test of the sweep. *)
Definition silent_past_window (d : Device) (t : datetime) : bool :=
  total_microseconds t (last_seen d) >? OFFLINE_THRESHOLD * 1000000.

(** What a sweep at [t] makes of a discovered device, and the calls it
    makes about it to the listeners [ls]. *)
Definition swept (t : datetime) (d : Device) : Device :=
  if silent_past_window d t && is_registered d
  then set_is_registered false d else d.

Definition swept_calls (t : datetime) (ls : list listener) (d : Device)
  : list call :=
  if silent_past_window d t && is_registered d
  then notify "device_offline" (set_is_registered false d) ls else [].

(** How often the listener at position [i] was told that the device with
    id [p] went offline. *)
Definition offline_calls (i : nat) (p : string) (calls : list call) : nat :=
  List.length
    (filter (fun c => (who c =? i)%nat
                      && String.eqb (kind c) "device_offline"
                      && String.eqb (id (subject c)) p) calls).

Fixpoint unique (ks : list string) : bool :=
  match ks with
  | [] => true
  | k :: ks' => negb (existsb (String.eqb k) ks') && unique ks'
  end.

(** The primary key and the unique column of the rows. *)
Definition row_keys (rows : list Device) : list (string * string) :=
  map (fun r => (id r, mac_address r)) rows.

(** The table takes an UPDATE from [d]: no other row has the hardware
    address of [d], the port of [d] passes the CHECK, and a row of [d] has
    the hardware address of [d] already. *)
Definition update_accepted (rows : list Device) (d : Device) : bool :=
  negb (mac_taken (id d) (mac_address d) rows)
  && port_check d
  && forallb (fun r => negb (String.eqb (id r) (id d))
                       || String.eqb (mac_address r) (mac_address d)) rows.

(** The database is connected and in step with the discovery service:
    the discovered set is a dictionary (no key twice) that files every
    device under its id, and the table takes the update of every
    discovered device. *)
Definition rows_ready (s : DiscoveryService) : bool :=
  match connection (db s) with
  | None => false
  | Some rows =>
      unique (keys (discovered_devices s))
      && forallb (fun kv => String.eqb (id (snd kv)) (fst kv)
                            && update_accepted rows (snd kv))
                 (discovered_devices s)
  end.

(** The thread of the sweep is the one that opened the connection. *)
Definition sweeper_owns_connection (s : DiscoveryService) : bool :=
  match _offline_thread s with
  | Some sweeper => (sweeper =? created_in (db s))%nat
  | None => false
  end.

(** The state in which the repository accepts what a sweep asks of it. *)
Definition sweep_ready (s : DiscoveryService) : bool :=
  sweeper_owns_connection s && rows_ready s.

(** The table keeps the keys of its schema: [id] is the primary key and
    [mac_address] is unique. *)
Definition valid_rows (rows : list Device) : bool :=
  unique (map fst (row_keys rows)) && unique (map snd (row_keys rows)).

Definition valid_db (database : Database) : bool :=
  match connection database with
  | Some rows => valid_rows rows
  | None => false
  end.

(** A discovery service in step with its database: the database is
    connected and keeps its keys; the discovered set is a dictionary that
    files, under its id, a device other than the local one, whose port the
    table accepts and whose row has its hardware address. *)
Definition in_step (s : DiscoveryService) : Prop :=
  exists rows,
    connection (db s) = Some rows
    /\ valid_rows rows = true
    /\ unique (keys (discovered_devices s)) = true
    /\ Forall (fun kv => id (snd kv) = fst kv
                         /\ fst kv <> id (local_device s)
                         /\ port_check (snd kv) = true
                         /\ In (fst kv, mac_address (snd kv)) (row_keys rows))
              (discovered_devices s).

(** The discovered set keeps the local identity out, and files every
    device under its own id. *)
Definition excludes_self (s : DiscoveryService) : Prop :=
  ~ In (id (local_device s)) (keys (discovered_devices s))
  /\ Forall (fun kv => id (snd kv) = fst kv) (discovered_devices s).

End discovery.

(* ===================================================================== *)
(** ** src/models/device.py: [to_dict] and [from_dict] *)
(* ===================================================================== *)

Module device_dict.

Import device.

(** [DeviceOS(value)]: the member with that value, or [ValueError]. *)
Definition DeviceOS_of_value (value : json) : result DeviceOS :=
  match value with
  | JStr s =>
      if String.eqb s "Windows" then Ok WINDOWS
      else if String.eqb s "Darwin" then Ok MACOS
      else Raise (ValueError "not a valid DeviceOS")
  | _ => Raise (ValueError "not a valid DeviceOS")
  end.

(** [DeviceRole(value)] *)
Definition DeviceRole_of_value (value : json) : result DeviceRole :=
  match value with
  | JStr s =>
      if String.eqb s "MASTER" then Ok MASTER
      else if String.eqb s "CLIENT" then Ok CLIENT
      else if String.eqb s "UNASSIGNED" then Ok UNASSIGNED
      else Raise (ValueError "not a valid DeviceRole")
  | _ => Raise (ValueError "not a valid DeviceRole")
  end.

(** [data.get(key, default)] *)
Definition get_default (key : string) (default : json) (data : dict json)
  : json :=
  match get key data with
  | Some v => v
  | None => default
  end.

(** The record is typed by the annotations of the dataclass, as for
    [InputEvent]. *)
Definition as_int (v : json) : result Z :=
  match v with JInt n => Ok n | _ => Raise TypeError end.

Definition as_optional_str (v : json) : result (option string) :=
  match v with
  | JNull => Ok None
  | JStr s => Ok (Some s)
  | _ => Raise TypeError
  end.

(** [Device.to_dict] *)
Definition to_dict `{PyLib} (self : Device) : dict json :=
  [ ("id", JStr (id self));
    ("mac_address", JStr (mac_address self));
    ("name", JStr (name self));
    ("os", JStr (DeviceOS_value (os self)));
    ("role", JStr (DeviceRole_value (role self)));
    ("ip_address", match ip_address self with
                   | Some ip => JStr ip
                   | None => JNull
                   end);
    ("port", JInt (port self));
    ("version", JStr (version self));
    ("is_registered", JBool (is_registered self));
    ("created_at", JStr (isoformat (created_at self)));
    ("last_seen", JStr (isoformat (last_seen self))) ].

(** [Device.from_dict]: the arguments of the constructor are evaluated in
    the order in which they are written. *)
Definition from_dict `{PyLib} (data : dict json) : result Device :=
  id_v <- input_event.getitem "id" data ;;
  id_ <- input_event.as_str id_v ;;
  mac_v <- input_event.getitem "mac_address" data ;;
  mac_ <- input_event.as_str mac_v ;;
  name_v <- input_event.getitem "name" data ;;
  name_ <- input_event.as_str name_v ;;
  os_v <- input_event.getitem "os" data ;;
  os_ <- DeviceOS_of_value os_v ;;
  role_v <- input_event.getitem "role" data ;;
  role_ <- DeviceRole_of_value role_v ;;
  ip_ <- as_optional_str (get_default "ip_address" JNull data) ;;
  port_ <- as_int (get_default "port" (JInt 19999) data) ;;
  version_ <- input_event.as_str (get_default "version" (JStr "1.0.0") data) ;;
  is_registered_ <-
    input_event.as_bool (get_default "is_registered" (JBool false) data) ;;
  created_v <- input_event.getitem "created_at" data ;;
  created_s <- input_event.as_str created_v ;;
  created_ <- fromisoformat created_s ;;
  seen_v <- input_event.getitem "last_seen" data ;;
  seen_s <- input_event.as_str seen_v ;;
  seen_ <- fromisoformat seen_s ;;
  device.new {| id := id_; mac_address := mac_; name := name_; os := os_;
                role := role_; ip_address := ip_; port := port_;
                version := version_; is_registered := is_registered_;
                created_at := created_; last_seen := seen_ |}.

End device_dict.

(* ===================================================================== *)
(** ** src/models/connection.py *)
(* ===================================================================== *)

Module connection_entity.

Import validators.

Inductive ConnectionStatus : Type :=
| CONNECTING
| CONNECTED
| DISCONNECTED
| FAILED.

Definition ConnectionStatus_value (s : ConnectionStatus) : string :=
  match s with
  | CONNECTING => "CONNECTING"
  | CONNECTED => "CONNECTED"
  | DISCONNECTED => "DISCONNECTED"
  | FAILED => "FAILED"
  end.

(** [ConnectionStatus(value)]: the member with that value, or
    [ValueError]. *)
Definition ConnectionStatus_of_value (value : json) : result ConnectionStatus :=
  match value with
  | JStr s =>
      if String.eqb s "CONNECTING" then Ok CONNECTING
      else if String.eqb s "CONNECTED" then Ok CONNECTED
      else if String.eqb s "DISCONNECTED" then Ok DISCONNECTED
      else if String.eqb s "FAILED" then Ok FAILED
      else Raise (ValueError "not a valid ConnectionStatus")
  | _ => Raise (ValueError "not a valid ConnectionStatus")
  end.

Record Connection : Type := {
  id : string;
  master_device_id : string;
  client_device_id : string;
  status : ConnectionStatus;
  tls_certificate : option string;
  auth_token : option string;
  input_event_counter : Z;
  created_at : datetime;
  last_heartbeat : datetime
}.

(** [Connection.__post_init__] *)
Definition __post_init__ (self : Connection) : result unit :=
  check validate_uuid (master_device_id self)
    else ValueError "Invalid master device ID" ;;
  check validate_uuid (client_device_id self)
    else ValueError "Invalid client device ID" ;;
  check negb (String.eqb (master_device_id self) (client_device_id self))
    else ValueError "Master and client must be different devices" ;;
  Ok tt.

(** The dataclass constructor. *)
Definition new (fields : Connection) : result Connection :=
  _ <- __post_init__ fields ;; Ok fields.

Definition optional_str (o : option string) : json :=
  match o with
  | Some s => JStr s
  | None => JNull
  end.

(** [Connection.to_dict] *)
Definition to_dict `{PyLib} (self : Connection) : dict json :=
  [ ("id", JStr (id self));
    ("master_device_id", JStr (master_device_id self));
    ("client_device_id", JStr (client_device_id self));
    ("status", JStr (ConnectionStatus_value (status self)));
    ("tls_certificate", optional_str (tls_certificate self));
    ("auth_token", optional_str (auth_token self));
    ("input_event_counter", JInt (input_event_counter self));
    ("created_at", JStr (isoformat (created_at self)));
    ("last_heartbeat", JStr (isoformat (last_heartbeat self))) ].

(** [Connection.from_dict]; the record is typed by the annotations of the
    dataclass, as for [InputEvent]. *)
Definition from_dict `{PyLib} (data : dict json) : result Connection :=
  id_v <- input_event.getitem "id" data ;;
  id_ <- input_event.as_str id_v ;;
  master_v <- input_event.getitem "master_device_id" data ;;
  master_ <- input_event.as_str master_v ;;
  client_v <- input_event.getitem "client_device_id" data ;;
  client_ <- input_event.as_str client_v ;;
  status_v <- input_event.getitem "status" data ;;
  status_ <- ConnectionStatus_of_value status_v ;;
  tls_ <- device_dict.as_optional_str
            (device_dict.get_default "tls_certificate" JNull data) ;;
  token_ <- device_dict.as_optional_str
              (device_dict.get_default "auth_token" JNull data) ;;
  counter_ <- device_dict.as_int
                (device_dict.get_default "input_event_counter" (JInt 0) data) ;;
  created_v <- input_event.getitem "created_at" data ;;
  created_s <- input_event.as_str created_v ;;
  created_ <- fromisoformat created_s ;;
  beat_v <- input_event.getitem "last_heartbeat" data ;;
  beat_s <- input_event.as_str beat_v ;;
  beat_ <- fromisoformat beat_s ;;
  new {| id := id_; master_device_id := master_; client_device_id := client_;
         status := status_; tls_certificate := tls_; auth_token := token_;
         input_event_counter := counter_; created_at := created_;
         last_heartbeat := beat_ |}.

End connection_entity.

(* ===================================================================== *)
(** ** src/network/device_communicator.py: [InputEventReceiver] *)
(* ===================================================================== *)

Module input_event_receiver.

Import input_event.

(** A handler is seen through whether a call of it raises. *)
Definition handler := InputEvent -> option exn.

Record InputEventReceiver : Type := {
  event_handlers : list handler
}.

(** [InputEventReceiver.register_handler] *)
Definition register_handler (h : handler) (self : InputEventReceiver)
  : InputEventReceiver :=
  {| event_handlers := (event_handlers self ++ [h])%list |}.

(** Truthiness of a [str] and of a value. *)
Definition truthy_str (s : string) : bool := negb (String.eqb s EmptyString).

Definition truthy (v : json) : bool :=
  match v with
  | JNull => false
  | JBool b => b
  | JInt n => negb (n =? 0)
  | JStr s => truthy_str s
  | JList l => match l with [] => false | _ :: _ => true end
  | JDict d => match d with [] => false | _ :: _ => true end
  end.



End input_event_receiver.

(* ===================================================================== *)
(** ** An executable instance of the standard library *)
(* ===================================================================== *)

(** [reference.lib] makes the model run on concrete inputs: a JSON writer
    and reader for the values of [json], UTF-8 for the code points below
    256, and ISO 8601 for UTC instants. *)
Module reference.


Definition quote : ascii := "034".
Definition backslash : ascii := "092".

Definition hex_digit (n : N) : ascii :=
  if (n <? 10)%N then ascii_of_N (48 + n) else ascii_of_N (87 + n).

(** The escape of one character under [ensure_ascii]. *)
Definition escape (c : ascii) : string :=
  let n := N_of_ascii c in
  if Ascii.eqb c quote then String backslash (String quote "")
  else if Ascii.eqb c backslash then String backslash (String backslash "")
  else if Ascii.eqb c "010" then String backslash "n"
  else if Ascii.eqb c "013" then String backslash "r"
  else if Ascii.eqb c "009" then String backslash "t"
  else if Ascii.eqb c "008" then String backslash "b"
  else if Ascii.eqb c "012" then String backslash "f"
  else if ((n <? 32) || (126 <? n))%N
  then String backslash
         (String "u" (String "0" (String "0"
            (String (hex_digit (n / 16)) (String (hex_digit (n mod 16)) "")))))
  else String c "".

Fixpoint quoted_body (s : string) : string :=
  match s with
  | EmptyString => String quote ""
  | String c s' => escape c ++ quoted_body s'
  end.

Definition quoted (s : string) : string := String quote (quoted_body s).

Definition join (sep : string) (parts : list string) : string :=
  match parts with
  | [] => ""
  | p :: ps => fold_left (fun acc q => acc ++ sep ++ q) ps p
  end.

(** [json.dumps] with its default separators. *)
Fixpoint dumps (v : json) : string :=
  match v with
  | JNull => "null"
  | JBool true => "true"
  | JBool false => "false"
  | JInt n => NilZero.string_of_int (Z.to_int n)
  | JStr s => quoted s
  | JList l => "[" ++ join ", " (map dumps l) ++ "]"
  | JDict d =>
      "{" ++ join ", " (map (fun kv => match kv with
                                        | (k, x) => quoted k ++ ": " ++ dumps x
                                        end) d) ++ "}"
  end.

Definition is_ws (c : ascii) : bool :=
  (Ascii.eqb c " " || Ascii.eqb c "009" || Ascii.eqb c "010" || Ascii.eqb c "013")%bool.

Fixpoint skip_ws (s : string) : string :=
  match s with
  | String c s' => if is_ws c then skip_ws s' else s
  | EmptyString => s
  end.

Definition hex_value (c : ascii) : option N :=
  let n := N_of_ascii c in
  if ((48 <=? n) && (n <=? 57))%N then Some (n - 48)%N
  else if ((97 <=? n) && (n <=? 102))%N then Some (n - 87)%N
  else if ((65 <=? n) && (n <=? 70))%N then Some (n - 55)%N
  else None.

(** The characters of a string literal after its opening quote. *)
Fixpoint read_string (s : string) : option (string * string) :=
  match s with
  | EmptyString => None
  | String c s' =>
      if Ascii.eqb c quote then Some ("", s')
      else if Ascii.eqb c backslash then
        match s' with
        | String "u" (String "0" (String "0" (String h (String l s'')))) =>
            match hex_value h, hex_value l, read_string s'' with
            | Some a, Some b, Some (t, rest) =>
                Some (String (ascii_of_N (16 * a + b)) t, rest)
            | _, _, _ => None
            end
        | String e s'' =>
            let plain (x : ascii) :=
              match read_string s'' with
              | Some (t, rest) => Some (String x t, rest)
              | None => None
              end in
            if Ascii.eqb e "n" then plain "010"%char
            else if Ascii.eqb e "r" then plain "013"%char
            else if Ascii.eqb e "t" then plain "009"%char
            else if Ascii.eqb e "b" then plain "008"%char
            else if Ascii.eqb e "f" then plain "012"%char
            else if Ascii.eqb e quote then plain quote
            else if Ascii.eqb e backslash then plain backslash
            else if Ascii.eqb e "/" then plain "/"%char
            else None
        | EmptyString => None
        end
      else match read_string s' with
           | Some (t, rest) => Some (String c t, rest)
           | None => None
           end
  end.

Definition is_digit (c : ascii) : bool :=
  (Ascii.leb "0" c && Ascii.leb c "9")%bool.

Fixpoint span_digits (s : string) : string * string :=
  match s with
  | String c s' =>
      if is_digit c then let (d, r) := span_digits s' in (String c d, r)
      else ("", s)
  | EmptyString => ("", "")
  end.

Definition read_int (s : string) : option (Z * string) :=
  let (sign, body) := match s with
                      | String "-" s' => ("-", s')
                      | _ => ("", s)
                      end in
  let (ds, rest) := span_digits body in
  match ds with
  | EmptyString => None
  | _ => match NilZero.int_of_string (sign ++ ds) with
         | Some i => Some (Z.of_int i, rest)
         | None => None
         end
  end.

Definition expect (word : string) (v : json) (s : string) : option (json * string) :=
  if String.prefix word s
  then Some (v, String.substring (String.length word)
                                 (String.length s - String.length word) s)
  else None.

Fixpoint read_value (fuel : nat) (s : string) : option (json * string) :=
  match fuel with
  | O => None
  | S fuel' =>
      match skip_ws s with
      | EmptyString => None
      | String c rest as s1 =>
          if Ascii.eqb c "n" then expect "null" JNull s1
          else if Ascii.eqb c "t" then expect "true" (JBool true) s1
          else if Ascii.eqb c "f" then expect "false" (JBool false) s1
          else if Ascii.eqb c quote then
            match read_string rest with
            | Some (t, r) => Some (JStr t, r)
            | None => None
            end
          else if Ascii.eqb c "[" then
            match skip_ws rest with
            | String "]" r => Some (JList [], r)
            | r0 =>
                match read_elements fuel' r0 with
                | Some (l, r) => Some (JList l, r)
                | None => None
                end
            end
          else if Ascii.eqb c "{" then
            match skip_ws rest with
            | String "}" r => Some (JDict [], r)
            | r0 =>
                match read_members fuel' r0 with
                | Some (d, r) => Some (JDict d, r)
                | None => None
                end
            end
          else match read_int s1 with
               | Some (n, r) => Some (JInt n, r)
               | None => None
               end
      end
  end
with read_elements (fuel : nat) (s : string) : option (list json * string) :=
  match fuel with
  | O => None
  | S fuel' =>
      match read_value fuel' s with
      | Some (v, r) =>
          match skip_ws r with
          | String "," r' =>
              match read_elements fuel' r' with
              | Some (l, r'') => Some (v :: l, r'')
              | None => None
              end
          | String "]" r' => Some ([v], r')
          | _ => None
          end
      | None => None
      end
  end
with read_members (fuel : nat) (s : string)
  : option (list (string * json) * string) :=
  match fuel with
  | O => None
  | S fuel' =>
      match skip_ws s with
      | String c r0 =>
          if Ascii.eqb c quote then
            match read_string r0 with
            | Some (k, r1) =>
                match skip_ws r1 with
                | String ":" r2 =>
                    match read_value fuel' r2 with
                    | Some (v, r3) =>
                        match skip_ws r3 with
                        | String "," r4 =>
                            match read_members fuel' r4 with
                            | Some (d, r5) => Some ((k, v) :: d, r5)
                            | None => None
                            end
                        | String "}" r4 => Some ([(k, v)], r4)
                        | _ => None
                        end
                    | None => None
                    end
                | _ => None
                end
            | None => None
            end
          else None
      | EmptyString => None
      end
  end.

(** [json.loads] *)
Definition loads (s : string) : result json :=
  match read_value (S (String.length s)) s with
  | Some (v, rest) =>
      match skip_ws rest with
      | EmptyString => Ok v
      | _ => Raise JSONDecodeError
      end
  | None => Raise JSONDecodeError
  end.


(** [s.encode('utf-8')] *)
Fixpoint encode (s : string) : list byte :=
  match s with
  | EmptyString => []
  | String c s' =>
      let n := N_of_ascii c in
      if (n <? 128)%N then byte_of_ascii c :: encode s'
      else byte_of_ascii (ascii_of_N (192 + n / 64))
           :: byte_of_ascii (ascii_of_N (128 + n mod 64)) :: encode s'
  end.

(** [b.decode('utf-8')]; a code point above 255 is outside [str] and
    reported like an invalid sequence. *)
Fixpoint decode (bs : list byte) : result string :=
  match bs with
  | [] => Ok EmptyString
  | b :: bs' =>
      let n := Byte.to_N b in
      if (n <? 128)%N then
        match decode bs' with
        | Ok s => Ok (String (ascii_of_byte b) s)
        | Raise e => Raise e
        end
      else if ((n =? 194) || (n =? 195))%N then
        match bs' with
        | b2 :: bs'' =>
            let m := Byte.to_N b2 in
            if ((128 <=? m) && (m <? 192))%N then
              match decode bs'' with
              | Ok s => Ok (String (ascii_of_N ((n - 192) * 64 + (m - 128))) s)
              | Raise e => Raise e
              end
            else Raise UnicodeDecodeError
        | [] => Raise UnicodeDecodeError
        end
      else Raise UnicodeDecodeError
  end.

(** The proleptic Gregorian date of a day number (days since 1970-01-01). *)
Definition civil_from_days (z0 : Z) : Z * Z * Z :=
  let z := z0 + 719468 in
  let era := z / 146097 in
  let doe := z - era * 146097 in
  let yoe := (doe - doe / 1460 + doe / 36524 - doe / 146096) / 365 in
  let y := yoe + era * 400 in
  let doy := doe - (365 * yoe + yoe / 4 - yoe / 100) in
  let mp := (5 * doy + 2) / 153 in
  let d := doy - (153 * mp + 2) / 5 + 1 in
  let m := if mp <? 10 then mp + 3 else mp - 9 in
  (if m <=? 2 then y + 1 else y, m, d).

Definition days_from_civil (y0 m d : Z) : Z :=
  let y := if m <=? 2 then y0 - 1 else y0 in
  let era := y / 400 in
  let yoe := y - era * 400 in
  let doy := (153 * (if 2 <? m then m - 3 else m + 9) + 2) / 5 + d - 1 in
  let doe := yoe * 365 + yoe / 4 - yoe / 100 + doy in
  era * 146097 + doe - 719468.

Fixpoint zeros (n : nat) : string :=
  match n with
  | O => ""
  | S n' => String "0" (zeros n')
  end.

(** [n] in decimal, with zeros in front up to [width] digits. *)
Definition pad (width : nat) (n : Z) : string :=
  let ds := NilZero.string_of_int (Z.to_int n) in
  zeros (width - String.length ds) ++ ds.

(** [t.isoformat()] of an instant of UTC. *)
Definition iso (t : datetime) : string :=
  let days := t / 86400000000 in
  let us := t mod 86400000000 in
  let '(y, m, d) := civil_from_days days in
  let secs := us / 1000000 in
  let micro := us mod 1000000 in
  pad 4 y ++ "-" ++ pad 2 m ++ "-" ++ pad 2 d ++ "T"
  ++ pad 2 (secs / 3600) ++ ":" ++ pad 2 (secs / 60 mod 60) ++ ":"
  ++ pad 2 (secs mod 60)
  ++ (if micro =? 0 then "" else "." ++ pad 6 micro)
  ++ "+00:00".

Definition number (s : string) : option Z :=
  if forallb is_digit (list_ascii_of_string s)
  then match NilZero.int_of_string s with
       | Some i => Some (Z.of_int i)
       | None => None
       end
  else None.

(** [datetime.fromisoformat] on what [iso] writes. *)
Definition fromiso (s : string) : result datetime :=
  let field a n := number (String.substring a n s) in
  let literal a w := String.eqb (String.substring a (String.length w) s) w in
  let n := String.length s in
  let micro :=
    if (n =? 25)%nat then if literal 19%nat "+00:00" then Some 0 else None
    else if (n =? 32)%nat
         then if literal 19%nat "." && literal 26%nat "+00:00"
              then field 20%nat 6%nat else None
    else None in
  match field 0%nat 4%nat, field 5%nat 2%nat, field 8%nat 2%nat,
        field 11%nat 2%nat, field 14%nat 2%nat, field 17%nat 2%nat, micro with
  | Some y, Some m, Some d, Some hh, Some mm, Some ss, Some us =>
      if literal 4%nat "-" && literal 7%nat "-" && literal 10%nat "T"
         && literal 13%nat ":" && literal 16%nat ":"
         && (1 <=? m) && (m <=? 12) && (1 <=? d) && (d <=? 31)
         && (hh <? 24) && (mm <? 60) && (ss <? 60)
      then Ok (days_from_civil y m d * 86400000000
               + ((hh * 60 + mm) * 60 + ss) * 1000000 + us)
      else Raise (ValueError "Invalid isoformat string")
  | _, _, _, _, _, _, _ => Raise (ValueError "Invalid isoformat string")
  end.

#[export] Instance lib : PyLib := {
  json_dumps := dumps;
  json_loads := loads;
  str_encode := encode;
  bytes_decode := decode;
  isoformat := iso;
  fromisoformat := fromiso;
  (* where the timeout, in milliseconds, goes into a C int of 32 bits *)
  timeout_max := 2147483;
  (* where a wait is counted in milliseconds in 32 bits *)
  wait_max_ms := 4294967000
}.

End reference.

(* ===================================================================== *)
(** ** Sample values *)
(* ===================================================================== *)

Module samples.

Definition uuid_a : string := "123e4567-e89b-12d3-a456-426614174000".
Definition uuid_b : string := "9b2c1d3e-0f4a-4b6c-8d7e-1a2b3c4d5e6f".
Definition uuid_c : string := "0a1b2c3d-4e5f-4a6b-8c7d-9e0f1a2b3c4d".

(** 2024-01-15 10:30:00 UTC, in microseconds. *)
Definition t0 : datetime := 1705314600000000.

Definition master : device.Device :=
  {| device.id := uuid_a; device.mac_address := "AA:BB:CC:DD:EE:01";
     device.name := "LocalDevice"; device.os := device.WINDOWS;
     device.role := device.MASTER; device.ip_address := Some "192.168.1.100";
     device.port := 19999; device.version := "1.0.0";
     device.is_registered := false;
     device.created_at := t0; device.last_seen := t0 |}.

Definition client : device.Device :=
  {| device.id := uuid_b; device.mac_address := "AA:BB:CC:DD:EE:02";
     device.name := "RemoteDevice"; device.os := device.WINDOWS;
     device.role := device.CLIENT; device.ip_address := Some "192.168.1.101";
     device.port := 19999; device.version := "1.0.0";
     device.is_registered := true;
     device.created_at := t0; device.last_seen := t0 |}.

(** A device on the HTTP port. *)
Definition web_device : device.Device :=
  {| device.id := uuid_c; device.mac_address := "AA:BB:CC:DD:EE:03";
     device.name := "Kiosk"; device.os := device.MACOS;
     device.role := device.UNASSIGNED; device.ip_address := None;
     device.port := 80; device.version := "1.0.0";
     device.is_registered := false;
     device.created_at := t0; device.last_seen := t0 |}.

Definition key_event (event_id keycode : string) : input_event.InputEvent :=
  {| input_event.id := event_id;
     input_event.event_type := input_event.KEY_PRESS;
     input_event.source_device_id := uuid_a;
     input_event.target_device_id := uuid_b;
     input_event.payload :=
       JDict [("keycode", JStr keycode);
              ("modifiers", JList [JStr "ctrl"; JStr "shift"])];
     input_event.timestamp := t0;
     input_event.is_encrypted := true |}.

Definition move_event_without_y : input_event.InputEvent :=
  {| input_event.id := "e-move";
     input_event.event_type := input_event.MOUSE_MOVE;
     input_event.source_device_id := uuid_a;
     input_event.target_device_id := uuid_b;
     input_event.payload := JDict [("x", JInt 1024)];
     input_event.timestamp := t0;
     input_event.is_encrypted := true |}.

(** A mouse move whose payload is the text [xy], and a key press whose
    payload is the list [["keycode"]]. *)
Definition move_event_str_payload : input_event.InputEvent :=
  {| input_event.id := "fresh";
     input_event.event_type := input_event.MOUSE_MOVE;
     input_event.source_device_id := uuid_a;
     input_event.target_device_id := uuid_b;
     input_event.payload := JStr "xy";
     input_event.timestamp := t0;
     input_event.is_encrypted := true |}.

Definition key_event_list_payload : input_event.InputEvent :=
  {| input_event.id := "e-key";
     input_event.event_type := input_event.KEY_PRESS;
     input_event.source_device_id := uuid_a;
     input_event.target_device_id := uuid_b;
     input_event.payload := JList [JStr "keycode"];
     input_event.timestamp := t0;
     input_event.is_encrypted := true |}.

(** The dictionary of a mouse move with the text [xy] for a payload, as
    [json.loads] gives it for a message that says so. *)
Definition move_dict_str_payload : dict json :=
  [ ("event_type", JStr "MOUSE_MOVE");
    ("source_device_id", JStr uuid_a); ("target_device_id", JStr uuid_b);
    ("payload", JStr "xy");
    ("timestamp", JStr "2024-01-15T10:30:00+00:00") ].

Definition idle_socket : connection.socket :=
  {| connection.rx := []; connection.tx := [];
     connection.tx_script := []; connection.timeout := None |}.

(** A handler over a socket on which [evs] will arrive. *)
Definition handler_receiving (evs : list connection.rx_event)
  : connection.ConnectionHandler :=
  {| connection.port := 19999; connection.certfile := "cert.pem";
     connection.keyfile := "key.pem";
     connection.socket_ :=
       Some (connection.with_rx evs idle_socket) |}.

Definition hello_data : json :=
  JDict [("device_id", JStr "client1");
         ("nested", JDict [("list", JList [JInt 1; JInt (-2);
                                            JDict [("k", JNull)]]);
                           ("flag", JBool true)])].




(** A length prefix of 2 MiB. *)
Definition prefix_2MiB : list byte := [x00; x20; x00; x00].

(** A handler whose socket is connected and takes every write. *)
Definition connected_handler : connection.ConnectionHandler :=
  handler_receiving [].

Definition relay_config : input_relay.RelayConfig :=
  {| input_relay.max_queue_size := 100; input_relay.max_retries := 3;
     input_relay.retry_delay_ms := 10; input_relay.enable_encryption := true;
     input_relay.batch_size := 2; input_relay.batch_timeout_ms := 50;
     input_relay.log_events := true; input_relay.enable_metrics := true |}.

Definition three_events : list input_event.InputEvent :=
  [key_event "e1" "A"; key_event "e2" "B"; key_event "e3" "C"].

(** A recorder with no call yet, which raises nothing. *)
Definition recorder : input_relay.Recorder :=
  {| input_relay.calls := []; input_relay.side_effect := [] |}.

(** A clock that advances by a millisecond at every reading. *)
Definition world0 : World :=
  {| clock := fun k => t0 + 1000 * Z.of_nat k; reads := 0 |}.

(** A relay that is not started, and a started relay with room for two
    events. *)
Definition idle_relay : input_relay.InputRelay input_relay.Recorder :=
  input_relay.__init__ master client (Some recorder) (Some relay_config).

Definition small_relay : input_relay.InputRelay input_relay.Recorder :=
  snd (input_relay.start
         (input_relay.__init__ master client (Some recorder)
            (Some {| input_relay.max_queue_size := 2;
                     input_relay.max_retries := 3;
                     input_relay.retry_delay_ms := 10;
                     input_relay.enable_encryption := true;
                     input_relay.batch_size := 10;
                     input_relay.batch_timeout_ms := 50;
                     input_relay.log_events := true;
                     input_relay.enable_metrics := true |}))).

(** What [send_message("HELLO", hello_data)] writes, and the handler of a
    peer at which these bytes arrive in three pieces. *)
Definition hello_message : json :=
  connection.build_message (H := reference.lib) (JStr "HELLO") hello_data t0.

Definition hello_frame : list byte :=
  match connection.socket_
          (snd (fst (connection.send_message (H := reference.lib)
                       (JStr "HELLO") hello_data connected_handler world0)))
  with
  | Some sock => connection.tx sock
  | None => []
  end.

Definition hello_chunks : list (list byte) :=
  [firstn 3 hello_frame; firstn 10 (skipn 3 hello_frame);
   skipn 13 hello_frame].

Definition hello_receiver : connection.ConnectionHandler :=
  handler_receiving (map connection.Data hello_chunks).

(** A handler at which a length prefix of 2 MiB arrives, followed by the
    frame of the HELLO message. *)
Definition oversized_receiver : connection.ConnectionHandler :=
  handler_receiving [connection.Data (prefix_2MiB ++ hello_frame)%list].



(** A clock that advances by 25 seconds at every reading. *)
Definition slow_world : World :=
  {| clock := fun k => t0 + 25000000 * Z.of_nat k; reads := 0 |}.

(** The advertisement of [client] on mDNS. *)
Definition client_info : discovery.ServiceInfo :=
  {| discovery.properties := [("device_id", uuid_b); ("os", "Windows");
                              ("version", "1.0.0"); ("role", "CLIENT")];
     discovery.parsed_addresses := ["192.168.1.101"];
     discovery.info_port := 19999 |}.

Definition silent_listener : discovery.listener := fun _ _ => None.

(** The thread of the application, and the thread that [start] makes for
    the sweep. *)
Definition main_thread : thread := 0%nat.
Definition sweep_thread : thread := 1%nat.

(** The database of [master], opened in the thread of the application. *)
Definition devices_db : repositories.Database :=
  repositories.connect main_thread [master].

(** A discovery service of [master] over that database, with one listener,
    that is told of the advertisement of [client] and started, all in the
    thread of the application. *)
Definition discovering : list discovery.action :=
  [discovery.AddListener silent_listener;
   discovery.StateChange main_thread "RemoteDevice._kms._tcp.local."
                         discovery.Added (Some client_info);
   discovery.Start main_thread sweep_thread].

Definition fresh_service : discovery.DiscoveryService :=
  discovery.__init__ master devices_db.

(** That service after [n] turns of the sweep, 50, 75, 100, ... seconds
    after the advertisement, during which nothing else is heard. *)
Definition silent_run (n : nat)
  : discovery.DiscoveryService * list discovery.call * World :=
  discovery.run (discovering ++ repeat discovery.Sweep n)%list
                fresh_service slow_world.

(** The service as it would stand were the sweep to run in the thread
    that opened the connection. *)
Definition discovering_in_one_thread : discovery.DiscoveryService :=
  discovery.with_offline_thread (Some main_thread) (fst (fst (silent_run 0))).

(** The device that [discovering] holds for [client]. *)
Definition discovered_client : device.Device :=
  {| device.id := uuid_b; device.mac_address := "";
     device.name := "RemoteDevice"; device.os := device.WINDOWS;
     device.role := device.CLIENT; device.ip_address := Some "192.168.1.101";
     device.port := 19999; device.version := "1.0.0";
     device.is_registered := true;
     device.created_at := t0 + 25000000; device.last_seen := t0 |}.

(** A dictionary for a device, with the optional keys left out, and the
    device it describes. *)
Definition sparse_device_dict : dict json :=
  [ ("id", JStr uuid_c); ("mac_address", JStr ""); ("name", JStr "Kiosk");
    ("os", JStr "Darwin"); ("role", JStr "CLIENT");
    ("created_at", JStr "2024-01-15T10:30:00+00:00");
    ("last_seen", JStr "2024-01-15T10:30:00+00:00") ].

Definition sparse_device : device.Device :=
  {| device.id := uuid_c; device.mac_address := "";
     device.name := "Kiosk"; device.os := device.MACOS;
     device.role := device.CLIENT; device.ip_address := None;
     device.port := 19999; device.version := "1.0.0";
     device.is_registered := false;
     device.created_at := t0; device.last_seen := t0 |}.

(** A dictionary for a key press, without [id] and [is_encrypted]. *)
Definition bare_event_dict : dict json :=
  [ ("event_type", JStr "KEY_PRESS");
    ("source_device_id", JStr uuid_a); ("target_device_id", JStr uuid_b);
    ("payload", JDict [("keycode", JStr "A");
                       ("modifiers", JList [JStr "ctrl"; JStr "shift"])]);
    ("timestamp", JStr "2024-01-15T10:30:00+00:00") ].

(** Two HELLO frames one after the other, in pieces of which the second
    ends the first frame and begins the next. *)
Definition two_hellos_chunks : list (list byte) :=
  [firstn 20 hello_frame;
   (skipn 20 hello_frame ++ firstn 7 hello_frame)%list;
   skipn 7 hello_frame].

Definition two_hellos_receiver : connection.ConnectionHandler :=
  handler_receiving (map connection.Data two_hellos_chunks).

(** A HELLO frame of which 20 bytes arrive before a timeout and the rest
    after it. *)
Definition halved_hello_receiver : connection.ConnectionHandler :=
  handler_receiving
    [connection.Data (firstn 20 hello_frame); connection.TimedOut;
     connection.Data (skipn 20 hello_frame)].

(** A started relay over the recorder, with batches of two. *)
Definition running_relay : input_relay.InputRelay input_relay.Recorder :=
  snd (input_relay.start
         (input_relay.__init__ master client (Some recorder)
            (Some relay_config))).

(** That relay with three events queued, after one turn of its loop: one
    event waits in the batch and two in the queue. *)
Definition relay_mid_batch : input_relay.InputRelay input_relay.Recorder :=
  fst (input_relay._relay_loop_iteration (H := reference.lib)
         (H0 := input_relay.Recorder_Connection)
         (snd (input_relay.queue_events three_events running_relay)) world0).



(** A started relay whose queue has no bound. *)
Definition unbounded_relay : input_relay.InputRelay input_relay.Recorder :=
  snd (input_relay.start
         (input_relay.__init__ master client (Some recorder)
            (Some {| input_relay.max_queue_size := 0;
                     input_relay.max_retries := 3;
                     input_relay.retry_delay_ms := 10;
                     input_relay.enable_encryption := true;
                     input_relay.batch_size := 10;
                     input_relay.batch_timeout_ms := 50;
                     input_relay.log_events := true;
                     input_relay.enable_metrics := true |}))).

(** A callback that raises at every event, and the relay with a pending
    batch of two events that has it for [on_event_forwarded]. *)
Definition raising_callback : input_relay.callback :=
  fun _ => Some (RuntimeError "callback").

Definition relay_with_raising_callback
  : input_relay.InputRelay input_relay.Recorder :=
  input_relay.set_on_event_forwarded (Some raising_callback)
    (input_relay.with_batch [key_event "e1" "A"; key_event "e2" "B"]
       running_relay).


(** The advertisement of a third device, which has no row. *)
Definition kiosk_info : discovery.ServiceInfo :=
  {| discovery.properties := [("device_id", uuid_c); ("os", "Darwin");
                              ("version", "1.0.0"); ("role", "CLIENT")];
     discovery.parsed_addresses := ["192.168.1.102"];
     discovery.info_port := 19999 |}.

(** A connection of [master] and [client], and one of [master] with
    itself, its id written a second time in upper case. *)
Definition link : connection_entity.Connection :=
  {| connection_entity.id := uuid_c;
     connection_entity.master_device_id := uuid_a;
     connection_entity.client_device_id := uuid_b;
     connection_entity.status := connection_entity.CONNECTED;
     connection_entity.tls_certificate := None;
     connection_entity.auth_token := Some "token";
     connection_entity.input_event_counter := 7;
     connection_entity.created_at := t0;
     connection_entity.last_heartbeat := t0 + 1000000 |}.

Definition self_link : connection_entity.Connection :=
  {| connection_entity.id := uuid_c;
     connection_entity.master_device_id := uuid_a;
     connection_entity.client_device_id := discovery.upper uuid_a;
     connection_entity.status := connection_entity.CONNECTING;
     connection_entity.tls_certificate := None;
     connection_entity.auth_token := None;
     connection_entity.input_event_counter := 0;
     connection_entity.created_at := t0;
     connection_entity.last_heartbeat := t0 |}.

(** The run of [discovering] with the advertisement handled in the thread
    of the browser, followed by four turns of the sweep. *)
Definition browser_thread : thread := 2%nat.

Definition discovering_from_browser : list discovery.action :=
  ([discovery.AddListener silent_listener;
    discovery.Start main_thread sweep_thread;
    discovery.StateChange browser_thread "RemoteDevice._kms._tcp.local."
                          discovery.Added (Some client_info)]
   ++ repeat discovery.Sweep 4)%list.

End samples.

(* ===================================================================== *)
(** * Properties *)
(* ===================================================================== *)

Local Open Scope list_scope.

(* --------------------------------------------------------------------- *)
(** ** Validators on sample inputs *)
(* --------------------------------------------------------------------- *)

Example validate_uuid_ok :
  validators.validate_uuid "123e4567-e89b-12d3-a456-426614174000" = true.
Proof. reflexivity. Qed.

Example validate_mac_ok :
  validators.validate_mac_address "AA:BB:CC:DD:EE:FF" = true
  /\ validators.validate_mac_address "AA:BB:CC:DD:EE" = false
  /\ validators.validate_ip_address "192.168.1.100" = true
  /\ validators.validate_ip_address "192.168.1.256" = false
  /\ validators.validate_ip_address "fe80::1" = true
  /\ validators.validate_device_name "Jerry's Mac-Book 2" 50 = true.
Proof. repeat split; vm_compute; reflexivity. Qed.

(* --------------------------------------------------------------------- *)
(** ** Input relay: the bounded queue *)
(* --------------------------------------------------------------------- *)

Section RelayQueue.

Import input_event input_relay.

Context {C : Type}.

Abbreviation Relay := (InputRelay C).

(** Successive calls compose. *)
Lemma queue_events_app (es1 es2 : list InputEvent) (r : Relay) :
  queue_events (es1 ++ es2) r =
  (fst (queue_events es1 r) ++ fst (queue_events es2 (snd (queue_events es1 r))),
   snd (queue_events es2 (snd (queue_events es1 r)))).
Proof.
  revert r. induction es1 as [|e es1 IH]; intros r; simpl.
  - destruct (queue_events es2 r); reflexivity.
  - destruct (queue_event e r) as [ok r1]. rewrite IH.
    destruct (queue_events es1 r1) as [oks r2]. simpl.
    reflexivity.
Qed.

(** While there is room, every call is accepted and counted as received. *)
Lemma queue_events_room (es : list InputEvent) (r : Relay) :
  is_running r = true ->
  Z.of_nat (List.length (event_queue r) + List.length es) <= max_queue_size (config r) ->
  fst (queue_events es r) = repeat true (List.length es)
  /\ event_queue (snd (queue_events es r)) = event_queue r ++ es
  /\ events_received (metrics (snd (queue_events es r)))
     = events_received (metrics r) + Z.of_nat (List.length es)
  /\ events_failed (metrics (snd (queue_events es r))) = events_failed (metrics r)
  /\ is_running (snd (queue_events es r)) = true
  /\ config (snd (queue_events es r)) = config r.
Proof.
  revert r. induction es as [|e es IH]; intros r Hrun Hroom; simpl.
  - rewrite app_nil_r. repeat split; auto; lia.
  - unfold queue_event. rewrite Hrun. simpl negb. cbv iota.
    unfold put_nowait.
    replace (max_queue_size (config r) <=? Z.of_nat (List.length (event_queue r)))
      with false by (symmetry; apply Z.leb_gt; cbn [List.length] in Hroom; lia).
    rewrite andb_false_r.
    set (r1 := with_metrics _ _).
    specialize (IH r1).
    destruct (queue_events es r1) as [oks r2] eqn:E. simpl in *.
    destruct IH as (H1 & H2 & H3 & H4 & H5 & H6).
    + exact Hrun.
    + rewrite List.length_app. simpl. lia.
    + rewrite H1, H2, H3, H4, H5, H6. rewrite <- app_assoc. simpl.
      repeat split; auto; lia.
Qed.

(** Once the queue is full, every call is refused and counted as failed. *)
Lemma queue_events_full (es : list InputEvent) (r : Relay) :
  is_running r = true ->
  0 < max_queue_size (config r) ->
  max_queue_size (config r) <= Z.of_nat (List.length (event_queue r)) ->
  fst (queue_events es r) = repeat false (List.length es)
  /\ event_queue (snd (queue_events es r)) = event_queue r
  /\ events_received (metrics (snd (queue_events es r)))
     = events_received (metrics r)
  /\ events_failed (metrics (snd (queue_events es r)))
     = events_failed (metrics r) + Z.of_nat (List.length es).
Proof.
  revert r. induction es as [|e es IH]; intros r Hrun Hpos Hfull; simpl.
  - repeat split; auto; lia.
  - unfold queue_event. rewrite Hrun. simpl negb. cbv iota.
    unfold put_nowait.
    replace (0 <? max_queue_size (config r)) with true
      by (symmetry; apply Z.ltb_lt; lia).
    replace (max_queue_size (config r) <=? Z.of_nat (List.length (event_queue r)))
      with true by (symmetry; apply Z.leb_le; lia).
    simpl andb. cbv iota.
    set (r1 := with_metrics _ _).
    specialize (IH r1).
    destruct (queue_events es r1) as [oks r2] eqn:E. simpl in *.
    destruct IH as (H1 & H2 & H3 & H4); auto.
    rewrite H1, H2, H3, H4. repeat split; auto; lia.
Qed.

(** C5. A running relay whose queue has capacity [capacity] and is empty
    takes [capacity + M] calls of [queue_event] with no turn of the relay
    loop in between: the first [capacity] calls return true, the last [M]
    return false, the queue holds the accepted events in order, and
    [events_failed] has grown by exactly [M] (it is [M] on a relay whose
    counter was 0).  Every call returns: a refusal is counted, never
    silent. *)
Theorem queue_event_backpressure
    (r : Relay) (events : list InputEvent) (capacity M : nat) :
  is_running r = true ->
  event_queue r = [] ->
  max_queue_size (config r) = Z.of_nat capacity ->
  (0 < capacity)%nat ->
  List.length events = (capacity + M)%nat ->
  fst (queue_events events r) = repeat true capacity ++ repeat false M
  /\ event_queue (snd (queue_events events r)) = firstn capacity events
  /\ events_failed (metrics (snd (queue_events events r)))
     = events_failed (metrics r) + Z.of_nat M
  /\ events_received (metrics (snd (queue_events events r)))
     = events_received (metrics r) + Z.of_nat capacity.
Proof.
  intros Hrun Hq Hcap Hpos Hlen.
  remember (queue_events events r) as res eqn:Hres.
  rewrite <- (firstn_skipn capacity events) in Hres.
  rewrite queue_events_app in Hres. subst res.
  assert (L1 : List.length (firstn capacity events) = capacity)
    by (rewrite length_firstn; lia).
  assert (L2 : List.length (skipn capacity events) = M)
    by (rewrite length_skipn; lia).
  cbn [fst snd].
  destruct (queue_events_room (firstn capacity events) r Hrun)
    as (A1 & A2 & A3 & A4 & A5 & A6).
  { rewrite Hq, L1, Hcap. simpl. lia. }
  destruct (queue_events_full (skipn capacity events)
              (snd (queue_events (firstn capacity events) r)))
    as (B1 & B2 & B3 & B4).
  { exact A5. }
  { rewrite A6, Hcap. lia. }
  { rewrite A6, A2, Hq, Hcap. simpl. rewrite L1. lia. }
  rewrite A1, B1, B2, B3, B4, A2, A3, A4, Hq, L1, L2. simpl.
  repeat split; auto.
Qed.

(** C10. [queue_event] on a relay that is not running returns false and
    gives back the relay as it was: queue, batch buffer, every counter of
    the metrics and all other fields. *)
Theorem queue_event_not_running (r : Relay) (event : InputEvent) :
  is_running r = false ->
  queue_event event r = (false, r).
Proof.
  intros Hrun. unfold queue_event. rewrite Hrun. reflexivity.
Qed.

End RelayQueue.

(* --------------------------------------------------------------------- *)
(** ** InputEvent: validation at construction, dictionary round trip *)
(* --------------------------------------------------------------------- *)

Section InputEventProps.

Import validators input_event.

Lemma new_inv (fields e : InputEvent) :
  new fields = Ok e -> e = fields /\ __post_init__ fields = Ok tt.
Proof.
  unfold new. destruct (__post_init__ fields) as [[]|err] eqn:E; simpl;
    intros Heq; inversion Heq; auto.
Qed.

(** On a payload that is a [dict], what [_validate_payload] accepts is
    what the schema asks for. *)
Lemma _validate_payload_schema (self : InputEvent) (d : dict json) :
  payload self = JDict d ->
  _validate_payload self = Ok tt
  <-> payload_matches_schema (event_type self) (payload self) = true.
Proof.
  intros Hp. unfold _validate_payload, payload_matches_schema. rewrite Hp.
  destruct (event_type self); simpl;
    repeat match goal with
           | |- context [contains ?k ?p] => destruct (contains k p)
           end; simpl; split; intros Hx; try reflexivity; discriminate.
Qed.

Lemma _validate_payload_raises (self : InputEvent) (d : dict json) :
  payload self = JDict d ->
  payload_matches_schema (event_type self) (payload self) = false ->
  exists msg, _validate_payload self = Raise (ValueError msg).
Proof.
  intros Hp. unfold _validate_payload, payload_matches_schema. rewrite Hp.
  destruct (event_type self); simpl;
    repeat match goal with
           | |- context [contains ?k ?p] => destruct (contains k p)
           end; simpl; intros Hx; try discriminate; eexists; reflexivity.
Qed.

(** A payload with the keys of the kind is accepted, whatever else it
    holds. *)
Lemma _validate_payload_complete (self : InputEvent) :
  payload_matches_schema (event_type self) (payload self) = true ->
  _validate_payload self = Ok tt.
Proof.
  intros Hm. destruct (payload self) as [| | | | |d] eqn:Hp;
    try (cbn [payload_matches_schema] in Hm; discriminate).
  apply (_validate_payload_schema self Hp). rewrite Hp. exact Hm.
Qed.

(** The check at construction, for a payload that is a [dict]: one that
    lacks a key of the schema of its kind makes the constructor raise
    [ValueError], and a constructed event has the keys of its kind. *)
Lemma dict_payload_checked_at_construction
    (fields : InputEvent) (d : dict json) :
  payload fields = JDict d ->
  (payload_matches_schema (event_type fields) (payload fields) = false ->
   exists msg, new fields = Raise (ValueError msg))
  /\ (forall e, new fields = Ok e ->
       e = fields
       /\ payload_matches_schema (event_type e) (payload e) = true).
Proof.
  intros Hp. split.
  - intros Hbad. unfold new, __post_init__.
    destruct (validate_uuid (source_device_id fields)); simpl;
      [|eexists; reflexivity].
    destruct (validate_uuid (target_device_id fields)); simpl;
      [|eexists; reflexivity].
    destruct (_validate_payload_raises fields Hp Hbad) as [msg Hmsg].
    rewrite Hmsg. simpl. eexists; reflexivity.
  - intros e Hnew. pose proof Hnew as Hinv; apply new_inv in Hinv;
      destruct Hinv as [-> Hpost]. split; [reflexivity|].
    apply (_validate_payload_schema fields Hp).
    unfold __post_init__ in Hpost.
    destruct (validate_uuid (source_device_id fields)); [|discriminate].
    destruct (validate_uuid (target_device_id fields)); [|discriminate].
    exact Hpost.
Qed.


(** C9. The constructor does not reject every payload that misses the
    schema of its kind.  The check is [key in payload], which on a [str]
    asks for a part and on a [list] for an element: the mouse move with the
    text [xy] for a payload and the key press with the list [["keycode"]]
    are constructed, by [InputEvent] and by [from_dict] from a dictionary
    that holds these payloads, though neither payload has a key at all. *)
Theorem InputEvent_payload_without_keys_constructed :
  new samples.move_event_str_payload = Ok samples.move_event_str_payload
  /\ payload_matches_schema
       (event_type samples.move_event_str_payload)
       (payload samples.move_event_str_payload) = false
  /\ new samples.key_event_list_payload = Ok samples.key_event_list_payload
  /\ payload_matches_schema
       (event_type samples.key_event_list_payload)
       (payload samples.key_event_list_payload) = false
  /\ from_dict (H := reference.lib) "fresh" samples.move_dict_str_payload
     = Ok samples.move_event_str_payload.
Proof. repeat split; vm_compute; reflexivity. Qed.

Lemma InputEventType_value_roundtrip (t : InputEventType) :
  InputEventType_of_value (JStr (InputEventType_value t)) = Ok t.
Proof. destruct t; reflexivity. Qed.

Context `{PyLib}.

(** C6. For an event of any kind that the constructor accepted,
    [from_dict (to_dict e)] is the event itself: same id, kind, source and
    target device ids, payload, timestamp and encryption flag.  The
    standard library is asked for one thing: that [fromisoformat] reads
    back what [isoformat] wrote for this timestamp. *)
Theorem InputEvent_dict_roundtrip (fields e : InputEvent) (fresh_uuid : string) :
  new fields = Ok e ->
  fromisoformat (isoformat (timestamp e)) = Ok (timestamp e) ->
  from_dict fresh_uuid (to_dict e) = Ok e.
Proof.
  intros Hnew Hiso. pose proof Hnew as Hinv; apply new_inv in Hinv; destruct Hinv as [-> Hpost].
  unfold from_dict, to_dict. cbn [get String.eqb Ascii.eqb Bool.eqb getitem
    as_str as_bool py.bind].
  rewrite InputEventType_value_roundtrip. cbn [py.bind].
  rewrite Hiso. cbn [py.bind].
  destruct fields; exact Hnew.
Qed.

End InputEventProps.

(* --------------------------------------------------------------------- *)
(** ** Device: what the constructor checks *)
(* --------------------------------------------------------------------- *)

Section DeviceProps.

Import validators device.

(** What every constructed [Device] satisfies: a hardware address that is
    empty or matches the pattern of [validate_mac_address], a port from 1
    to 65535, a name of 1 to 50 characters. *)
Lemma Device_new_checks (fields d : Device) :
  device.new fields = Ok d ->
  d = fields
  /\ (mac_address d = EmptyString \/ validate_mac_address (mac_address d) = true)
  /\ 1 <= port d <= 65535
  /\ (1 <= String.length (name d) <= 50)%nat.
Proof.
  unfold device.new, device.__post_init__. intros Hnew.
  destruct (validate_uuid (id fields)); [|discriminate].
  destruct (negb (negb (String.eqb (mac_address fields) EmptyString)
                  && negb (validate_mac_address (mac_address fields))))
    eqn:Emac; [|discriminate].
  destruct (validate_device_name (name fields) 50) eqn:Ename; [|discriminate].
  destruct (validate_port (port fields)) eqn:Eport; [|discriminate].
  destruct (negb _) in Hnew; [|discriminate].
  destruct (validate_os_type _) in Hnew; [|discriminate].
  simpl in Hnew. injection Hnew as <-.
  split; [reflexivity|]. split; [|split].
  - destruct (String.eqb (mac_address fields) EmptyString) eqn:E.
    + left. apply String.eqb_eq. exact E.
    + right. destruct (validate_mac_address (mac_address fields));
        [reflexivity|discriminate].
  - unfold validate_port in Eport. apply andb_prop in Eport.
    destruct Eport as [E1 E2]. apply Z.leb_le in E1. apply Z.leb_le in E2. lia.
  - unfold validate_device_name in Ename.
    destruct (String.eqb (name fields) EmptyString) eqn:Eempty; [discriminate|].
    destruct (Z.of_nat (String.length (name fields)) >? 50) eqn:Elen;
      [discriminate|].
    rewrite Z.gtb_ltb in Elen. apply Z.ltb_ge in Elen.
    destruct (name fields); [discriminate|]. simpl in *. lia.
Qed.

(** C2 (the port).  The constructor accepts a [Device] on port 80, below
    the range 1024..65535 of the class docstring; the [devices] table,
    which has that range as a CHECK, refuses the same device. *)
Theorem Device_port_80_accepted :
  device.new samples.web_device = Ok samples.web_device
  /\ port samples.web_device = 80
  /\ fst (repositories.create samples.main_thread samples.web_device
                              (repositories.connect samples.main_thread []))
     = Raise IntegrityError.
Proof. vm_compute. repeat split; reflexivity. Qed.

End DeviceProps.

Example reference_iso :
  reference.iso samples.t0 = "2024-01-15T10:30:00+00:00"
  /\ reference.fromiso "2024-01-15T10:30:00+00:00" = Ok samples.t0
  /\ reference.fromiso (reference.iso (samples.t0 + 250))
     = Ok (samples.t0 + 250).
Proof. vm_compute. repeat split; reflexivity. Qed.

(* --------------------------------------------------------------------- *)
(** ** Connection handler: framing *)
(* --------------------------------------------------------------------- *)

Section Framing.

Import connection.

Lemma with_rx_same (s : socket) : with_rx (rx s) s = s.
Proof. destruct s; reflexivity. Qed.

Lemma Z_of_byte_of_Z (z : Z) : Z_of_byte (byte_of_Z z) = z mod 256.
Proof.
  unfold Z_of_byte, byte_of_Z.
  destruct (Byte.of_N (Z.to_N (z mod 256))) as [b|] eqn:E.
  - apply Byte.to_of_N in E. rewrite E.
    apply Z2N.id. apply Z.mod_pos_bound. lia.
  - apply Byte.of_N_None_iff in E.
    assert (0 <= z mod 256 < 256) by (apply Z.mod_pos_bound; lia).
    assert (Z.to_N (z mod 256) < 256)%N by lia. lia.
Qed.

(** The length prefix reads back as the length. *)
Lemma to_bytes4_from_bytes (n : Z) :
  0 <= n < 2 ^ 32 ->
  exists b0 b1 b2 b3,
    to_bytes4 n = Ok [b0; b1; b2; b3] /\ from_bytes [b0; b1; b2; b3] = n.
Proof.
  intros Hn. unfold to_bytes4.
  replace ((0 <=? n) && (n <? 2 ^ 32))%bool with true
    by (symmetry; apply andb_true_intro; split;
        [apply Z.leb_le | apply Z.ltb_lt]; lia).
  do 4 eexists. split; [reflexivity|].
  unfold from_bytes. cbn [fold_left].
  rewrite !Z_of_byte_of_Z, !Z.shiftr_div_pow2 by lia.
  change (2 ^ 24) with 16777216. change (2 ^ 16) with 65536.
  change (2 ^ 8) with 256. change (2 ^ 32) with 4294967296 in Hn.
  Z.to_euclidean_division_equations. lia.
Qed.

Lemma to_bytes4_overflow (n : Z) :
  2 ^ 32 <= n -> to_bytes4 n = Raise OverflowError.
Proof.
  intros Hn. unfold to_bytes4.
  replace (n <? 2 ^ 32) with false by (symmetry; apply Z.ltb_ge; lia).
  rewrite andb_false_r. reflexivity.
Qed.

(** The read loop on a stream whose next events are the data chunks [cs]:
    it returns the [want - length buf] bytes it still needed and leaves the
    following bytes in the stream, however the bytes are cut into chunks. *)
Lemma recv_loop_chunks (fuel want : nat) :
  forall (buf : list byte) (s : socket) (cs : list (list byte))
         (rest : list rx_event),
    rx s = map Data cs ++ rest ->
    Forall (fun c => c <> []) cs ->
    (want - List.length buf <= fuel)%nat ->
    (want - List.length buf <= List.length (List.concat cs))%nat ->
    exists cs',
      recv_loop fuel want buf s
      = (Ok (Some (buf ++ firstn (want - List.length buf) (List.concat cs))),
         with_rx (map Data cs' ++ rest) s)
      /\ Forall (fun c => c <> []) cs'
      /\ List.concat cs' = skipn (want - List.length buf) (List.concat cs).
Proof.
  induction fuel as [|fuel IH]; intros buf s cs rest Hrx Hne Hfuel Hlen.
  - exists cs. assert (Hz : (want - List.length buf = 0)%nat) by lia.
    rewrite Hz. simpl. rewrite app_nil_r.
    replace (want <=? List.length buf)%nat with true
      by (symmetry; apply Nat.leb_le; lia).
    rewrite <- Hrx, with_rx_same. auto.
  - cbn [recv_loop].
    destruct (want <=? List.length buf)%nat eqn:Edone.
    + apply Nat.leb_le in Edone.
      exists cs. assert (Hz : (want - List.length buf = 0)%nat) by lia.
      rewrite Hz. simpl. rewrite app_nil_r.
      rewrite <- Hrx, with_rx_same. auto.
    + apply Nat.leb_gt in Edone.
      set (need := (want - List.length buf)%nat) in *.
      assert (Hneed : (0 < need)%nat) by (unfold need; lia).
      destruct cs as [|c cs0]; [simpl in Hlen; lia|].
      inversion Hne as [|? ? Hc Hne0]; subst.
      destruct c as [|x c']; [congruence|].
      unfold recv. rewrite Hrx. cbn [map app].
      destruct need as [|k] eqn:Eneed; [lia|].
      cbn [firstn skipn].
      set (s1 := with_rx _ s).
      assert (Hbuf : (want - List.length (buf ++ x :: firstn k c') =
                      k - List.length (firstn k c'))%nat).
      { rewrite List.length_app. cbn [List.length]. unfold need in Eneed. lia. }
      destruct (skipn k c') as [|y later] eqn:Elater.
      * (* the chunk is used up *)
        assert (Hk : (List.length c' <= k)%nat).
        { destruct (Nat.le_gt_cases (List.length c') k) as [L|L]; [exact L|].
          assert (List.length (skipn k c') = (List.length c' - k)%nat)
            by apply length_skipn.
          rewrite Elater in *. simpl in *. lia. }
        destruct (IH (buf ++ x :: firstn k c') s1 cs0 rest) as (cs' & E & F & G).
        { reflexivity. }
        { exact Hne0. }
        { rewrite Hbuf. lia. }
        { rewrite Hbuf. simpl in Hlen. rewrite List.length_app in Hlen.
          rewrite firstn_all2 by exact Hk. lia. }
        exists cs'. rewrite E, G, Hbuf.
        rewrite (firstn_all2 c') by exact Hk.
        cbn [List.concat app].
        rewrite firstn_app, skipn_app.
        rewrite (firstn_all2 c'), (skipn_all2 c') by exact Hk.
        rewrite <- app_assoc. cbn [app].
        repeat split; try reflexivity; assumption.
      * (* a part of the chunk stays in the stream *)
        assert (Hk : (k < List.length c')%nat).
        { destruct (Nat.le_gt_cases (List.length c') k) as [L|L]; [|exact L].
          rewrite skipn_all2 in Elater by exact L. discriminate. }
        assert (Hf : List.length (firstn k c') = k)
          by (rewrite length_firstn; lia).
        destruct (IH (buf ++ x :: firstn k c') s1 ((y :: later) :: cs0) rest)
          as (cs' & E & F & G).
        { reflexivity. }
        { constructor; [discriminate|exact Hne0]. }
        { rewrite Hbuf, Hf. lia. }
        { rewrite Hbuf, Hf. lia. }
        exists cs'. rewrite E, G, Hbuf, Hf, Nat.sub_diag.
        cbn [List.concat app firstn skipn].
        rewrite firstn_app, skipn_app.
        replace (k - List.length c')%nat with 0%nat by lia.
        cbn [firstn skipn]. rewrite Elater, !app_nil_r.
        repeat split; try reflexivity; assumption.
Qed.

Lemma recv_exactly_chunks (want : nat) (s : socket) (cs : list (list byte))
    (rest : list rx_event) :
  rx s = map Data cs ++ rest ->
  Forall (fun c => c <> []) cs ->
  (want <= List.length (List.concat cs))%nat ->
  exists cs',
    recv_exactly want s
    = (Ok (Some (firstn want (List.concat cs))),
       with_rx (map Data cs' ++ rest) s)
    /\ Forall (fun c => c <> []) cs'
    /\ List.concat cs' = skipn want (List.concat cs).
Proof.
  intros Hrx Hne Hlen. unfold recv_exactly.
  destruct (@recv_loop_chunks want want [] s cs rest Hrx Hne) as (cs' & E & F & G);
    cbn [List.length] in *; rewrite ?Nat.sub_0_r in *; try lia.
  exists cs'. rewrite E. cbn [app]. auto.
Qed.

Context `{PyLib}.

(** A timeout from 0 to what the platform holds is one the socket takes. *)
Lemma settimeout_Ok (t : Z) (s : socket) :
  0 <= t <= timeout_max -> settimeout t s = Ok (with_timeout t s).
Proof.
  intros [Hlo Hhi]. unfold settimeout.
  replace (t <? 0) with false by (symmetry; apply Z.ltb_ge; exact Hlo).
  replace (timeout_max <? t) with false
    by (symmetry; apply Z.ltb_ge; exact Hhi).
  reflexivity.
Qed.

(** A timeout that the socket refuses: [receive_message] returns [None]
    and has read nothing. *)
Lemma receive_message_timeout_refused
    (self : ConnectionHandler) (sock : socket) (timeout_ : Z) :
  socket_ self = Some sock ->
  timeout_ < 0 \/ timeout_max < timeout_ ->
  receive_message timeout_ self = (None, self).
Proof.
  intros Hsock Hbad. unfold receive_message, settimeout. rewrite Hsock.
  destruct (timeout_ <? 0) eqn:Hneg; [reflexivity|].
  destruct (timeout_max <? timeout_) eqn:Hbig; [reflexivity|].
  apply Z.ltb_ge in Hneg, Hbig. lia.
Qed.

(** C3, as the code has it.  [receive_message] is called with a timeout
    that the socket takes (from 0 to what the platform holds).  When the
    four bytes of the length prefix (however they arrive) give a length
    above 1 MiB, it returns [None] and has read exactly these four bytes:
    no byte of a payload, no attempt to find a later frame.  The handler
    keeps its socket, with the following bytes still in the stream: the
    connection is left open, and giving it up ([close]) is for the caller
    to do. *)
Theorem receive_message_oversized
    (self : ConnectionHandler) (sock : socket) (cs : list (list byte))
    (rest : list rx_event) (prefix following : list byte) (timeout_ : Z) :
  socket_ self = Some sock ->
  rx sock = map Data cs ++ rest ->
  Forall (fun c => c <> []) cs ->
  List.concat cs = prefix ++ following ->
  List.length prefix = 4%nat ->
  MAX_MESSAGE < from_bytes prefix ->
  0 <= timeout_ <= timeout_max ->
  exists cs',
    receive_message timeout_ self
    = (None,
       with_socket
         (Some (with_rx (map Data cs' ++ rest) (with_timeout timeout_ sock)))
         self)
    /\ List.concat cs' = following.
Proof.
  intros Hsock Hrx Hne Hcat Hlen Hbig Htimeout.
  unfold receive_message. rewrite Hsock, (settimeout_Ok _ Htimeout).
  destruct (@recv_exactly_chunks 4 (with_timeout timeout_ sock) cs rest)
    as (cs' & E & F & G); auto.
  { rewrite Hcat, List.length_app. lia. }
  rewrite E. rewrite Hcat in *.
  rewrite firstn_app, firstn_all2, Hlen, Nat.sub_diag in * by lia.
  cbn [firstn] in *. rewrite app_nil_r in *.
  replace (from_bytes prefix >? MAX_MESSAGE) with true
    by (symmetry; apply Z.gtb_lt; lia).
  rewrite orb_true_r.
  exists cs'. split; [reflexivity|].
  rewrite G. rewrite skipn_app, skipn_all2, Hlen, Nat.sub_diag by lia.
  reflexivity.
Qed.



End Framing.

(* --------------------------------------------------------------------- *)
(** ** Input relay: forwarding *)
(* --------------------------------------------------------------------- *)

Section RelayForwarding.

Import input_event input_relay.

Context `{PyLib}.

Lemma with_connection_same {C} (r : InputRelay C) (c : option C) :
  connection_ r = c -> with_connection c r = r.
Proof. destruct r; cbn; intros <-; reflexivity. Qed.

(** Over the [ConnectionHandler] of the application every attempt ends in
    the [TypeError] of the call, whatever the state of the socket: the
    relay gives one positional argument to a method that takes two. *)
Lemma forward_attempts_over_handler (n : nat) (event : InputEvent)
    (start_time : datetime) (conn : connection.ConnectionHandler)
    (r : InputRelay connection.ConnectionHandler) (w : World) :
  forward_attempts n event start_time conn r w
  = (false, with_connection (Some conn) r, w).
Proof.
  induction n as [|n IH]; cbn [forward_attempts]; [reflexivity|].
  cbn. exact IH.
Qed.

(** So no event is ever forwarded, and nothing is written on the socket. *)
Lemma forward_event_over_handler (event : InputEvent)
    (r : InputRelay connection.ConnectionHandler) (w : World) :
  fst (fst (_forward_event event r w)) = false
  /\ snd (fst (_forward_event event r w)) = r.
Proof.
  unfold _forward_event. destruct (connection_ r) as [conn|] eqn:E.
  - cbn [now]. rewrite forward_attempts_over_handler. cbn.
    split; [reflexivity|]. apply with_connection_same. exact E.
  - split; reflexivity.
Qed.

Lemma forward_all_over_handler (events : list InputEvent) :
  forall (r : InputRelay connection.ConnectionHandler) (w : World),
    events_forwarded (metrics (snd (fst (forward_all events r w))))
    = events_forwarded (metrics r)
    /\ connection_ (snd (fst (forward_all events r w))) = connection_ r.
Proof.
  induction events as [|e es IH]; intros r w; cbn [forward_all];
    [split; reflexivity|].
  destruct (forward_event_over_handler e r w) as [Hok Hsame].
  destruct (_forward_event e r w) as [[ok r1] w1]. cbn [fst snd] in *.
  subst ok r1.
  set (r2 := with_metrics (incr_failed (metrics r)) r).
  destruct (invoke (on_event_failed r2) e); [split; reflexivity|].
  destruct (IH r2 w1) as [IH1 IH2]. rewrite IH1, IH2. split; reflexivity.
Qed.




Lemma relay_iteration_over_handler
    (r : InputRelay connection.ConnectionHandler) (w : World) :
  events_forwarded (metrics (fst (_relay_loop_iteration r w)))
  = events_forwarded (metrics r)
  /\ connection_ (fst (_relay_loop_iteration r w)) = connection_ r.
Proof.
  unfold _relay_loop_iteration, _flush_batch.
  destruct (queue_get _ _) as [[[e q]|]|]; [| |split; reflexivity]; cycle 1.
  - destruct (batch_buffer r) as [|b bs] eqn:Eb; [split; reflexivity|].
    destruct (forward_all_over_handler (b :: bs) (with_batch [] r) w)
      as [H1 H2].
    destruct (forward_all (b :: bs) (with_batch [] r) w) as [[e r1] w1].
    exact (conj H1 H2).
  - set (r1 := _add_to_batch e (with_queue q r)).
    destruct (batch_size (config r1) <=? _); [|split; reflexivity].
    destruct (batch_buffer r1) as [|b bs] eqn:Eb; [split; reflexivity|].
    destruct (forward_all_over_handler (b :: bs) (with_batch [] r1) w)
      as [H1 H2].
    destruct (forward_all (b :: bs) (with_batch [] r1) w) as [[e' r2] w2].
    exact (conj H1 H2).
Qed.

(** Over the [ConnectionHandler] of the application the relay loop never
    counts an event as forwarded and never changes the connection, for
    every relay, every queue and any number of turns. *)
Lemma relay_loop_over_handler (n : nat) :
  forall (r : InputRelay connection.ConnectionHandler) (w : World),
    events_forwarded (metrics (fst (_relay_loop n r w)))
    = events_forwarded (metrics r)
    /\ connection_ (fst (_relay_loop n r w)) = connection_ r.
Proof.
  induction n as [|n IH]; intros r w; cbn [_relay_loop];
    [split; reflexivity|].
  destruct (is_running r); [|split; reflexivity].
  destruct (relay_iteration_over_handler r w) as [H1 H2].
  destruct (_relay_loop_iteration r w) as [r1 w1]. cbn [fst] in *.
  destruct (IH r1 w1) as [I1 I2]. rewrite I1, I2. split; assumption.
Qed.

(** Over a connection that takes the call, one event is forwarded by one
    call, at the first attempt. *)
Lemma forward_event_over_recorder (event : InputEvent)
    (r : InputRelay Recorder) (c : Recorder) (w : World) :
  ready r c ->
  exists r' w',
    _forward_event event r w = (true, r', w')
    /\ ready r' {| calls := calls c ++ [wire_call event]; side_effect := [] |}
    /\ config r' = config r
    /\ event_queue r' = event_queue r
    /\ batch_buffer r' = batch_buffer r
    /\ events_received (metrics r') = events_received (metrics r)
    /\ events_forwarded (metrics r') = events_forwarded (metrics r)
    /\ events_failed (metrics r') = events_failed (metrics r).
Proof.
  intros (Hc & Hse & Hrun & Hretry & Hcb1 & Hcb2).
  unfold _forward_event. rewrite Hc. cbn [now].
  destruct (Z.to_nat (max_retries (config r))) as [|k] eqn:Ek; [lia|].
  cbn [forward_attempts]. destruct c as [cl se]. cbn in Hse. subst se.
  cbn [conn_send_message Recorder_Connection side_effect calls tl].
  unfold record_success. cbn [now].
  do 2 eexists. split; [reflexivity|].
  unfold ready. cbn. repeat split; auto.
Qed.

(** A batch is forwarded event by event, in the order of the batch. *)
Lemma forward_all_over_recorder (events : list InputEvent) :
  forall (r : InputRelay Recorder) (c : Recorder) (w : World),
    ready r c ->
    exists r' w',
      forward_all events r w = (None, r', w')
      /\ ready r' {| calls := calls c ++ map wire_call events;
                     side_effect := [] |}
      /\ config r' = config r
      /\ event_queue r' = event_queue r
      /\ batch_buffer r' = batch_buffer r
      /\ events_received (metrics r') = events_received (metrics r)
      /\ events_forwarded (metrics r')
         = events_forwarded (metrics r) + Z.of_nat (List.length events)
      /\ events_failed (metrics r') = events_failed (metrics r).
Proof.
  induction events as [|e es IH]; intros r c w Hready.
  - exists r, w. cbn. rewrite app_nil_r.
    destruct Hready as (Hc & Hse & Hrest). destruct c as [cl se].
    cbn in Hse. subst se.
    repeat split; try apply Hrest; auto; lia.
  - cbn [forward_all].
    destruct (forward_event_over_recorder e w Hready)
      as (r1 & w1 & E1 & Hready1 & P1 & P2 & P3 & P4 & P5 & P6).
    rewrite E1.
    set (r2 := with_metrics (incr_forwarded (metrics r1)) r1).
    assert (Hready2 : ready r2 {| calls := calls c ++ [wire_call e];
                                  side_effect := [] |}).
    { destruct Hready1 as (Q1 & Q2 & Q3 & Q4 & Q5 & Q6).
      unfold ready, r2. cbn. repeat split; auto. }
    assert (Hcb : on_event_forwarded r2 = None) by apply Hready2.
    rewrite Hcb. cbn [invoke].
    destruct (IH r2 _ w1 Hready2)
      as (r3 & w3 & E3 & Hready3 & R1 & R2 & R3 & R4 & R5 & R6).
    exists r3, w3. rewrite E3. cbn [calls] in Hready3.
    rewrite <- app_assoc in Hready3. cbn [app] in Hready3.
    split; [reflexivity|]. split; [exact Hready3|].
    rewrite R1, R2, R3, R4, R5, R6. unfold r2. cbn.
    rewrite P1, P2, P3, P4, P5, P6.
    repeat split; auto. lia.
Qed.




End RelayForwarding.

(* --------------------------------------------------------------------- *)
(** ** Input relay: a run over the connection of the application *)
(* --------------------------------------------------------------------- *)

Section RelayRun.

Import input_event input_relay.

Local Existing Instance reference.lib.

(** C1, on the code.  A relay with batch size 2 and three attempts per
    event is started over a connected [ConnectionHandler]; three events are
    queued and the loop runs until queue and batch are empty.  Every call
    [connection.send_message(message)] raises [TypeError], because
    [ConnectionHandler.send_message] takes [(msg_type, data)]: after the
    drain [events_forwarded] is 0, [events_failed] is 3 and the handler is
    as it was, with nothing written on its socket. *)
Theorem relay_over_handler_forwards_nothing :
  let r0 := snd (start (__init__ samples.master samples.client
                                 (Some samples.connected_handler)
                                 (Some samples.relay_config))) in
  let r1 := snd (queue_events samples.three_events r0) in
  let r2 := fst (_relay_loop 4 r1 samples.world0) in
  fst (queue_events samples.three_events r0) = [true; true; true]
  /\ event_queue r2 = [] /\ batch_buffer r2 = []
  /\ events_received (metrics r2) = 3
  /\ events_forwarded (metrics r2) = 0
  /\ events_failed (metrics r2) = 3
  /\ connection_ r2 = Some samples.connected_handler
  /\ option_map connection.tx (connection.socket_ samples.connected_handler)
     = Some [].
Proof. vm_compute. repeat split; reflexivity. Qed.

(** The same run over a recorder, which takes the call: three events
    forwarded, in the order in which they were queued. *)
Example relay_over_recorder_run :
  let r0 := snd (start (__init__ samples.master samples.client
                                 (Some samples.recorder)
                                 (Some samples.relay_config))) in
  let r1 := snd (queue_events samples.three_events r0) in
  let r2 := fst (_relay_loop 4 r1 samples.world0) in
  events_forwarded (metrics r2) = 3
  /\ events_failed (metrics r2) = 0
  /\ option_map calls (connection_ r2)
     = Some (map wire_call samples.three_events).
Proof. vm_compute. repeat split; reflexivity. Qed.

End RelayRun.

(* --------------------------------------------------------------------- *)
(** ** Dictionaries *)
(* --------------------------------------------------------------------- *)

Section Dict.

Context {V : Type}.

Lemma keys_set (k k' : string) (v : V) (d : dict V) :
  In k' (keys (py.set k v d)) -> k' = k \/ In k' (keys d).
Proof.
  induction d as [|[k0 v0] d IH]; cbn.
  - intros [->|[]]. auto.
  - destruct (String.eqb k k0) eqn:E; cbn.
    + intros [->|Hin]; auto.
    + intros [->|Hin]; auto. destruct (IH Hin); auto.
Qed.

Lemma keys_set_present (k : string) (v : V) (d : dict V) :
  In k (keys d) -> keys (py.set k v d) = keys d.
Proof.
  induction d as [|[k0 v0] d IH]; cbn; [tauto|].
  destruct (String.eqb k k0) eqn:E; cbn.
  - apply String.eqb_eq in E. subst. reflexivity.
  - intros [->|Hin]; [rewrite String.eqb_refl in E; discriminate|].
    f_equal. apply IH. exact Hin.
Qed.

Lemma Forall_set (P : string * V -> Prop) (k : string) (v : V) (d : dict V) :
  P (k, v) -> Forall P d -> Forall P (py.set k v d).
Proof.
  intros Hkv Hd. induction Hd as [|[k0 v0] d H0 Hd IH]; cbn.
  - constructor; auto.
  - destruct (String.eqb k k0); constructor; auto.
Qed.

Lemma keys_del (k k' : string) (d : dict V) :
  In k' (keys (py.del k d)) -> In k' (keys d).
Proof.
  induction d as [|[k0 v0] d IH]; cbn; [tauto|].
  destruct (String.eqb k k0); cbn; [auto|]. intros [->|Hin]; auto.
Qed.

Lemma Forall_del (P : string * V -> Prop) (k : string) (d : dict V) :
  Forall P d -> Forall P (py.del k d).
Proof.
  intros Hd. induction Hd as [|[k0 v0] d H0 Hd IH]; cbn; [constructor|].
  destruct (String.eqb k k0); [exact Hd|constructor; auto].
Qed.

Lemma get_In (k : string) (v : V) (d : dict V) :
  get k d = Some v -> In (k, v) d.
Proof.
  induction d as [|[k0 v0] d IH]; cbn; [discriminate|].
  destruct (String.eqb k k0) eqn:E.
  - apply String.eqb_eq in E. intros [= ->]. subst. auto.
  - auto.
Qed.

End Dict.

(* --------------------------------------------------------------------- *)
(** ** Discovery: the local identity is never a discovered peer *)
(* --------------------------------------------------------------------- *)

Section DiscoverySelf.

Import device repositories discovery.

Lemma device_new_inv (fields d : Device) :
  device.new fields = Ok d -> d = fields.
Proof.
  unfold device.new. destruct (device.__post_init__ fields); cbn;
    intros Heq; inversion Heq; reflexivity.
Qed.

(** A row read by id has that id. *)
Lemma read_id (caller : thread) (k : string) (database : Database)
    (d : Device) :
  read caller k database = Ok (Some d) -> id d = k.
Proof.
  unfold read. destruct (cursor caller database) as [rows|]; cbn [bind];
    [|discriminate].
  destruct (find _ rows) as [row|] eqn:Efind; [|discriminate].
  apply find_some in Efind. destruct Efind as [_ Eid].
  apply String.eqb_eq in Eid. unfold _row_to_device.
  destruct (device.new row) as [d0|] eqn:Enew; cbn; [|discriminate].
  intros [= <-]. apply device_new_inv in Enew. subst. reflexivity.
Qed.

Lemma notify_subject (P : Device -> Prop) (event_kind : string) (d : Device)
    (ls : list listener) :
  P d -> Forall (fun c => P (subject c)) (notify event_kind d ls).
Proof.
  intros Hd. unfold notify. apply Forall_forall. intros c Hin.
  apply in_map_iff in Hin. destruct Hin as (i & <- & _). exact Hd.
Qed.

Lemma excludes_self_insert (s : DiscoveryService) (database : Database)
    (k : string) (d : Device) :
  excludes_self s ->
  k <> id (local_device s) ->
  id d = k ->
  excludes_self (with_discovered (py.set k d (discovered_devices s))
                                 (with_db database s)).
Proof.
  intros [Hself Hkeyed] Hk Hid. split; cbn.
  - intros Hin. apply keys_set in Hin. destruct Hin as [Heq|Hin]; auto.
  - apply Forall_set; auto.
Qed.

Lemma added_excludes_self (caller : thread) (service_name : string)
    (info : option ServiceInfo)
    (s s' : DiscoveryService) (w w' : World) (calls : list call) :
  excludes_self s ->
  _on_device_added caller service_name info s w = (s', calls, w') ->
  excludes_self s'
  /\ local_device s' = local_device s
  /\ listeners s' = listeners s
  /\ Forall (fun c => id (subject c) <> id (local_device s)) calls.
Proof.
  intros Hinv. unfold _on_device_added.
  destruct info as [info|]; [|intros [= <- <- <-]; auto].
  set (device_id := property "device_id" "" info).
  destruct (String.eqb device_id (id (local_device s))) eqn:Eself;
    [intros [= <- <- <-]; auto|].
  apply String.eqb_neq in Eself. cbn [now].
  destruct (device.new _) as [fresh|] eqn:Enew;
    [|intros [= <- <- <-]; auto].
  apply device_new_inv in Enew.
  destruct (read caller device_id (db s)) as [[existing|]|] eqn:Eread;
    [| |intros [= <- <- <-]; auto].
  - apply read_id in Eread.
    destruct (update caller _ (db s)) as [[?|] db'] eqn:Eup.
    + intros [= <- <- <-]. split; [|split; [|split]]; try reflexivity.
      * apply excludes_self_insert; auto.
      * apply (notify_subject (fun d => id d <> id (local_device s))).
        cbn. congruence.
    + intros [= <- <- <-]; auto.
  - destruct (create caller fresh (db s)) as [[?|] db'] eqn:Ecr.
    + intros [= <- <- <-]. subst fresh.
      split; [|split; [|split]]; try reflexivity.
      * apply excludes_self_insert; auto.
      * apply (notify_subject (fun d => id d <> id (local_device s))).
        cbn. congruence.
    + intros [= <- <- <-]; auto.
Qed.

Lemma removed_excludes_self (caller : thread) (service_name : string)
    (s s' : DiscoveryService) (calls : list call) :
  excludes_self s ->
  _on_device_removed caller service_name s = (s', calls) ->
  excludes_self s'
  /\ local_device s' = local_device s
  /\ listeners s' = listeners s
  /\ Forall (fun c => id (subject c) <> id (local_device s)) calls.
Proof.
  intros Hinv. pose proof Hinv as [Hself Hkeyed]. unfold _on_device_removed.
  destruct (find _ (discovered_devices s)) as [[device_id d]|] eqn:Efind;
    [|intros [= <- <-]; auto].
  apply find_some in Efind. destruct Efind as [Hin _].
  assert (Hid : id d = device_id)
    by (rewrite Forall_forall in Hkeyed; exact (Hkeyed _ Hin)).
  assert (Hk : device_id <> id (local_device s)).
  { intros ->. apply Hself. unfold keys.
    change (id (local_device s)) with (fst (id (local_device s), d)).
    apply in_map. exact Hin. }
  assert (Hdel : excludes_self
                   (with_discovered (py.del device_id (discovered_devices s)) s)).
  { split; cbn.
    - intros Hin'. apply keys_del in Hin'. auto.
    - apply Forall_del. exact Hkeyed. }
  destruct (update _ _) as [[?|] db'] eqn:Eup; intros [= <- <-].
  - split; [|split; [|split]]; try reflexivity.
    + destruct Hdel as [H1 H2]. split; cbn; assumption.
    + apply (notify_subject (fun d => id d <> id (local_device s))).
      cbn. congruence.
  - auto.
Qed.

Lemma updated_excludes_self (caller : thread) (service_name : string)
    (info : option ServiceInfo)
    (s s' : DiscoveryService) (w w' : World) (calls : list call) :
  excludes_self s ->
  _on_device_updated caller service_name info s w = (s', calls, w') ->
  excludes_self s'
  /\ local_device s' = local_device s
  /\ listeners s' = listeners s
  /\ Forall (fun c => id (subject c) <> id (local_device s)) calls.
Proof.
  intros Hinv. unfold _on_device_updated.
  destruct (_on_device_removed caller service_name s) as [s1 calls1] eqn:E1.
  destruct (_on_device_added caller service_name info s1 w)
    as [[s2 calls2] w2] eqn:E2.
  intros [= <- <- <-].
  destruct (@removed_excludes_self _ _ _ _ _ Hinv E1) as (I1 & L1 & M1 & C1).
  destruct (@added_excludes_self _ _ _ _ _ _ _ _ I1 E2)
    as (I2 & L2 & M2 & C2).
  rewrite L1 in C2.
  repeat split; try apply I2; try congruence.
  apply Forall_app. split; assumption.
Qed.

(** The sweep only clears flags of devices that are in the set. *)
Lemma check_offline_items_excludes_self (caller : thread) (t : datetime)
    (items : list (string * Device)) :
  forall (s s' : DiscoveryService) (e : option exn) (calls : list call),
    excludes_self s ->
    Forall (fun kv => id (snd kv) = fst kv
                      /\ fst kv <> id (local_device s)) items ->
    check_offline_items caller t items s = (e, s', calls) ->
    excludes_self s'
    /\ local_device s' = local_device s
    /\ listeners s' = listeners s
    /\ Forall (fun c => id (subject c) <> id (local_device s)) calls.
Proof.
  induction items as [|[device_id d] rest IH]; intros s s' e calls Hinv Hitems.
  - intros [= <- <- <-]. auto.
  - inversion Hitems as [|? ? [Hid Hk] Hrest]; subst. cbn in Hid, Hk.
    cbn [check_offline_items].
    destruct (_ && is_registered d)%bool; [|apply IH; assumption].
    set (d' := set_is_registered false d).
    set (s1 := with_discovered _ s).
    assert (Hinv1 : excludes_self s1).
    { unfold s1. destruct Hinv as [H1 H2]. split; cbn.
      - intros Hin. apply keys_set in Hin. destruct Hin; auto.
      - apply Forall_set; auto. }
    destruct (update caller d' (db s1)) as [[?|err] db'] eqn:Eup.
    + destruct (check_offline_items caller t rest (with_db db' s1))
        as [[e2 s3] calls2] eqn:E2.
      intros [= <- <- <-].
      assert (Hinv2 : excludes_self (with_db db' s1))
        by (destruct Hinv1 as [H1 H2]; split; cbn; assumption).
      destruct (IH (with_db db' s1) s3 e2 calls2 Hinv2 Hrest E2)
        as (I & L & M & Cs).
      split; [exact I|]. split; [exact L|]. split; [exact M|].
      apply Forall_app. split; [|exact Cs].
      apply (notify_subject (fun d => id d <> id (local_device s))).
      cbn. congruence.
    + intros [= <- <- <-]. auto.
Qed.

Lemma sweep_excludes_self (s s' : DiscoveryService) (w w' : World)
    (calls : list call) :
  excludes_self s ->
  check_offline s w = (s', calls, w') ->
  excludes_self s'
  /\ local_device s' = local_device s
  /\ listeners s' = listeners s
  /\ Forall (fun c => id (subject c) <> id (local_device s)) calls.
Proof.
  intros Hinv. unfold check_offline.
  destruct (_offline_thread s) as [sweeper|]; [|intros [= <- <- <-]; auto].
  destruct (running s); [|intros [= <- <- <-]; auto].
  cbn [now].
  destruct (check_offline_items _ _ _ s) as [[e s1] calls1] eqn:E.
  intros [= <- <- <-].
  eapply check_offline_items_excludes_self; [exact Hinv| |exact E].
  destruct Hinv as [Hself Hkeyed].
  rewrite Forall_forall in *. intros kv Hin. split; [auto|].
  intros Heq. apply Hself. rewrite <- Heq. apply in_map. exact Hin.
Qed.

Lemma step_excludes_self (a : action) (s s' : DiscoveryService) (w w' : World)
    (calls : list call) :
  excludes_self s ->
  step a s w = (s', calls, w') ->
  excludes_self s'
  /\ id (local_device s') = id (local_device s)
  /\ Forall (fun c => id (subject c) <> id (local_device s)) calls.
Proof.
  intros Hinv. destruct a as [cb|caller sweeper| |caller n sc info|];
    cbn [step].
  - intros [= <- <- <-]. auto.
  - intros [= <- <- <-]. unfold start.
    destruct (update _ _ _) as [[?|] db']; cbn; auto.
  - intros [= <- <- <-]. auto.
  - destruct sc; cbn [on_service_state_change]; intros Hstep.
    + destruct (@added_excludes_self _ _ _ _ _ _ _ _ Hinv Hstep)
        as (I & L & _ & Cs).
      rewrite L. auto.
    + destruct (_on_device_removed caller n s) as [s1 calls1] eqn:E1.
      injection Hstep as <- <- <-.
      destruct (@removed_excludes_self _ _ _ _ _ Hinv E1) as (I & L & _ & Cs).
      rewrite L. auto.
    + destruct (@updated_excludes_self _ _ _ _ _ _ _ _ Hinv Hstep)
        as (I & L & _ & Cs).
      rewrite L. auto.
  - intros Hstep.
    destruct (sweep_excludes_self _ Hinv Hstep) as (I & L & _ & Cs).
    rewrite L. auto.
Qed.

Lemma run_excludes_self (actions : list action) :
  forall (s s' : DiscoveryService) (w w' : World) (calls : list call),
    excludes_self s ->
    run actions s w = (s', calls, w') ->
    excludes_self s'
    /\ id (local_device s') = id (local_device s)
    /\ Forall (fun c => id (subject c) <> id (local_device s)) calls.
Proof.
  induction actions as [|a rest IH]; intros s s' w w' calls Hinv; cbn [run].
  - intros [= <- <- <-]. auto.
  - destruct (step a s w) as [[s1 calls1] w1] eqn:E1.
    destruct (run rest s1 w1) as [[s2 calls2] w2] eqn:E2.
    intros [= <- <- <-].
    destruct (@step_excludes_self a s s1 w w1 calls1 Hinv E1) as (I1 & L1 & C1).
    destruct (IH _ _ _ _ _ I1 E2) as (I2 & L2 & C2).
    rewrite L1 in *. repeat split; try apply I2; try congruence.
    apply Forall_app. split; assumption.
Qed.

(** C8.  Whatever happens to a discovery service (listeners added, start,
    stop, services added, removed or updated on mDNS with any metadata and
    any address, sweeps), in the state it reaches the discovered set has no
    entry under the id of the local device and no device with that id, and
    no listener was called about a device with that id.  The filter looks
    at the advertised [device_id] alone: an observation with the local id is
    dropped whatever its name, address and port. *)
Theorem discovery_never_reports_self
    (local : Device) (database : Database) (actions : list action) (w : World) :
  let '(s, calls, _) := run actions (__init__ local database) w in
  ~ In (id local) (keys (discovered_devices s))
  /\ Forall (fun d => id d <> id local) (get_discovered s)
  /\ Forall (fun c => id (subject c) <> id local) calls
  /\ (forall caller service_name info w0,
        property "device_id" "" info = id (local_device s) ->
        _on_device_added caller service_name (Some info) s w0 = (s, [], w0)).
Proof.
  destruct (run actions (__init__ local database) w) as [[s calls] w'] eqn:E.
  assert (Hinit : excludes_self (__init__ local database)).
  { split; cbn; [tauto|constructor]. }
  destruct (@run_excludes_self actions _ _ _ _ _ Hinit E)
    as ([Hself Hkeyed] & L & Cs).
  cbn in L, Cs. rewrite L in Hself.
  split; [exact Hself|]. split; [|split; [exact Cs|]].
  - unfold get_discovered, values. apply Forall_forall. intros d Hin.
    apply in_map_iff in Hin. destruct Hin as ([k d0] & <- & Hin).
    rewrite Forall_forall in Hkeyed. specialize (Hkeyed _ Hin). cbn in *.
    intros Heq. apply Hself. rewrite <- Heq, Hkeyed.
    change k with (fst (k, d0)). apply in_map. exact Hin.
  - intros caller service_name info w0 Hid. unfold _on_device_added.
    rewrite Hid, String.eqb_refl. reflexivity.
Qed.

End DiscoverySelf.

(* --------------------------------------------------------------------- *)
(** ** Discovery: the sweep reports a silent peer once *)
(* --------------------------------------------------------------------- *)

Section DiscoverySweep.

Import device repositories discovery.

Lemma set_middle {V} (k : string) (v v0 : V) (pre post : dict V) :
  ~ In k (keys pre) ->
  py.set k v (pre ++ (k, v0) :: post) = pre ++ (k, v) :: post.
Proof.
  induction pre as [|[k1 v1] pre IH]; cbn; intros Hnot.
  - rewrite String.eqb_refl. reflexivity.
  - destruct (String.eqb k k1) eqn:E.
    + apply String.eqb_eq in E. subst. tauto.
    + rewrite IH by tauto. reflexivity.
Qed.

Lemma unique_app_cons (pre post : list string) (k : string) :
  unique (pre ++ k :: post) = true ->
  ~ In k pre /\ ~ In k post /\ unique (pre ++ post) = true.
Proof.
  induction pre as [|k1 pre IH]; cbn.
  - intros Hu. apply andb_prop in Hu. destruct Hu as [Hn Hu].
    split; [tauto|]. split; [|exact Hu].
    intros Hin. apply negb_true_iff in Hn.
    assert (existsb (String.eqb k) post = true)
      by (apply existsb_exists; exists k; split;
          [exact Hin|apply String.eqb_refl]).
    congruence.
  - intros Hu. apply andb_prop in Hu. destruct Hu as [Hn Hu].
    destruct (IH Hu) as (H1 & H2 & H3).
    apply negb_true_iff in Hn.
    assert (Hk1 : ~ In k1 (pre ++ k :: post)).
    { intros Hin.
      assert (existsb (String.eqb k1) (pre ++ k :: post) = true)
        by (apply existsb_exists; exists k1; split;
            [exact Hin|apply String.eqb_refl]).
      congruence. }
    split; [|split; [exact H2|]].
    + intros [->|Hin]; [|tauto]. apply Hk1. apply in_or_app. cbn. auto.
    + rewrite H3, andb_true_r. apply negb_true_iff.
      destruct (existsb (String.eqb k1) (pre ++ post)) eqn:Ex; [|reflexivity].
      apply existsb_exists in Ex. destruct Ex as (x & Hin & Heq).
      apply String.eqb_eq in Heq. subst x. exfalso. apply Hk1.
      apply in_app_or in Hin. apply in_or_app. cbn. tauto.
Qed.

(** Whether the table takes an update depends on the keys of its rows. *)
Lemma update_accepted_keys (d : Device) (rows rows' : list Device) :
  row_keys rows' = row_keys rows ->
  update_accepted rows' d = update_accepted rows d.
Proof.
  unfold update_accepted, mac_taken. intros Hkeys. f_equal; [f_equal; f_equal|].
  - revert rows' Hkeys. induction rows as [|r rows IH]; intros [|r' rows'];
      cbn; intros Hkeys; try discriminate; [reflexivity|].
    injection Hkeys as Hid Hmac Hkeys. rewrite Hid, Hmac, (IH _ Hkeys).
    reflexivity.
  - revert rows' Hkeys. induction rows as [|r rows IH]; intros [|r' rows'];
      cbn; intros Hkeys; try discriminate; [reflexivity|].
    injection Hkeys as Hid Hmac Hkeys. rewrite Hid, Hmac, (IH _ Hkeys).
    reflexivity.
Qed.

(** The UPDATE of a discovered device whose flag was cleared goes through
    and leaves the keys of the rows as they were. *)
Lemma update_flag_accepted (caller : thread) (d : Device)
    (database : Database) (rows : list Device) :
  connection database = Some rows ->
  caller = created_in database ->
  update_accepted rows d = true ->
  exists rows',
    update caller (set_is_registered false d) database
    = (Ok (set_is_registered false d), with_rows rows' database)
    /\ row_keys rows' = row_keys rows.
Proof.
  intros Hconn -> Hacc. unfold update, cursor.
  rewrite Hconn, Nat.eqb_refl. cbn [id mac_address set_is_registered].
  unfold update_accepted in Hacc.
  apply andb_prop in Hacc. destruct Hacc as [Hacc Hsync].
  apply andb_prop in Hacc. destruct Hacc as [Hmac Hport].
  apply negb_true_iff in Hmac. rewrite Hmac.
  replace (port_check (set_is_registered false d)) with (port_check d)
    by reflexivity.
  rewrite Hport. cbn [negb orb]. rewrite andb_false_r.
  eexists. split; [reflexivity|].
  unfold row_keys. rewrite map_map. apply map_ext_in.
  intros r Hin. rewrite forallb_forall in Hsync. specialize (Hsync r Hin).
  destruct (String.eqb (id r) (id d)) eqn:E; [|reflexivity].
  cbn in Hsync. apply String.eqb_eq in Hsync. cbn. congruence.
Qed.

(** The loop of the sweep over the entries [items] that close the
    discovered set: no exception, every entry swept in its place, the
    calls entry by entry. *)
Lemma check_offline_items_ready (caller : thread) (t : datetime)
    (items : list (string * Device)) :
  forall (pre : list (string * Device)) (s : DiscoveryService)
         (rows : list Device),
    discovered_devices s = pre ++ items ->
    unique (keys (pre ++ items)) = true ->
    connection (db s) = Some rows ->
    caller = created_in (db s) ->
    forallb (fun kv => update_accepted rows (snd kv)) items = true ->
    exists s' rows',
      check_offline_items caller t items s
      = (None, s', flat_map (fun kv => swept_calls t (listeners s) (snd kv)) items)
      /\ discovered_devices s'
         = pre ++ map (fun kv => (fst kv, swept t (snd kv))) items
      /\ connection (db s') = Some rows'
      /\ row_keys rows' = row_keys rows
      /\ listeners s' = listeners s
      /\ running s' = running s
      /\ local_device s' = local_device s
      /\ created_in (db s') = created_in (db s)
      /\ _offline_thread s' = _offline_thread s.
Proof.
  induction items as [|[k d] rest IH];
    intros pre s rows Hdisc Huniq Hconn Hown Hacc.
  - exists s, rows. cbn. rewrite app_nil_r in *. repeat split; auto.
  - cbn [check_offline_items flat_map map fst snd].
    cbn [forallb snd] in Hacc. apply andb_prop in Hacc.
    destruct Hacc as [Hd Hrest].
    unfold swept_calls, swept, silent_past_window.
    destruct ((total_microseconds t (last_seen d) >? OFFLINE_THRESHOLD * 1000000)
              && is_registered d)%bool eqn:Edue.
    + set (d' := set_is_registered false d).
      set (s1 := with_discovered (py.set k d' (discovered_devices s)) s).
      assert (Hpre : ~ In k (keys pre)).
      { unfold keys in *. rewrite map_app in Huniq. cbn in Huniq.
        apply unique_app_cons in Huniq. tauto. }
      assert (Hdisc1 : discovered_devices s1 = (pre ++ [(k, d')]) ++ rest).
      { unfold s1. cbn. rewrite Hdisc, set_middle by exact Hpre.
        rewrite <- app_assoc. reflexivity. }
      destruct (@update_flag_accepted caller d (db s1) rows Hconn Hown Hd)
        as (rows1 & Eup & Hkeys1).
      fold d' in Eup. rewrite Eup.
      destruct (IH (pre ++ [(k, d')]) (with_db (with_rows rows1 (db s1)) s1)
                   rows1)
        as (s2 & rows2 & E2 & D2 & C2 & K2 & L2 & R2 & Lo2 & O2 & T2).
      { exact Hdisc1. }
      { unfold keys in *. rewrite <- app_assoc. rewrite !map_app in *.
        exact Huniq. }
      { reflexivity. }
      { exact Hown. }
      { apply forallb_forall. intros kv Hin.
        rewrite (@update_accepted_keys (snd kv) rows rows1 Hkeys1).
        rewrite forallb_forall in Hrest. apply Hrest. exact Hin. }
      rewrite E2. exists s2, rows2.
      split; [reflexivity|]. rewrite D2, <- app_assoc.
      repeat split; auto; congruence.
    + destruct (IH (pre ++ [(k, d)]) s rows)
        as (s2 & rows2 & E2 & D2 & C2 & K2 & L2 & R2 & Lo2 & O2 & T2); auto.
      { rewrite Hdisc, <- app_assoc. reflexivity. }
      { rewrite <- app_assoc. exact Huniq. }
      rewrite E2. exists s2, rows2.
      split; [reflexivity|]. rewrite D2, <- app_assoc.
      repeat split; auto.
Qed.

Lemma swept_same (t : datetime) (d : Device) :
  id (swept t d) = id d
  /\ mac_address (swept t d) = mac_address d
  /\ port (swept t d) = port d
  /\ last_seen (swept t d) = last_seen d.
Proof.
  unfold swept. destruct (_ && _)%bool; repeat split; reflexivity.
Qed.

Lemma update_accepted_swept (t : datetime) (rows : list Device) (d : Device) :
  update_accepted rows (swept t d) = update_accepted rows d.
Proof.
  destruct (swept_same t d) as (Hid & Hmac & Hport & _).
  unfold update_accepted, port_check. rewrite Hid, Hmac, Hport. reflexivity.
Qed.

(** A sweep of a service in step with its database: every discovered
    device is swept, the calls are those of the devices that went offline,
    and the service is again in step. *)
Lemma check_offline_ready (s : DiscoveryService) (w : World) :
  running s = true ->
  sweep_ready s = true ->
  exists s',
    check_offline s w
    = (s',
       flat_map (fun kv => swept_calls (clock w (reads w)) (listeners s) (snd kv))
                (discovered_devices s),
       {| clock := clock w; reads := S (reads w) |})
    /\ discovered_devices s'
       = map (fun kv => (fst kv, swept (clock w (reads w)) (snd kv)))
             (discovered_devices s)
    /\ listeners s' = listeners s
    /\ running s' = true
    /\ sweep_ready s' = true
    /\ local_device s' = local_device s
    /\ option_map row_keys (connection (db s'))
       = option_map row_keys (connection (db s)).
Proof.
  intros Hrun Hready. unfold check_offline.
  unfold sweep_ready, sweeper_owns_connection, rows_ready in Hready.
  apply andb_prop in Hready. destruct Hready as [Hown Hready].
  destruct (_offline_thread s) as [sweeper|] eqn:Hthread; [|discriminate].
  apply Nat.eqb_eq in Hown.
  rewrite Hrun. cbn [now].
  destruct (connection (db s)) as [rows|] eqn:Hconn; [|discriminate].
  apply andb_prop in Hready. destruct Hready as [Huniq Hall].
  destruct (@check_offline_items_ready sweeper (clock w (reads w))
              (discovered_devices s) [] s rows) as
    (s' & rows' & E & D & Cn & K & L & R & Lo & O & T); auto.
  { rewrite forallb_forall in *. intros kv Hin.
    specialize (Hall kv Hin). apply andb_prop in Hall. tauto. }
  rewrite E. exists s'. cbn [app] in D.
  split; [reflexivity|]. split; [exact D|]. split; [exact L|].
  split; [congruence|].
  split; [|split; [exact Lo|rewrite Cn; cbn; rewrite K; reflexivity]].
  unfold sweep_ready, sweeper_owns_connection, rows_ready.
  rewrite T, Hthread, O, Hown, Nat.eqb_refl, Cn, D. cbn [andb].
  apply andb_true_intro. split.
  - unfold keys in *. rewrite map_map. cbn [fst]. exact Huniq.
  - rewrite forallb_forall in *. intros kv Hin.
    apply in_map_iff in Hin. destruct Hin as (kv0 & <- & Hin0).
    specialize (Hall kv0 Hin0). cbn [fst snd].
    rewrite (@update_accepted_keys _ rows rows' K), update_accepted_swept.
    destruct (swept_same (clock w (reads w)) (snd kv0)) as (-> & _).
    exact Hall.
Qed.

Lemma offline_calls_app (i : nat) (p : string) (xs ys : list call) :
  offline_calls i p (xs ++ ys)
  = (offline_calls i p xs + offline_calls i p ys)%nat.
Proof. unfold offline_calls. rewrite filter_app, List.length_app. reflexivity. Qed.

(** Among the positions below [n], one is [i] when [i] is below [n]. *)
Lemma count_position (i n : nat) :
  List.length (filter (fun j => (j =? i)%nat) (seq 0 n))
  = if (i <? n)%nat then 1%nat else 0%nat.
Proof.
  induction n as [|n IH]; [reflexivity|].
  rewrite seq_S, filter_app, List.length_app, IH. cbn [filter plus].
  destruct (Nat.eqb_spec n i) as [->|Hne].
  - rewrite Nat.ltb_irrefl.
    replace (i <? S i)%nat with true by (symmetry; apply Nat.ltb_lt; lia).
    reflexivity.
  - destruct (Nat.ltb_spec i n); destruct (Nat.ltb_spec i (S n));
      cbn; lia.
Qed.

(** The calls of a sweep about one device, counted for listener [i] and
    peer [p]. *)
Lemma offline_calls_swept (i : nat) (p : string) (t : datetime)
    (ls : list listener) (d : Device) :
  offline_calls i p (swept_calls t ls d)
  = if (String.eqb (id d) p && (silent_past_window d t && is_registered d)
        && (i <? List.length ls)%nat)%bool
    then 1%nat else 0%nat.
Proof.
  unfold swept_calls.
  destruct (silent_past_window d t && is_registered d)%bool;
    [|rewrite andb_false_r; reflexivity].
  rewrite andb_true_r. unfold offline_calls, notify.
  destruct (String.eqb (id d) p) eqn:Eid; cbn [andb].
  - rewrite <- count_position.
    induction (seq 0 (List.length ls)) as [|j js IH]; [reflexivity|].
    cbn [map filter who kind subject]. cbn [id set_is_registered] in *.
    rewrite Eid, String.eqb_refl, !andb_true_r.
    destruct (j =? i)%nat; cbn [List.length]; rewrite IH; reflexivity.
  - induction (seq 0 (List.length ls)) as [|j js IH]; [reflexivity|].
    cbn [map filter who kind subject]. cbn [id set_is_registered] in *.
    rewrite Eid, andb_false_r. exact IH.
Qed.

Lemma get_map_values {V} (f : V -> V) (k : string) (m : dict V) :
  get k (map (fun kv => (fst kv, f (snd kv))) m) = option_map f (get k m).
Proof.
  induction m as [|[k0 v0] m IH]; cbn; [reflexivity|].
  destruct (String.eqb k k0); [reflexivity|exact IH].
Qed.

(** A sweep makes no call about [p] for the devices filed under other
    ids. *)
Lemma offline_calls_others (i : nat) (p : string) (t : datetime)
    (ls : list listener) (m : dict Device) :
  Forall (fun kv => id (snd kv) = fst kv) m ->
  ~ In p (keys m) ->
  offline_calls i p (flat_map (fun kv => swept_calls t ls (snd kv)) m) = 0%nat.
Proof.
  induction m as [|[k d] m IH]; intros Hkeyed Hnot; [reflexivity|].
  inversion Hkeyed as [|? ? Hid Hrest]; subst. cbn in Hid, Hnot.
  cbn [flat_map snd]. rewrite offline_calls_app, offline_calls_swept, IH; auto.
  replace (String.eqb (id d) p) with false; [reflexivity|].
  symmetry. apply String.eqb_neq. rewrite Hid. intros ->. tauto.
Qed.

(** In one sweep every listener hears about the peer [p] once if its
    device is due, and not at all otherwise. *)
Lemma offline_calls_of_sweep (i : nat) (p : string) (t : datetime)
    (ls : list listener) (m : dict Device) (d : Device) :
  unique (keys m) = true ->
  Forall (fun kv => id (snd kv) = fst kv) m ->
  get p m = Some d ->
  (i < List.length ls)%nat ->
  offline_calls i p (flat_map (fun kv => swept_calls t ls (snd kv)) m)
  = if (silent_past_window d t && is_registered d)%bool then 1%nat else 0%nat.
Proof.
  intros Huniq Hkeyed Hget Hi.
  induction m as [|[k d0] m IH]; [discriminate|].
  inversion Hkeyed as [|? ? Hid Hrest]; subst. cbn in Hid.
  cbn [keys map fst unique] in Huniq. apply andb_prop in Huniq.
  destruct Huniq as [Hfresh Huniq]. apply negb_true_iff in Hfresh.
  cbn [flat_map snd]. rewrite offline_calls_app, offline_calls_swept.
  replace (i <? List.length ls)%nat with true
    by (symmetry; apply Nat.ltb_lt; exact Hi).
  rewrite andb_true_r. cbn [get] in Hget.
  destruct (String.eqb p k) eqn:Epk.
  - apply String.eqb_eq in Epk. subst k. injection Hget as ->.
    rewrite Hid, String.eqb_refl. cbn [andb].
    rewrite offline_calls_others; [lia|exact Hrest|].
    intros Hin.
    assert (existsb (String.eqb p) (keys m) = true)
      by (apply existsb_exists; exists p; split;
          [exact Hin|apply String.eqb_refl]).
    unfold keys in *. congruence.
  - replace (String.eqb (id d0) p) with false
      by (symmetry; rewrite Hid, String.eqb_sym; exact Epk).
    cbn [andb plus]. apply IH; assumption.
Qed.

Lemma sweep_ready_keyed (s : DiscoveryService) :
  sweep_ready s = true ->
  unique (keys (discovered_devices s)) = true
  /\ Forall (fun kv => id (snd kv) = fst kv) (discovered_devices s).
Proof.
  unfold sweep_ready, rows_ready. intros Hready.
  apply andb_prop in Hready. destruct Hready as [_ Hready].
  destruct (connection (db s)); [|discriminate].
  apply andb_prop in Hready. destruct Hready as [Hu Hall].
  split; [exact Hu|]. apply Forall_forall. intros kv Hin.
  rewrite forallb_forall in Hall. specialize (Hall kv Hin).
  apply andb_prop in Hall. destruct Hall as [Hid _].
  apply String.eqb_eq. exact Hid.
Qed.

Lemma existsb_pointwise {A} (f g : A -> bool) (l : list A) :
  (forall x, f x = g x) -> existsb f l = existsb g l.
Proof.
  intros Hfg. induction l as [|x l IH]; cbn; [reflexivity|].
  rewrite Hfg, IH. reflexivity.
Qed.

Lemma existsb_seq_shift (f : nat -> bool) (n : nat) :
  forall a, existsb f (seq (S a) n) = existsb (fun k => f (S k)) (seq a n).
Proof.
  induction n as [|n IH]; intros a; cbn; [reflexivity|].
  rewrite IH. reflexivity.
Qed.

(** Any number of sweeps, one after the other, for a device that is in the
    discovered set. *)
Lemma sweeps_report_once (p : string) (i n : nat) :
  forall (s : DiscoveryService) (w : World) (d : Device),
    running s = true ->
    sweep_ready s = true ->
    get p (discovered_devices s) = Some d ->
    (i < List.length (listeners s))%nat ->
    let passed :=
      (is_registered d
       && existsb (fun k => silent_past_window d (clock w (reads w + k)))
                  (seq 0 n))%bool in
    offline_calls i p (snd (fst (run (repeat Sweep n) s w)))
    = (if passed then 1%nat else 0%nat)
    /\ get p (discovered_devices (fst (fst (run (repeat Sweep n) s w))))
       = Some (if passed then set_is_registered false d else d).
Proof.
  induction n as [|n IH]; intros s w d Hrun Hready Hget Hi passed.
  - subst passed. cbn. rewrite andb_false_r. auto.
  - cbn [repeat run step].
    destruct (@check_offline_ready s w Hrun Hready)
      as (s1 & E & D & L & R & Rd & _ & _).
    rewrite E.
    set (t := clock w (reads w)) in *.
    set (w1 := {| clock := clock w; reads := S (reads w) |}).
    assert (Hget1 : get p (discovered_devices s1) = Some (swept t d))
      by (rewrite D, get_map_values, Hget; reflexivity).
    assert (Hi1 : (i < List.length (listeners s1))%nat) by (rewrite L; exact Hi).
    specialize (IH s1 w1 (swept t d) R Rd Hget1 Hi1).
    destruct (run (repeat Sweep n) s1 w1) as [[s2 calls2] w2] eqn:E2.
    cbn [fst snd] in *. destruct IH as [IHc IHg].
    destruct (@sweep_ready_keyed s Hready) as [Hu Hk].
    rewrite offline_calls_app, IHc, IHg.
    rewrite (@offline_calls_of_sweep i p t (listeners s) _ d Hu Hk Hget Hi).
    assert (Hlater :
      existsb (fun k => silent_past_window (swept t d)
                          (clock w1 (reads w1 + k))) (seq 0 n)
      = existsb (fun k => silent_past_window d (clock w (reads w + k)))
                (seq 1 n)).
    { rewrite existsb_seq_shift. apply existsb_pointwise. intros k.
      unfold silent_past_window, w1. cbn [clock reads].
      destruct (swept_same t d) as (_ & _ & _ & ->).
      rewrite Nat.add_succ_r. reflexivity. }
    rewrite Hlater. subst passed. cbn [seq existsb].
    rewrite Nat.add_0_r. fold t.
    unfold swept.
    destruct (silent_past_window d t) eqn:Epast;
      destruct (is_registered d) eqn:Ereg; cbn [andb orb];
      cbn [is_registered set_is_registered]; rewrite ?Ereg; cbn [andb];
      try (destruct (existsb _ (seq 1 n)); split; reflexivity);
      split; reflexivity.
Qed.

(** The sweep as such reports a silent peer once.  A discovery service is
    running, its sweep runs in the thread of the connection, the table is
    in step, and the service holds a registered device [d] for the peer
    [p]; it makes [n] sweeps in a row, the [k]-th when the clock shows
    [clock w (reads w + k)], and nothing else happens.  If at one of these
    sweeps the device has been unseen for more than 60 seconds, then over
    all [n] sweeps every listener is called exactly once with
    [("device_offline", p)], and the device ends with its flag cleared: the
    sweep that finds it due clears the flag and calls, the later ones pass
    it by.  If no sweep finds it due there is no call and the flag stays. *)
Lemma sweeps_in_owning_thread_report_once
    (s : DiscoveryService) (w : World) (p : string) (d : Device) (n i : nat) :
  running s = true ->
  sweep_ready s = true ->
  get p (discovered_devices s) = Some d ->
  is_registered d = true ->
  (i < List.length (listeners s))%nat ->
  let passed :=
    existsb (fun k => silent_past_window d (clock w (reads w + k))) (seq 0 n) in
  offline_calls i p (snd (fst (run (repeat Sweep n) s w)))
  = (if passed then 1%nat else 0%nat)
  /\ get p (discovered_devices (fst (fst (run (repeat Sweep n) s w))))
     = Some (if passed then set_is_registered false d else d).
Proof.
  intros Hrun Hready Hget Hreg Hi passed.
  destruct (@sweeps_report_once p i n s w d Hrun Hready Hget Hi) as [Hc Hg].
  rewrite Hreg in Hc, Hg. cbn [andb] in Hc, Hg. split; assumption.
Qed.

End DiscoverySweep.

(* --------------------------------------------------------------------- *)
(** ** Discovery: the sweep runs in a thread of its own *)
(* --------------------------------------------------------------------- *)

Section DiscoveryThreads.

Import device repositories discovery.

Lemma update_created_in (caller : thread) (d : Device)
    (database database' : Database) (res : result Device) :
  update caller d database = (res, database') ->
  created_in database' = created_in database.
Proof.
  unfold update. destruct (cursor caller database);
    [|intros [= _ <-]; reflexivity].
  destruct (_ && _)%bool; intros [= _ <-]; reflexivity.
Qed.

Lemma create_created_in (caller : thread) (d : Device)
    (database database' : Database) (res : result Device) :
  create caller d database = (res, database') ->
  created_in database' = created_in database.
Proof.
  unfold create. destruct (cursor caller database);
    [|intros [= _ <-]; reflexivity].
  destruct (_ || _)%bool; intros [= _ <-]; reflexivity.
Qed.

(** The repository answers the thread that opened the connection only. *)
Lemma update_Ok_owner (caller : thread) (d res : Device)
    (database database' : Database) :
  update caller d database = (Ok res, database') ->
  caller = created_in database.
Proof.
  unfold update, cursor. destruct (connection database); [|discriminate].
  destruct (Nat.eqb_spec caller (created_in database)); [auto|discriminate].
Qed.

Lemma update_foreign (caller : thread) (d : Device) (database : Database) :
  (caller =? created_in database)%nat = false ->
  exists e, update caller d database = (Raise e, database).
Proof.
  intros Hforeign. unfold update, cursor.
  destruct (connection database); [rewrite Hforeign|]; eexists; reflexivity.
Qed.

Lemma notify_kind (event_kind : string) (d : Device) (ls : list listener) :
  Forall (fun c => kind c = event_kind) (notify event_kind d ls).
Proof.
  unfold notify. apply Forall_forall. intros c Hin.
  apply in_map_iff in Hin. destruct Hin as (i & <- & _). reflexivity.
Qed.

Lemma notify_not_offline (event_kind : string) (d : Device)
    (ls : list listener) :
  event_kind <> "device_offline" ->
  Forall (fun c => kind c <> "device_offline") (notify event_kind d ls).
Proof.
  intros Hne. eapply Forall_impl; [|apply notify_kind].
  cbn. intros c ->. exact Hne.
Qed.

Lemma added_threads (caller : thread) (service_name : string)
    (info : option ServiceInfo)
    (s s' : DiscoveryService) (w w' : World) (calls : list call) :
  _on_device_added caller service_name info s w = (s', calls, w') ->
  _offline_thread s' = _offline_thread s
  /\ created_in (db s') = created_in (db s)
  /\ Forall (fun c => kind c <> "device_offline") calls.
Proof.
  unfold _on_device_added.
  destruct info as [info|]; [|intros [= <- <- <-]; auto].
  destruct (String.eqb _ _); [intros [= <- <- <-]; auto|].
  cbn [now].
  destruct (device.new _) as [fresh|]; [|intros [= <- <- <-]; auto].
  destruct (read _ _ _) as [[existing|]|]; [| |intros [= <- <- <-]; auto].
  - destruct (update _ _ _) as [[?|] db'] eqn:Eup; intros [= <- <- <-];
      [|auto].
    apply update_created_in in Eup. cbn. repeat split; auto.
    apply notify_not_offline. discriminate.
  - destruct (create _ _ _) as [[?|] db'] eqn:Ecr; intros [= <- <- <-];
      [|auto].
    apply create_created_in in Ecr. cbn. repeat split; auto.
    apply notify_not_offline. discriminate.
Qed.

Lemma removed_threads (caller : thread) (service_name : string)
    (s s' : DiscoveryService) (calls : list call) :
  _on_device_removed caller service_name s = (s', calls) ->
  _offline_thread s' = _offline_thread s
  /\ created_in (db s') = created_in (db s)
  /\ Forall (fun c => kind c <> "device_offline") calls.
Proof.
  unfold _on_device_removed.
  destruct (find _ _) as [[device_id d]|]; [|intros [= <- <-]; auto].
  destruct (update _ _ _) as [[?|] db'] eqn:Eup; intros [= <- <-]; [|auto].
  apply update_created_in in Eup. cbn in *. repeat split; auto.
  apply notify_not_offline. discriminate.
Qed.

(** A turn of the loop in a thread that did not open the connection: the
    first device that is due has its flag cleared, the repository raises,
    and the turn ends before any listener is called. *)
Lemma check_offline_items_foreign (caller : thread) (t : datetime)
    (items : list (string * Device)) :
  forall s : DiscoveryService,
    (caller =? created_in (db s))%nat = false ->
    exists e s',
      check_offline_items caller t items s = (e, s', [])
      /\ db s' = db s
      /\ _offline_thread s' = _offline_thread s.
Proof.
  induction items as [|[k d] rest IH]; intros s Hforeign;
    cbn [check_offline_items].
  - exists None, s. auto.
  - destruct (_ && _)%bool; [|apply IH; exact Hforeign].
    set (s1 := with_discovered _ s).
    destruct (@update_foreign caller (set_is_registered false d) (db s1))
      as [e Eup]; [exact Hforeign|].
    rewrite Eup. exists (Some e), s1. auto.
Qed.

Lemma sweep_foreign (s s' : DiscoveryService) (w w' : World)
    (calls : list call) :
  sweeper_owns_connection s = false ->
  check_offline s w = (s', calls, w') ->
  sweeper_owns_connection s' = false /\ calls = [].
Proof.
  unfold sweeper_owns_connection, check_offline.
  destruct (_offline_thread s) as [sweeper|] eqn:Hthread;
    [|intros _ [= <- <- <-]; rewrite Hthread; auto].
  intros Hforeign.
  destruct (running s);
    [|intros [= <- <- <-]; rewrite Hthread; auto].
  cbn [now].
  destruct (@check_offline_items_foreign sweeper (clock w (reads w))
              (discovered_devices s) s Hforeign) as (e & s1 & E & D & T).
  rewrite E. intros [= <- <- <-]. rewrite T, Hthread, D. auto.
Qed.

Lemma step_never_offline (a : action) (s s' : DiscoveryService)
    (w w' : World) (calls : list call) :
  sweeper_owns_connection s = false ->
  (forall caller sweeper, a = Start caller sweeper -> sweeper <> caller) ->
  step a s w = (s', calls, w') ->
  sweeper_owns_connection s' = false
  /\ Forall (fun c => kind c <> "device_offline") calls.
Proof.
  intros Hforeign Hnew.
  assert (Hkeep : forall s0 : DiscoveryService,
             _offline_thread s0 = _offline_thread s ->
             created_in (db s0) = created_in (db s) ->
             sweeper_owns_connection s0 = false).
  { intros s0 T D. unfold sweeper_owns_connection in *.
    rewrite T, D. exact Hforeign. }
  destruct a as [cb|caller sweeper| |caller n sc info|]; cbn [step].
  - intros [= <- <- <-]. auto.
  - intros [= <- <- <-]. split; [|constructor]. unfold start.
    destruct (update _ _ _) as [[res|] db'] eqn:Eup; cbn [snd].
    + pose proof (@update_created_in _ _ _ _ _ Eup) as D.
      apply update_Ok_owner in Eup. cbn in D, Eup.
      unfold sweeper_owns_connection. cbn. rewrite D, <- Eup.
      apply Nat.eqb_neq. exact (Hnew caller sweeper eq_refl).
    + apply Hkeep; reflexivity.
  - intros [= <- <- <-]. auto.
  - destruct sc; cbn [on_service_state_change]; intros Hstep.
    + destruct (@added_threads _ _ _ _ _ _ _ _ Hstep) as (T & D & Cs). auto.
    + destruct (_on_device_removed caller n s) as [s1 calls1] eqn:E1.
      injection Hstep as <- <- <-.
      destruct (@removed_threads _ _ _ _ _ E1) as (T & D & Cs). auto.
    + unfold _on_device_updated in Hstep.
      destruct (_on_device_removed caller n s) as [s1 calls1] eqn:E1.
      destruct (_on_device_added caller n info s1 w)
        as [[s2 calls2] w2] eqn:E2.
      injection Hstep as <- <- <-.
      destruct (@removed_threads _ _ _ _ _ E1) as (T1 & D1 & Cs1).
      destruct (@added_threads _ _ _ _ _ _ _ _ E2) as (T2 & D2 & Cs2).
      split; [apply Hkeep; congruence|].
      apply Forall_app. split; assumption.
  - intros Hstep.
    destruct (@sweep_foreign _ _ _ _ _ Hforeign Hstep) as [H ->].
    split; [exact H|constructor].
Qed.

(** No listener is ever told that a device went offline.  [start] updates
    the row of the local device in the thread of its caller, so that it
    gets as far as starting the thread of the sweep only when its caller
    opened the connection; the new thread is another one, and the
    repository raises at every update the sweep asks for. *)
Lemma offline_never_reported (actions : list action) :
  forall (s : DiscoveryService) (w : World),
    sweeper_owns_connection s = false ->
    (forall caller sweeper,
        In (Start caller sweeper) actions -> sweeper <> caller) ->
    Forall (fun c => kind c <> "device_offline")
           (snd (fst (run actions s w))).
Proof.
  induction actions as [|a rest IH]; intros s w Hforeign Hnew; cbn [run].
  - constructor.
  - destruct (step a s w) as [[s1 calls1] w1] eqn:E1.
    destruct (@step_never_offline a s s1 w w1 calls1 Hforeign) as [H1 Cs1];
      [intros caller sweeper ->; apply Hnew; left; reflexivity|exact E1|].
    assert (IH1 := IH s1 w1 H1
                     (fun caller sweeper Hin =>
                        Hnew caller sweeper (or_intror Hin))).
    destruct (run rest s1 w1) as [[s2 calls2] w2]. cbn [fst snd] in *.
    apply Forall_app. split; assumption.
Qed.

Lemma fresh_service_never_reports_offline
    (local : Device) (database : Database) (actions : list action)
    (w : World) :
  (forall caller sweeper,
      In (Start caller sweeper) actions -> sweeper <> caller) ->
  Forall (fun c => kind c <> "device_offline")
         (snd (fst (run actions (__init__ local database) w))).
Proof. intros Hnew. apply offline_never_reported; [reflexivity|exact Hnew]. Qed.

(** C7.  The peer [client] is advertised once to a discovery service that
    was created, told of the peer and started in the thread of the
    application, over a database opened in that thread; nothing is heard of
    the peer afterwards.  The sweep runs in the thread that [start] made,
    to which the repository answers with [ProgrammingError].  At its second
    turn the peer has been unseen for 75 seconds: the flag of the device is
    cleared, the update raises, and the turn ends before the listener is
    called.  From then on the flag is down and the sweep passes the device
    by: after six turns the device is marked offline, the listener has been
    called about the advertisement and about nothing else, and the row of
    the device still says that it is registered. *)
Theorem offline_not_reported_by_sweep_thread :
  get samples.uuid_b (discovered_devices (fst (fst (samples.silent_run 0))))
  = Some samples.discovered_client
  /\ running (fst (fst (samples.silent_run 0))) = true
  /\ _offline_thread (fst (fst (samples.silent_run 0)))
     = Some samples.sweep_thread
  /\ fst (update samples.sweep_thread
                 (set_is_registered false samples.discovered_client)
                 (db (fst (fst (samples.silent_run 0)))))
     = Raise ProgrammingError
  /\ silent_past_window samples.discovered_client
                        (clock samples.slow_world 3) = true
  /\ get samples.uuid_b (discovered_devices (fst (fst (samples.silent_run 2))))
     = Some (set_is_registered false samples.discovered_client)
  /\ offline_calls 0 samples.uuid_b (snd (fst (samples.silent_run 2))) = 0%nat
  /\ get samples.uuid_b (discovered_devices (fst (fst (samples.silent_run 6))))
     = Some (set_is_registered false samples.discovered_client)
  /\ map kind (snd (fst (samples.silent_run 6))) = ["device_added"]
  /\ offline_calls 0 samples.uuid_b (snd (fst (samples.silent_run 6))) = 0%nat
  /\ read samples.main_thread samples.uuid_b
          (db (fst (fst (samples.silent_run 6))))
     = Ok (Some samples.discovered_client).
Proof. vm_compute. repeat split; reflexivity. Qed.

End DiscoveryThreads.

(* --------------------------------------------------------------------- *)
(** ** Discovery: every reachable state is in step with the database *)
(* --------------------------------------------------------------------- *)

Section DiscoveryInStep.

Import device repositories discovery.

Lemma unique_NoDup (l : list string) : unique l = true <-> NoDup l.
Proof.
  induction l as [|k l IH]; cbn.
  - split; [constructor|reflexivity].
  - rewrite andb_true_iff, negb_true_iff, IH. split.
    + intros [Hn Hd]. constructor; [|exact Hd]. intros Hin.
      assert (existsb (String.eqb k) l = true)
        by (apply existsb_exists; exists k; split;
            [exact Hin|apply String.eqb_refl]).
      congruence.
    + intros Hnd. inversion Hnd as [|? ? Hn Hd]; subst. split; [|exact Hd].
      destruct (existsb (String.eqb k) l) eqn:E; [|reflexivity].
      apply existsb_exists in E. destruct E as (x & Hin & Heq).
      apply String.eqb_eq in Heq. subst. contradiction.
Qed.

Lemma valid_rows_NoDup (rows : list Device) :
  valid_rows rows = true <->
  NoDup (map id rows) /\ NoDup (map mac_address rows).
Proof.
  unfold valid_rows, row_keys. rewrite !map_map. cbn [fst snd].
  rewrite andb_true_iff, !unique_NoDup. reflexivity.
Qed.

Lemma mac_taken_false (k m : string) (rows : list Device) :
  mac_taken k m rows = false ->
  forall r, In r rows -> id r <> k -> mac_address r <> m.
Proof.
  unfold mac_taken. intros Hfalse r Hin Hid Hmac.
  assert (existsb (fun r0 => negb (String.eqb (id r0) k)
                             && String.eqb (mac_address r0) m) rows = true).
  { apply existsb_exists. exists r. split; [exact Hin|].
    apply andb_true_intro. split.
    - apply negb_true_iff. apply String.eqb_neq. exact Hid.
    - apply String.eqb_eq. exact Hmac. }
  congruence.
Qed.

Lemma id_taken_spec (k : string) (rows : list Device) :
  id_taken k rows = true <-> In k (map id rows).
Proof.
  unfold id_taken. rewrite existsb_exists, in_map_iff. split.
  - intros (r & Hin & Heq). apply String.eqb_eq in Heq. eauto.
  - intros (r & Heq & Hin). exists r. split; [exact Hin|].
    apply String.eqb_eq. exact Heq.
Qed.

(** The rows after an UPDATE from [d]. *)
Lemma updated_rows_valid (d : Device) (rows : list Device) :
  NoDup (map id rows) ->
  NoDup (map mac_address rows) ->
  mac_taken (id d) (mac_address d) rows = false ->
  NoDup (map mac_address
           (map (fun r => if String.eqb (id r) (id d)
                          then update_row d r else r) rows)).
Proof.
  intros Hids Hmacs Htaken.
  pose proof (@mac_taken_false _ _ _ Htaken) as Hfree. clear Htaken.
  induction rows as [|r rs IH]; cbn [map]; [constructor|].
  inversion Hids as [|? ? Hid Hids']; subst.
  inversion Hmacs as [|? ? Hmac Hmacs']; subst.
  constructor.
  - intros Hin. apply in_map_iff in Hin. destruct Hin as (x & Hx & Hin).
    apply in_map_iff in Hin. destruct Hin as (r' & <- & Hin').
    assert (Hr' : In r' (r :: rs)) by (right; exact Hin').
    assert (Hr : In r (r :: rs)) by (left; reflexivity).
    destruct (String.eqb (id r) (id d)) eqn:Er;
      destruct (String.eqb (id r') (id d)) eqn:Er'; cbn in Hx.
    + apply String.eqb_eq in Er, Er'. apply Hid. rewrite Er, <- Er'.
      apply in_map. exact Hin'.
    + apply String.eqb_neq in Er'. exact (Hfree r' Hr' Er' Hx).
    + apply String.eqb_neq in Er. symmetry in Hx. exact (Hfree r Hr Er Hx).
    + apply Hmac. rewrite <- Hx. apply in_map. exact Hin'.
  - apply IH; auto. intros r0 Hin0. apply Hfree. right. exact Hin0.
Qed.

(** What an UPDATE that goes through does to the keys of the table. *)
Lemma update_keeps_step (caller : thread) (d res : Device)
    (database database' : Database) (rows : list Device) :
  connection database = Some rows ->
  valid_rows rows = true ->
  update caller d database = (Ok res, database') ->
  exists rows',
    connection database' = Some rows'
    /\ valid_rows rows' = true
    /\ (forall k m, k <> id d ->
                    In (k, m) (row_keys rows) -> In (k, m) (row_keys rows'))
    /\ (id_taken (id d) rows = true ->
        In (id d, mac_address d) (row_keys rows') /\ port_check d = true).
Proof.
  intros Hconn Hvalid. unfold update, cursor. rewrite Hconn.
  destruct (caller =? created_in database)%nat; [|discriminate].
  apply valid_rows_NoDup in Hvalid. destruct Hvalid as [Hids Hmacs].
  destruct (id_taken (id d) rows) eqn:Etaken; cbn [andb].
  - destruct (mac_taken (id d) (mac_address d) rows) eqn:Emac; cbn [orb];
      [discriminate|].
    destruct (port_check d) eqn:Eport; cbn [negb]; [|discriminate].
    intros [= <- <-]. eexists. split; [reflexivity|]. split; [|split].
    + apply valid_rows_NoDup. split.
      * rewrite map_map.
        replace (map (fun x => id (if String.eqb (id x) (id d)
                                   then update_row d x else x)) rows)
          with (map id rows); [exact Hids|].
        apply map_ext. intros r. destruct (String.eqb (id r) (id d));
          reflexivity.
      * apply updated_rows_valid; assumption.
    + intros k m Hk Hin. unfold row_keys in *. rewrite map_map.
      apply in_map_iff in Hin. destruct Hin as (r & Heq & Hin).
      apply in_map_iff. exists r. split; [|exact Hin].
      injection Heq as Hid Hmac. subst k m.
      replace (String.eqb (id r) (id d)) with false
        by (symmetry; apply String.eqb_neq; exact Hk).
      reflexivity.
    + intros _. split; [|reflexivity].
      apply id_taken_spec in Etaken. apply in_map_iff in Etaken.
      destruct Etaken as (r & Hid & Hin).
      unfold row_keys. rewrite map_map. apply in_map_iff. exists r.
      split; [|exact Hin]. rewrite Hid, String.eqb_refl. cbn.
      rewrite Hid. reflexivity.
  - intros [= <- <-]. eexists. split; [reflexivity|].
    assert (Hsame : map (fun r => if String.eqb (id r) (id d)
                                  then update_row d r else r) rows = rows).
    { rewrite <- (map_id rows) at 2. apply map_ext_in. intros r Hin.
      destruct (String.eqb (id r) (id d)) eqn:E; [|reflexivity].
      apply String.eqb_eq in E.
      assert (id_taken (id d) rows = true)
        by (apply id_taken_spec; rewrite <- E; apply in_map; exact Hin).
      congruence. }
    rewrite Hsame. split; [apply valid_rows_NoDup; auto|].
    split; [auto|discriminate].
Qed.

(** What an INSERT that goes through does to the keys of the table. *)
Lemma create_keeps_step (caller : thread) (d res : Device)
    (database database' : Database) (rows : list Device) :
  connection database = Some rows ->
  valid_rows rows = true ->
  create caller d database = (Ok res, database') ->
  exists rows',
    connection database' = Some rows'
    /\ valid_rows rows' = true
    /\ (forall km, In km (row_keys rows) -> In km (row_keys rows'))
    /\ In (id d, mac_address d) (row_keys rows')
    /\ port_check d = true.
Proof.
  intros Hconn Hvalid. unfold create, cursor. rewrite Hconn.
  destruct (caller =? created_in database)%nat; [|discriminate].
  apply valid_rows_NoDup in Hvalid. destruct Hvalid as [Hids Hmacs].
  destruct (id_taken (id d) rows) eqn:Etaken; cbn [orb]; [discriminate|].
  destruct (mac_taken (id d) (mac_address d) rows) eqn:Emac; cbn [orb];
    [discriminate|].
  destruct (port_check d) eqn:Eport; cbn [negb]; [|discriminate].
  intros [= <- <-]. eexists. split; [reflexivity|].
  assert (Hfresh : ~ In (id d) (map id rows)).
  { intros Hin. apply id_taken_spec in Hin. congruence. }
  split; [|split; [|split; [|reflexivity]]].
  - apply valid_rows_NoDup. rewrite !map_app. cbn [map]. split.
    + apply NoDup_app; [exact Hids|repeat constructor; cbn; tauto|].
      intros k Hin [<-|[]]. exact (Hfresh Hin).
    + apply NoDup_app; [exact Hmacs|repeat constructor; cbn; tauto|].
      intros m Hin [<-|[]]. apply in_map_iff in Hin.
      destruct Hin as (r & Hmac & Hin).
      apply (@mac_taken_false _ _ _ Emac r Hin); [|exact Hmac].
      intros Heq. apply Hfresh. rewrite <- Heq. apply in_map. exact Hin.
  - intros km Hin. unfold row_keys. rewrite map_app. apply in_or_app. auto.
  - unfold row_keys. rewrite map_app. apply in_or_app. right. cbn. auto.
Qed.

(** A row read by id is a row of the table. *)
Lemma read_row (caller : thread) (k : string) (database : Database)
    (rows : list Device) (d : Device) :
  connection database = Some rows ->
  read caller k database = Ok (Some d) ->
  id d = k /\ In (k, mac_address d) (row_keys rows).
Proof.
  intros Hconn Hread. split; [exact (@read_id _ _ _ _ Hread)|].
  unfold read, cursor in Hread. rewrite Hconn in Hread.
  destruct (caller =? created_in database)%nat; cbn [bind] in Hread;
    [|discriminate].
  destruct (find _ rows) as [row|] eqn:Efind; [|discriminate].
  apply find_some in Efind. destruct Efind as [Hin Eid].
  apply String.eqb_eq in Eid. unfold _row_to_device in Hread.
  destruct (device.new row) as [d0|] eqn:Enew; cbn in Hread; [|discriminate].
  injection Hread as <-. apply device_new_inv in Enew. subst d0.
  unfold row_keys. apply in_map_iff. exists row. rewrite Eid. auto.
Qed.

Lemma NoDup_map_inj {A B} (f : A -> B) (l : list A) (x y : A) :
  NoDup (map f l) -> In x l -> In y l -> f x = f y -> x = y.
Proof.
  induction l as [|a l IH]; cbn; [tauto|].
  intros Hnd Hx Hy Hf. inversion Hnd as [|? ? Hn Hnd']; subst.
  destruct Hx as [->|Hx]; destruct Hy as [->|Hy]; auto.
  - exfalso. apply Hn. rewrite Hf. apply in_map. exact Hy.
  - exfalso. apply Hn. rewrite <- Hf. apply in_map. exact Hx.
Qed.

Lemma keys_set_absent {V} (k : string) (v : V) (m : dict V) :
  ~ In k (keys m) -> keys (py.set k v m) = keys m ++ [k].
Proof.
  induction m as [|[k0 v0] m IH]; cbn; intros Hnot; [reflexivity|].
  destruct (String.eqb k k0) eqn:E.
  - apply String.eqb_eq in E. subst. tauto.
  - cbn. f_equal. apply IH. tauto.
Qed.

Lemma unique_set {V} (k : string) (v : V) (m : dict V) :
  unique (keys m) = true -> unique (keys (py.set k v m)) = true.
Proof.
  intros Hu. destruct (in_dec string_dec k (keys m)) as [Hin|Hnot].
  - rewrite keys_set_present by exact Hin. exact Hu.
  - rewrite keys_set_absent by exact Hnot. apply unique_NoDup.
    apply unique_NoDup in Hu.
    apply NoDup_app; [exact Hu|repeat constructor; cbn; tauto|].
    intros x Hx [<-|[]]. exact (Hnot Hx).
Qed.

Lemma Forall_set_other {V} (P : string * V -> Prop) (k : string) (v : V)
    (m : dict V) :
  unique (keys m) = true ->
  P (k, v) ->
  (forall kv, In kv m -> fst kv <> k -> P kv) ->
  Forall P (py.set k v m).
Proof.
  intros Hu Hkv. apply unique_NoDup in Hu.
  induction m as [|[k0 v0] m IH]; cbn; intros Hm.
  - constructor; auto.
  - cbn in Hu. inversion Hu as [|? ? Hfresh Hu']; subst.
    destruct (String.eqb k k0) eqn:E.
    + apply String.eqb_eq in E. subst k0. constructor; [exact Hkv|].
      apply Forall_forall. intros kv Hin. apply Hm; [auto|].
      intros Heq. apply Hfresh. rewrite <- Heq. apply in_map. exact Hin.
    + apply String.eqb_neq in E. constructor.
      * apply Hm; [auto|]. cbn. congruence.
      * apply IH; [exact Hu'|]. intros kv Hin Hne. apply Hm; auto.
Qed.

Lemma del_In {V} (k : string) (m : dict V) (kv : string * V) :
  unique (keys m) = true ->
  In kv (py.del k m) -> In kv m /\ fst kv <> k.
Proof.
  intros Hu. apply unique_NoDup in Hu.
  induction m as [|[k0 v0] m IH]; cbn; [tauto|].
  cbn in Hu. inversion Hu as [|? ? Hfresh Hu']; subst.
  destruct (String.eqb k k0) eqn:E.
  - apply String.eqb_eq in E. subst k0. intros Hin. split; [auto|].
    intros Heq. apply Hfresh. rewrite <- Heq. apply in_map. exact Hin.
  - apply String.eqb_neq in E. intros [<-|Hin].
    + split; [auto|]. cbn. congruence.
    + destruct (IH Hu' Hin). auto.
Qed.

Lemma unique_del {V} (k : string) (m : dict V) :
  unique (keys m) = true -> unique (keys (py.del k m)) = true.
Proof.
  rewrite !unique_NoDup. induction m as [|[k0 v0] m IH]; cbn; [auto|].
  intros Hu. inversion Hu as [|? ? Hfresh Hu']; subst.
  destruct (String.eqb k k0); [exact Hu'|]. cbn. constructor; [|auto].
  intros Hin. apply Hfresh. apply (@keys_del _ k). exact Hin.
Qed.

(** The table of a service in step takes the updates of a sweep. *)
Lemma in_step_rows_ready (s : DiscoveryService) :
  in_step s -> rows_ready s = true.
Proof.
  intros (rows & Hconn & Hvalid & Hu & Hall).
  unfold rows_ready. rewrite Hconn, Hu. cbn [andb].
  apply valid_rows_NoDup in Hvalid. destruct Hvalid as [Hids Hmacs].
  apply forallb_forall. intros [k d] Hin.
  rewrite Forall_forall in Hall. destruct (Hall _ Hin) as (Hid & _ & Hport & Hrow).
  cbn [fst snd] in *. apply andb_true_intro. split;
    [apply String.eqb_eq; exact Hid|].
  apply in_map_iff in Hrow. destruct Hrow as (r0 & Heq & Hr0).
  injection Heq as Hid0 Hmac0.
  unfold update_accepted. rewrite Hport.
  apply andb_true_intro. split; [apply andb_true_intro; split; [|reflexivity]|].
  - apply negb_true_iff.
    destruct (mac_taken (id d) (mac_address d) rows) eqn:E; [|reflexivity].
    unfold mac_taken in E. apply existsb_exists in E.
    destruct E as (r & Hr & Hcond). apply andb_prop in Hcond.
    destruct Hcond as [Hne Hmac]. apply negb_true_iff in Hne.
    apply String.eqb_neq in Hne. apply String.eqb_eq in Hmac.
    exfalso. apply Hne.
    rewrite (@NoDup_map_inj _ _ mac_address rows r r0 Hmacs Hr Hr0);
      congruence.
  - apply forallb_forall. intros r Hr.
    destruct (String.eqb (id r) (id d)) eqn:E; [|reflexivity]. cbn.
    apply String.eqb_eq in E. apply String.eqb_eq.
    rewrite (@NoDup_map_inj _ _ id rows r r0 Hids Hr Hr0); congruence.
Qed.

(** Filing a device under its id keeps the service in step. *)
Lemma in_step_insert (s : DiscoveryService) (database' : Database)
    (rows rows' : list Device) (k : string) (d : Device) :
  in_step s ->
  connection (db s) = Some rows ->
  connection database' = Some rows' ->
  valid_rows rows' = true ->
  (forall k0 m, k0 <> k -> In (k0, m) (row_keys rows) ->
                In (k0, m) (row_keys rows')) ->
  id d = k ->
  k <> id (local_device s) ->
  port_check d = true ->
  In (k, mac_address d) (row_keys rows') ->
  in_step (with_discovered (py.set k d (discovered_devices s))
                           (with_db database' s)).
Proof.
  intros (rows0 & Hconn0 & _ & Hu & Hall) Hconn Hconn' Hvalid' Hkeep
         Hid Hk Hport Hrow.
  rewrite Hconn in Hconn0. injection Hconn0 as <-.
  exists rows'. cbn. split; [exact Hconn'|]. split; [exact Hvalid'|].
  split; [apply unique_set; exact Hu|].
  apply Forall_set_other; [exact Hu|cbn; auto|].
  intros kv Hin Hne. rewrite Forall_forall in Hall.
  destruct (Hall _ Hin) as (H1 & H2 & H3 & H4). auto.
Qed.

Lemma added_in_step (caller : thread) (service_name : string)
    (info : option ServiceInfo)
    (s s' : DiscoveryService) (w w' : World) (calls : list call) :
  in_step s ->
  _on_device_added caller service_name info s w = (s', calls, w') ->
  in_step s'.
Proof.
  intros Hstep. pose proof Hstep as (rows & Hconn & Hvalid & Hu & Hall).
  unfold _on_device_added.
  destruct info as [info|]; [|intros [= <- <- <-]; exact Hstep].
  set (device_id := property "device_id" "" info).
  destruct (String.eqb device_id (id (local_device s))) eqn:Eself;
    [intros [= <- <- <-]; exact Hstep|].
  apply String.eqb_neq in Eself. cbn [now].
  destruct (device.new _) as [fresh|] eqn:Enew;
    [|intros [= <- <- <-]; exact Hstep].
  apply device_new_inv in Enew.
  destruct (read caller device_id (db s)) as [[existing|]|] eqn:Eread;
    [| |intros [= <- <- <-]; exact Hstep].
  - destruct (@read_row _ _ _ _ _ Hconn Eread) as [Hid Hrow].
    destruct (update caller _ (db s)) as [[res|] db'] eqn:Eup;
      [|intros [= <- <- <-]; exact Hstep].
    intros [= <- <- <-].
    destruct (@update_keeps_step _ _ _ _ _ _ Hconn Hvalid Eup)
      as (rows' & Hconn' & Hvalid' & Hkeep & Hnew).
    cbn [id mac_address set_last_seen set_is_registered set_ip_address]
      in Hkeep, Hnew.
    destruct Hnew as [Hin' Hport'].
    { apply id_taken_spec. rewrite Hid.
      change device_id with (fst (device_id, mac_address existing)).
      unfold row_keys in Hrow. apply in_map_iff in Hrow.
      destruct Hrow as (r & Heq & Hr). injection Heq as Hr1 Hr2.
      cbn [fst]. rewrite <- Hr1. apply in_map. exact Hr. }
    rewrite Hid in Hkeep, Hin'.
    apply (@in_step_insert s db' rows rows'); auto.
  - destruct (create caller fresh (db s)) as [[res|] db'] eqn:Ecr;
      [|intros [= <- <- <-]; exact Hstep].
    intros [= <- <- <-].
    destruct (@create_keeps_step _ _ _ _ _ _ Hconn Hvalid Ecr)
      as (rows' & Hconn' & Hvalid' & Hkeep & Hin' & Hport').
    assert (Hid : id fresh = device_id) by (subst fresh; reflexivity).
    rewrite Hid in Hin'.
    apply (@in_step_insert s db' rows rows'); auto.
Qed.

Lemma removed_in_step (caller : thread) (service_name : string)
    (s s' : DiscoveryService) (calls : list call) :
  in_step s ->
  _on_device_removed caller service_name s = (s', calls) ->
  in_step s'.
Proof.
  intros Hstep. pose proof Hstep as (rows & Hconn & Hvalid & Hu & Hall).
  unfold _on_device_removed.
  destruct (find _ (discovered_devices s)) as [[device_id d]|] eqn:Efind;
    [|intros [= <- <-]; exact Hstep].
  apply find_some in Efind. destruct Efind as [Hin _].
  rewrite Forall_forall in Hall.
  destruct (Hall _ Hin) as (Hid & _ & _ & _). cbn [fst snd] in Hid.
  set (s1 := with_discovered (py.del device_id (discovered_devices s)) s).
  assert (Hdel : forall kv, In kv (discovered_devices s1) ->
                            In kv (discovered_devices s)
                            /\ fst kv <> device_id).
  { intros kv Hkv. apply (@del_In _ device_id _ kv Hu Hkv). }
  destruct (update caller _ (db s1)) as [[res|] db'] eqn:Eup;
    intros [= <- <-].
  - destruct (@update_keeps_step _ _ _ _ _ _ Hconn Hvalid Eup)
      as (rows' & Hconn' & Hvalid' & Hkeep & _).
    cbn [id set_is_registered] in Hkeep. rewrite Hid in Hkeep.
    exists rows'. cbn. split; [exact Hconn'|]. split; [exact Hvalid'|].
    split; [apply unique_del; exact Hu|].
    apply Forall_forall. intros kv Hkv. destruct (Hdel kv Hkv) as [Hold Hne].
    destruct (Hall _ Hold) as (H1 & H2 & H3 & H4). auto.
  - exists rows. cbn. split; [exact Hconn|]. split; [exact Hvalid|].
    split; [apply unique_del; exact Hu|].
    apply Forall_forall. intros kv Hkv. destruct (Hdel kv Hkv) as [Hold Hne].
    exact (Hall _ Hold).
Qed.

Lemma set_In_other {V} (k : string) (v : V) (m : dict V)
    (kv : string * V) :
  In kv m -> fst kv <> k -> In kv (py.set k v m).
Proof.
  induction m as [|[k0 v0] m IH]; cbn; [tauto|].
  intros [<-|Hin] Hne.
  - replace (String.eqb k k0) with false
      by (symmetry; apply String.eqb_neq; cbn in Hne; congruence).
    left. reflexivity.
  - destruct (String.eqb k k0); right; auto.
Qed.

(** The loop of the sweep keeps the service in step, in whatever thread
    it runs and whether or not the repository raises. *)
Lemma check_offline_items_in_step (caller : thread) (t : datetime)
    (items : list (string * Device)) :
  forall (s s' : DiscoveryService) (e : option exn) (calls : list call),
    in_step s ->
    unique (keys items) = true ->
    Forall (fun kv => In kv (discovered_devices s)) items ->
    check_offline_items caller t items s = (e, s', calls) ->
    in_step s'.
Proof.
  induction items as [|[k d] rest IH]; intros s s' e calls Hstep Hu Hitems.
  - intros [= <- <- <-]. exact Hstep.
  - cbn [check_offline_items].
    inversion Hitems as [|? ? Hin Hrest]; subst.
    cbn [keys map fst unique] in Hu. apply andb_prop in Hu.
    destruct Hu as [Hfresh Hu]. apply negb_true_iff in Hfresh.
    destruct (_ && is_registered d)%bool;
      [|exact (IH s s' e calls Hstep Hu Hrest)].
    pose proof Hstep as (rows & Hconn & Hvalid & Hud & Hall).
    rewrite Forall_forall in Hall.
    destruct (Hall _ Hin) as (Hid & Hk & Hport & Hrow). cbn [fst snd] in *.
    set (d' := set_is_registered false d).
    set (s1 := with_discovered (py.set k d' (discovered_devices s)) s).
    assert (Hstep1 : in_step s1).
    { apply (@in_step_insert s (db s) rows rows k d'); auto. }
    assert (Hrest1 : Forall (fun kv => In kv (discovered_devices s1)) rest).
    { apply Forall_forall. intros kv Hkv. unfold s1. cbn.
      rewrite Forall_forall in Hrest. apply set_In_other; [auto|].
      intros Heq.
      assert (existsb (String.eqb k) (map fst rest) = true).
      { apply existsb_exists. exists (fst kv). split; [apply in_map; exact Hkv|].
        apply String.eqb_eq. symmetry. exact Heq. }
      unfold keys in *. congruence. }
    destruct (update caller d' (db s1)) as [[res|err] db'] eqn:Eup.
    + destruct (check_offline_items caller t rest (with_db db' s1))
        as [[e2 s3] calls2] eqn:E2.
      intros [= <- <- <-].
      destruct (@update_keeps_step _ _ _ _ _ _ Hconn Hvalid Eup)
        as (rows' & Hconn' & Hvalid' & Hkeep & Hnew).
      cbn [id mac_address set_is_registered d'] in Hkeep, Hnew.
      rewrite Hid in Hkeep, Hnew.
      destruct Hnew as [Hrow' _].
      { apply id_taken_spec. unfold row_keys in Hrow.
        apply in_map_iff in Hrow. destruct Hrow as (r & Heq & Hr).
        injection Heq as Hr1 Hr2. rewrite <- Hr1. apply in_map. exact Hr. }
      apply (IH (with_db db' s1) s3 e2 calls2); [|exact Hu|exact Hrest1|exact E2].
      apply (@in_step_insert s db' rows rows' k d'); auto.
    + intros [= <- <- <-]. exact Hstep1.
Qed.

Lemma sweep_in_step (s s' : DiscoveryService) (w w' : World)
    (calls : list call) :
  in_step s ->
  check_offline s w = (s', calls, w') ->
  in_step s'.
Proof.
  intros Hstep. unfold check_offline.
  destruct (_offline_thread s) as [sweeper|];
    [|intros [= <- <- <-]; exact Hstep].
  destruct (running s); [|intros [= <- <- <-]; exact Hstep].
  cbn [now].
  destruct (check_offline_items _ _ _ s) as [[e s1] calls1] eqn:E.
  intros [= <- <- <-].
  eapply check_offline_items_in_step; [exact Hstep| | |exact E].
  - destruct Hstep as (rows & _ & _ & Hu & _). exact Hu.
  - apply Forall_forall. auto.
Qed.

Lemma start_in_step (caller sweeper : thread) (s : DiscoveryService) :
  in_step s -> in_step (snd (start caller sweeper s)).
Proof.
  intros (rows & Hconn & Hvalid & Hu & Hall). unfold start.
  destruct (update _ _ _) as [[res|] db'] eqn:Eup; cbn [snd].
  - destruct (@update_keeps_step _ _ _ _ _ _ Hconn Hvalid Eup)
      as (rows' & Hconn' & Hvalid' & Hkeep & _).
    cbn [id set_is_registered local_device with_local_device with_running]
      in Hkeep.
    exists rows'. cbn. split; [exact Hconn'|]. split; [exact Hvalid'|].
    split; [exact Hu|]. apply Forall_forall. intros kv Hin.
    rewrite Forall_forall in Hall.
    destruct (Hall _ Hin) as (H1 & H2 & H3 & H4). auto.
  - exists rows. cbn. auto.
Qed.

Lemma step_in_step (a : action) (s s' : DiscoveryService) (w w' : World)
    (calls : list call) :
  in_step s -> step a s w = (s', calls, w') -> in_step s'.
Proof.
  intros Hstep. destruct a as [cb|caller sweeper| |caller n sc info|];
    cbn [step].
  - intros [= <- <- <-]. exact Hstep.
  - intros [= <- <- <-]. apply start_in_step. exact Hstep.
  - intros [= <- <- <-]. exact Hstep.
  - destruct sc; cbn [on_service_state_change]; intros Hrun.
    + exact (@added_in_step _ _ _ _ _ _ _ _ Hstep Hrun).
    + destruct (_on_device_removed caller n s) as [s1 calls1] eqn:E1.
      injection Hrun as <- <- <-.
      exact (@removed_in_step _ _ _ _ _ Hstep E1).
    + unfold _on_device_updated in Hrun.
      destruct (_on_device_removed caller n s) as [s1 calls1] eqn:E1.
      destruct (_on_device_added caller n info s1 w)
        as [[s2 calls2] w2] eqn:E2.
      injection Hrun as <- <- <-.
      exact (@added_in_step _ _ _ _ _ _ _ _
               (@removed_in_step _ _ _ _ _ Hstep E1) E2).
  - intros Hrun. exact (@sweep_in_step _ _ _ _ _ Hstep Hrun).
Qed.

(** Every state that a fresh discovery service reaches, over a connected
    database that keeps its keys, is in step with the database. *)
Lemma reachable_in_step (actions : list action) :
  forall (s : DiscoveryService) (w : World),
    in_step s -> in_step (fst (fst (run actions s w))).
Proof.
  induction actions as [|a rest IH]; intros s w Hstep; cbn [run];
    [exact Hstep|].
  destruct (step a s w) as [[s1 calls1] w1] eqn:E1.
  pose proof (@step_in_step _ _ _ _ _ _ Hstep E1) as Hstep1.
  specialize (IH s1 w1 Hstep1).
  destruct (run rest s1 w1) as [[s2 calls2] w2]. exact IH.
Qed.

Lemma init_in_step (local : Device) (database : Database) :
  valid_db database = true -> in_step (__init__ local database).
Proof.
  unfold valid_db. intros Hvalid.
  destruct (connection database) as [rows|] eqn:Hconn; [|discriminate].
  exists rows. cbn. repeat split; auto.
Qed.

(** The table never stands in the way of a sweep: whatever the browser
    reports and whenever the sweeps run, in whatever threads, the rows of a
    service that starts from [__init__] over such a database take the
    update of every discovered device.  What is left for the repository to
    refuse a sweep is the thread it runs in. *)
Lemma reachable_rows_ready (local : Device) (database : Database)
    (actions : list action) (w : World) :
  valid_db database = true ->
  rows_ready (fst (fst (run actions (__init__ local database) w))) = true.
Proof.
  intros Hvalid. apply in_step_rows_ready. apply reachable_in_step.
  apply init_in_step. exact Hvalid.
Qed.

End DiscoveryInStep.

(* --------------------------------------------------------------------- *)
(** ** The theorems on sample inputs *)
(* --------------------------------------------------------------------- *)

Section Instances.

Import input_event input_relay connection discovery.

Local Existing Instance reference.lib.

(** C10 on a relay that was never started. *)
Lemma queue_event_not_running_witness :
  is_running samples.idle_relay = false
  /\ queue_event (samples.key_event "e1" "A") samples.idle_relay
     = (false, samples.idle_relay).
Proof.
  split; [reflexivity|].
  apply (@queue_event_not_running _ samples.idle_relay). reflexivity.
Defined.

(** C5 with capacity 2 and three calls. *)
Lemma queue_event_backpressure_witness :
  fst (queue_events samples.three_events samples.small_relay)
  = [true; true; false]
  /\ events_failed
       (metrics (snd (queue_events samples.three_events samples.small_relay)))
     = 1.
Proof.
  destruct (@queue_event_backpressure _ samples.small_relay
              samples.three_events 2 1) as (Hoks & _ & Hfailed & _);
    [reflexivity | reflexivity | reflexivity | lia | reflexivity |].
  split; [exact Hoks | exact Hfailed].
Defined.

(** The check at work on a [dict]: a mouse move without its y is
    refused. *)
Lemma move_event_without_y_refused :
  exists msg,
    input_event.new samples.move_event_without_y = Raise (ValueError msg).
Proof.
  apply (proj1 (@dict_payload_checked_at_construction
                  samples.move_event_without_y _ eq_refl)).
  reflexivity.
Qed.

(** C6 on a key press with modifiers. *)
Lemma InputEvent_dict_roundtrip_witness :
  from_dict "fresh" (to_dict (samples.key_event "e1" "A"))
  = Ok (samples.key_event "e1" "A").
Proof.
  apply (@InputEvent_dict_roundtrip reference.lib
           (samples.key_event "e1" "A")); vm_compute; reflexivity.
Defined.



(** C3 as stated fails: after a length prefix of 2 MiB [receive_message]
    returns [None] but the handler has not given up its connection; its
    socket is still there, and the next [receive_message] on it reads the
    bytes that follow as a frame and returns their message. *)
Lemma oversized_length_connection_kept :
  fst (receive_message 30 samples.oversized_receiver) = None
  /\ ~ abandoned (snd (receive_message 30 samples.oversized_receiver))
  /\ fst (receive_message 30
            (snd (receive_message 30 samples.oversized_receiver)))
     = Some samples.hello_message.
Proof.
  vm_compute. split; [reflexivity|]. split; [discriminate|reflexivity].
Qed.

(** C3 as the code has it, on the same input. *)
Lemma receive_message_oversized_witness :
  exists cs',
    receive_message 30 samples.oversized_receiver
    = (None,
       with_socket
         (Some (with_rx (map Data cs' ++ [])
                        (with_timeout 30 samples.idle_socket)))
         samples.oversized_receiver)
    /\ List.concat cs' = samples.hello_frame.
Proof.
  apply (@receive_message_oversized reference.lib samples.oversized_receiver
           (with_rx [Data (samples.prefix_2MiB ++ samples.hello_frame)]
                    samples.idle_socket)
           [samples.prefix_2MiB ++ samples.hello_frame] []
           samples.prefix_2MiB samples.hello_frame 30).
  - reflexivity.
  - reflexivity.
  - repeat constructor. discriminate.
  - cbn [List.concat]. rewrite app_nil_r. reflexivity.
  - reflexivity.
  - vm_compute. reflexivity.
  - change (0 <= 30 <= 2147483). lia.
Defined.

(** The sweep in the thread of the connection, on a peer seen once:
    sweeps 50, 75, 100 and 125 seconds later. *)
Example sweeps_in_owning_thread_report_once_run :
  offline_calls 0 samples.uuid_b
    (snd (fst (run (repeat Sweep 4) samples.discovering_in_one_thread
                   (snd (samples.silent_run 0)))))
  = 1%nat
  /\ option_map device.is_registered
       (get samples.uuid_b
          (discovered_devices
             (fst (fst (run (repeat Sweep 4) samples.discovering_in_one_thread
                            (snd (samples.silent_run 0)))))))
     = Some false.
Proof.
  destruct (@sweeps_in_owning_thread_report_once
              samples.discovering_in_one_thread (snd (samples.silent_run 0))
              samples.uuid_b samples.discovered_client 4 0)
    as [Hcalls Hflag].
  - vm_compute. reflexivity.
  - vm_compute. reflexivity.
  - vm_compute. reflexivity.
  - reflexivity.
  - vm_compute. lia.
  - split; [exact Hcalls|]. rewrite Hflag. reflexivity.
Qed.

End Instances.

(* ===================================================================== *)
(** * Further properties of the code *)
(* ===================================================================== *)

(* --------------------------------------------------------------------- *)
(** ** Regular expressions: the matcher decides the language *)
(* --------------------------------------------------------------------- *)

Section Validators.

Import re validators.

Local Open Scope string_scope.

(** Brzozowski's derivatives decide the language. *)
Lemma append_nil_inv (s1 s2 : string) :
  s1 ++ s2 = EmptyString -> s1 = EmptyString /\ s2 = EmptyString.
Proof. destruct s1; cbn; [auto|discriminate]. Qed.

Lemma lang_Seq_inv (r1 r2 : regex) (s : string) :
  lang (Seq r1 r2) s ->
  exists s1 s2, s = s1 ++ s2 /\ lang r1 s1 /\ lang r2 s2.
Proof. intros Hl. inversion Hl; subst. eauto. Qed.

Lemma nullable_lang (r : regex) : nullable r = true <-> lang r EmptyString.
Proof.
  induction r as [| |p|r1 IH1 r2 IH2|r1 IH1 r2 IH2|r IH]; cbn.
  - split; [discriminate|]. intros Hl. inversion Hl.
  - split; [constructor|reflexivity].
  - split; [discriminate|]. intros Hl. inversion Hl.
  - rewrite andb_true_iff, IH1, IH2. split.
    + intros [H1 H2]. change EmptyString with (EmptyString ++ EmptyString).
      constructor; assumption.
    + intros Hl. apply lang_Seq_inv in Hl.
      destruct Hl as (s1 & s2 & Heq & H1 & H2). symmetry in Heq.
      apply append_nil_inv in Heq. destruct Heq; subst. auto.
  - rewrite orb_true_iff, IH1, IH2. split.
    + intros [Hl|Hl]; [apply lang_Alt_l|apply lang_Alt_r]; exact Hl.
    + intros Hl. inversion Hl; subst; auto.
  - split; [constructor|reflexivity].
Qed.

Lemma lang_Star_cons (r : regex) (c : ascii) (s : string) :
  lang (Star r) (String c s) ->
  exists s1 s2, s = s1 ++ s2 /\ lang r (String c s1) /\ lang (Star r) s2.
Proof.
  intros Hl. remember (Star r) as r0 eqn:Er. remember (String c s) as s0 eqn:Es.
  induction Hl as [| | | | | |r' s1 s2 H1 _ H2 IH2]; try discriminate.
  injection Er as ->. destruct s1 as [|c1 s1].
  - cbn in Es. apply IH2; [reflexivity|exact Es].
  - cbn in Es. injection Es as -> <-. exists s1, s2. auto.
Qed.

Lemma deriv_lang (r : regex) :
  forall (c : ascii) (s : string), lang (deriv c r) s <-> lang r (String c s).
Proof.
  induction r as [| |p|r1 IH1 r2 IH2|r1 IH1 r2 IH2|r IH]; intros c s; cbn.
  - split; intros Hl; inversion Hl.
  - split; intros Hl; inversion Hl.
  - destruct (p c) eqn:Ep; split; intros Hl.
    + inversion Hl; subst. constructor. exact Ep.
    + inversion Hl; subst. constructor.
    + inversion Hl.
    + inversion Hl; subst. congruence.
  - assert (Hfst : forall s, lang (Seq (deriv c r1) r2) s ->
                             lang (Seq r1 r2) (String c s)).
    { intros s0 Hl. apply lang_Seq_inv in Hl.
      destruct Hl as (s1 & s2 & -> & H1 & H2).
      apply IH1 in H1. change (String c (s1 ++ s2)) with (String c s1 ++ s2).
      constructor; assumption. }
    assert (Hinv : lang (Seq r1 r2) (String c s) ->
                   (exists s1 s2, s = s1 ++ s2 /\ lang r1 (String c s1)
                                  /\ lang r2 s2)
                   \/ (lang r1 EmptyString /\ lang r2 (String c s))).
    { intros Hl. apply lang_Seq_inv in Hl.
      destruct Hl as (s1 & s2 & Heq & H1 & H2).
      destruct s1 as [|c1 s1]; cbn in Heq.
      - right. subst. auto.
      - injection Heq as -> ->. left. eauto. }
    destruct (nullable r1) eqn:En; split; intros Hl.
    + inversion Hl; subst; [apply Hfst; assumption|].
      apply nullable_lang in En. apply IH2 in H2.
      change (String c s) with (EmptyString ++ String c s).
      constructor; assumption.
    + destruct (Hinv Hl) as [(s1 & s2 & -> & H1 & H2)|[H1 H2]].
      * apply lang_Alt_l. constructor; [apply IH1; exact H1|exact H2].
      * apply lang_Alt_r. apply IH2. exact H2.
    + apply Hfst. exact Hl.
    + destruct (Hinv Hl) as [(s1 & s2 & -> & H1 & H2)|[H1 H2]].
      * constructor; [apply IH1; exact H1|exact H2].
      * apply nullable_lang in H1. congruence.
  - split; intros Hl; inversion Hl; subst;
      [apply lang_Alt_l|apply lang_Alt_r|apply lang_Alt_l|apply lang_Alt_r];
      apply IH1 || apply IH2; assumption.
  - split; intros Hl.
    + apply lang_Seq_inv in Hl. destruct Hl as (s1 & s2 & -> & H1 & H2).
      apply IH in H1.
      change (String c (s1 ++ s2)) with (String c s1 ++ s2).
      constructor; assumption.
    + apply lang_Star_cons in Hl. destruct Hl as (s1 & s2 & -> & H1 & H2).
      constructor; [apply IH; exact H1|exact H2].
Qed.

Lemma accepts_lang (s : string) :
  forall r : regex, accepts r s = true <-> lang r s.
Proof.
  induction s as [|c s IH]; intros r; cbn.
  - apply nullable_lang.
  - rewrite IH. apply deriv_lang.
Qed.

Lemma shape_app (ps1 ps2 : list (ascii -> bool)) :
  forall s : string,
    shape (ps1 ++ ps2) s = true <->
    exists s1 s2, s = s1 ++ s2 /\ shape ps1 s1 = true /\ shape ps2 s2 = true.
Proof.
  induction ps1 as [|p ps1 IH]; intros s; cbn [app].
  - split.
    + intros Hs. exists EmptyString, s. auto.
    + intros (s1 & s2 & -> & H1 & H2). destruct s1; [exact H2|discriminate].
  - destruct s as [|c s]; cbn [shape].
    + split; [discriminate|]. intros (s1 & s2 & Heq & H1 & H2).
      destruct s1; discriminate.
    + rewrite andb_true_iff, IH. split.
      * intros (Hp & s1 & s2 & -> & H1 & H2). exists (String c s1), s2.
        cbn. rewrite Hp, H1. auto.
      * intros (s1 & s2 & Heq & H1 & H2). destruct s1 as [|c1 s1];
          [discriminate|]. cbn in Heq, H1. injection Heq as -> ->.
        apply andb_prop in H1. destruct H1 as [Hp H1]. eauto 6.
Qed.

Lemma classes_lang (r : regex) :
  forall (ps : list (ascii -> bool)) (s : string),
    classes r = Some ps -> (lang r s <-> shape ps s = true).
Proof.
  induction r as [| |p|r1 IH1 r2 IH2|r1 IH1 r2 IH2|r IH]; intros ps s;
    cbn [classes]; try discriminate.
  - intros [= <-]. split.
    + intros Hl. inversion Hl. reflexivity.
    + destruct s; [constructor|discriminate].
  - intros [= <-]. split.
    + intros Hl. inversion Hl; subst. cbn. rewrite H0. reflexivity.
    + destruct s as [|c s]; cbn [shape]; [discriminate|].
      destruct s; cbn [shape].
      * rewrite andb_true_r. apply lang_Cls.
      * rewrite andb_false_r. discriminate.
  - destruct (classes r1) as [ps1|]; [|discriminate].
    destruct (classes r2) as [ps2|]; [|discriminate].
    intros [= <-]. rewrite shape_app. split.
    + intros Hl. apply lang_Seq_inv in Hl.
      destruct Hl as (s1 & s2 & -> & H1 & H2).
      exists s1, s2. split; [reflexivity|].
      split; [apply (IH1 ps1); auto|apply (IH2 ps2); auto].
    + intros (s1 & s2 & -> & H1 & H2).
      constructor; [apply (IH1 ps1); auto|apply (IH2 ps2); auto].
Qed.

Lemma strip_final_newline_app (s : string) :
  strip_final_newline (s ++ newline) = Some s.
Proof.
  induction s as [|c s IH]; [reflexivity|].
  cbn [append strip_final_newline]. rewrite IH.
  destruct (s ++ newline) eqn:E; [destruct s; discriminate|reflexivity].
Qed.

Lemma strip_final_newline_inv (s : string) :
  forall s', strip_final_newline s = Some s' -> s = s' ++ newline.
Proof.
  induction s as [|c s IH]; intros s'; cbn [strip_final_newline];
    [discriminate|].
  destruct s as [|c1 s1].
  - destruct (Ascii.eqb_spec c "010") as [->|Hne]; [|discriminate].
    intros [= <-]. reflexivity.
  - destruct (strip_final_newline (String c1 s1)) as [t|]; [|discriminate].
    intros [= <-]. cbn [append]. f_equal. apply IH. reflexivity.
Qed.

Lemma match_anchored_lang (r : regex) (s : string) :
  match_anchored r s = true <->
  lang r s \/ exists body, s = body ++ newline /\ lang r body.
Proof.
  unfold match_anchored. rewrite orb_true_iff, accepts_lang. split.
  - intros [Hl|Hl]; [left; exact Hl|right].
    destruct (strip_final_newline s) as [body|] eqn:E; [|discriminate].
    exists body. split; [apply strip_final_newline_inv; exact E|].
    apply accepts_lang. exact Hl.
  - intros [Hl|(body & -> & Hl)]; [left; exact Hl|right].
    rewrite strip_final_newline_app. apply accepts_lang. exact Hl.
Qed.

(** X1.  [validate_mac_address] accepts exactly the strings of six pairs
    of hexadecimal digits, upper or lower case, each pair but the last
    followed by a colon or a hyphen (the two may be mixed in one address),
    and the same strings with one newline after them: [$] also matches
    before a newline that ends the string. *)
Theorem validate_mac_address_shape (mac : string) :
  validate_mac_address mac = true <->
  shape mac_classes mac = true
  \/ exists body, mac = body ++ newline /\ shape mac_classes body = true.
Proof.
  unfold validate_mac_address. rewrite match_anchored_lang.
  assert (Hc : classes mac_pattern = Some mac_classes) by reflexivity.
  split.
  - intros [Hl|(body & -> & Hl)]; [left|right; exists body; split; auto];
      apply (@classes_lang _ _ _ Hc); exact Hl.
  - intros [Hs|(body & -> & Hs)]; [left|right; exists body; split; auto];
      apply (@classes_lang _ _ _ Hc); exact Hs.
Qed.

(** X2.  [validate_uuid] accepts exactly the strings of 8, 4, 4, 4 and 12
    hexadecimal digits, upper or lower case, with hyphens between the
    groups, and the same strings with one newline after them.  No digit is
    looked at for the version or the variant of the UUID. *)
Theorem validate_uuid_shape (uuid_str : string) :
  validate_uuid uuid_str = true <->
  shape uuid_classes uuid_str = true
  \/ exists body, uuid_str = body ++ newline /\ shape uuid_classes body = true.
Proof.
  unfold validate_uuid. rewrite match_anchored_lang.
  assert (Hc : classes uuid_pattern = Some uuid_classes) by reflexivity.
  split.
  - intros [Hl|(body & -> & Hl)]; [left|right; exists body; split; auto];
      apply (@classes_lang _ _ _ Hc); exact Hl.
  - intros [Hs|(body & -> & Hs)]; [left|right; exists body; split; auto];
      apply (@classes_lang _ _ _ Hc); exact Hs.
Qed.

Lemma all_chars_app (p : ascii -> bool) (s1 s2 : string) :
  all_chars p (s1 ++ s2) = (all_chars p s1 && all_chars p s2)%bool.
Proof.
  induction s1 as [|c s1 IH]; cbn; [reflexivity|].
  rewrite IH, andb_assoc. reflexivity.
Qed.

Lemma lang_Star_Cls (p : ascii -> bool) (s : string) :
  lang (Star (Cls p)) s <-> all_chars p s = true.
Proof.
  split.
  - intros Hl. remember (Star (Cls p)) as r eqn:Er.
    induction Hl as [| | | | | |r' s1 s2 H1 _ H2 IH2]; try discriminate.
    + reflexivity.
    + injection Er as ->. rewrite all_chars_app, IH2 by reflexivity.
      inversion H1; subst. cbn. rewrite H0. reflexivity.
  - induction s as [|c s IH]; cbn; [constructor|].
    intros Hall. apply andb_prop in Hall. destruct Hall as [Hc Hs].
    change (String c s) with (String c EmptyString ++ s).
    constructor; [constructor; exact Hc|apply IH; exact Hs].
Qed.

Lemma lang_Plus_Cls (p : ascii -> bool) (s : string) :
  lang (Plus (Cls p)) s <-> s <> EmptyString /\ all_chars p s = true.
Proof.
  unfold Plus. split.
  - intros Hl. apply lang_Seq_inv in Hl.
    destruct Hl as (s1 & s2 & -> & H1 & H2). inversion H1; subst.
    apply lang_Star_Cls in H2. cbn. rewrite H0, H2. split; [discriminate|auto].
  - intros [Hne Hall]. destruct s as [|c s]; [congruence|].
    cbn in Hall. apply andb_prop in Hall. destruct Hall as [Hc Hs].
    change (String c s) with (String c EmptyString ++ s).
    constructor; [constructor; exact Hc|apply lang_Star_Cls; exact Hs].
Qed.

(** X3.  [validate_device_name] accepts a name exactly when it is not
    empty, has at most [max_length] characters, and is made of letters a
    to z and A to Z, digits, white space, hyphens and apostrophes. *)
Theorem validate_device_name_chars (name : string) (max_length : Z) :
  validate_device_name name max_length = true <->
  name <> EmptyString
  /\ (Z.of_nat (String.length name) <= max_length)%Z
  /\ all_chars name_char name = true.
Proof.
  unfold validate_device_name.
  destruct (String.eqb_spec name EmptyString) as [->|Hne].
  - split; [discriminate|]. intros [Habs _]. congruence.
  - destruct (Z.gtb_spec (Z.of_nat (String.length name)) max_length) as [Hlong|Hfit].
    + split; [discriminate|]. intros (_ & Hlen & _). lia.
    + change name_pattern with (Plus (Cls name_char)).
      rewrite match_anchored_lang, lang_Plus_Cls. split.
      * intros [[_ Hall]|(body & -> & Hl)]; [auto|].
        apply lang_Plus_Cls in Hl. destruct Hl as [_ Hall].
        repeat split; auto. rewrite all_chars_app, Hall. reflexivity.
      * intros (_ & _ & Hall). left. auto.
Qed.

Lemma lang_Upto_Cls (p : ascii -> bool) (n : nat) :
  forall s : string,
    all_chars p s = true -> (String.length s <= n)%nat ->
    lang (Upto n (Cls p)) s.
Proof.
  induction n as [|n IH]; intros s Hall Hlen; cbn [Upto].
  - destruct s; [constructor|cbn in Hlen; lia].
  - destruct s as [|c s]; [apply lang_Alt_l; constructor|].
    cbn in Hall, Hlen. apply andb_prop in Hall. destruct Hall as [Hc Hs].
    apply lang_Alt_r. change (String c s) with (String c EmptyString ++ s).
    constructor; [constructor; exact Hc|apply IH; [exact Hs|lia]].
Qed.

Lemma octet_text_lang (a : string) :
  octet_text a = true -> lang (Range 1 3 (Cls digit)) a.
Proof.
  unfold octet_text. intros Ha. apply andb_prop in Ha. destruct Ha as [Ha Hall].
  apply andb_prop in Ha. destruct Ha as [Hlo Hhi].
  apply Nat.leb_le in Hlo, Hhi.
  destruct a as [|c a]; [cbn in Hlo; lia|].
  cbn in Hall, Hhi. apply andb_prop in Hall. destruct Hall as [Hc Ha].
  unfold Range. cbn [Rep Nat.sub].
  change (String c a) with ((String c EmptyString ++ EmptyString) ++ a).
  constructor.
  - constructor; [constructor; exact Hc|constructor].
  - apply lang_Upto_Cls; [exact Ha|lia].
Qed.

Lemma string_app_assoc (s1 s2 s3 : string) :
  (s1 ++ s2) ++ s3 = s1 ++ (s2 ++ s3).
Proof. induction s1 as [|c s1 IH]; cbn; [reflexivity|]. rewrite IH. reflexivity. Qed.

Lemma lang_ipv4 (a b c d : string) :
  octet_text a = true -> octet_text b = true ->
  octet_text c = true -> octet_text d = true ->
  lang ipv4_pattern (a ++ "." ++ b ++ "." ++ c ++ "." ++ d).
Proof.
  intros Ha Hb Hc Hd. unfold ipv4_pattern. cbn [Rep].
  assert (Hdot : lang (chr ".") ".") by (constructor; reflexivity).
  replace (a ++ "." ++ b ++ "." ++ c ++ "." ++ d)
    with (((a ++ ".") ++ ((b ++ ".") ++ ((c ++ ".") ++ EmptyString))) ++ d).
  - constructor; [|apply octet_text_lang; exact Hd].
    repeat (constructor; [constructor; [apply octet_text_lang; assumption|exact Hdot]|]).
    constructor.
  - rewrite !string_app_assoc. cbn. reflexivity.
Qed.

Lemma digit_not_dot (s : string) :
  all_chars digit s = true ->
  all_chars (fun c => negb (Ascii.eqb c ".")) s = true.
Proof.
  induction s as [|c s IH]; cbn; [reflexivity|].
  intros Hall. apply andb_prop in Hall. destruct Hall as [Hc Hs].
  rewrite (IH Hs), andb_true_r.
  destruct (Ascii.eqb_spec c ".") as [->|]; [discriminate|reflexivity].
Qed.

Lemma split_on_plain (sep : ascii) (s : string) :
  all_chars (fun c => negb (Ascii.eqb c sep)) s = true ->
  split_on sep s = [s].
Proof.
  induction s as [|c s IH]; cbn; [reflexivity|].
  intros Hall. apply andb_prop in Hall. destruct Hall as [Hc Hs].
  apply negb_true_iff in Hc. rewrite Hc, (IH Hs). reflexivity.
Qed.

Lemma split_on_app (sep : ascii) (s rest : string) :
  all_chars (fun c => negb (Ascii.eqb c sep)) s = true ->
  split_on sep (s ++ String sep rest) = s :: split_on sep rest.
Proof.
  induction s as [|c s IH]; cbn.
  - rewrite Ascii.eqb_refl. reflexivity.
  - intros Hall. apply andb_prop in Hall. destruct Hall as [Hc Hs].
    apply negb_true_iff in Hc. rewrite Hc, (IH Hs). reflexivity.
Qed.

Lemma int_digits_decimal (s : string) :
  forall acc : Z,
    all_chars digit s = true ->
    int_digits acc s
    = Some (fold_left (fun acc c => 10 * acc + digit_value c)%Z
                      (list_ascii_of_string s) acc).
Proof.
  induction s as [|c s IH]; intros acc; cbn; [reflexivity|].
  intros Hall. apply andb_prop in Hall. destruct Hall as [Hc Hs].
  rewrite Hc. apply IH. exact Hs.
Qed.

Lemma int_octet (a : string) :
  octet_text a = true -> validators.int a = Some (decimal a).
Proof.
  unfold octet_text. intros Ha. apply andb_prop in Ha. destruct Ha as [Ha Hall].
  apply andb_prop in Ha. destruct Ha as [Hlo _]. apply Nat.leb_le in Hlo.
  destruct a as [|c a]; [cbn in Hlo; lia|].
  unfold validators.int. pose proof Hall as Hall'. cbn in Hall.
  apply andb_prop in Hall. destruct Hall as [Hc _]. rewrite Hc.
  apply int_digits_decimal. exact Hall'.
Qed.

Lemma digits_nonneg (s : string) :
  forall acc : Z,
    (0 <= acc)%Z -> all_chars digit s = true ->
    (0 <= fold_left (fun acc c => 10 * acc + digit_value c)%Z
                    (list_ascii_of_string s) acc)%Z.
Proof.
  induction s as [|c s IH]; intros acc Hacc;
    cbn [list_ascii_of_string fold_left all_chars]; [auto|].
  intros Hall. apply andb_prop in Hall. destruct Hall as [Hc Hs].
  apply IH; [|exact Hs]. unfold digit, between in Hc.
  apply andb_prop in Hc. destruct Hc as [Hlo _].
  unfold digit_value. unfold Ascii.leb, Ascii.compare in Hlo.
  change (N_of_ascii "0") with 48%N in Hlo.
  destruct (N.compare_spec 48 (N_of_ascii c)) as [E|E|E];
    try discriminate; lia.
Qed.

(** X4.  On four groups of one to three decimal digits with dots between
    them, [validate_ip_address] says whether every group writes a number
    of at most 255; leading zeros are allowed, and a group above 255 makes
    the address invalid (the IPv6 pattern is not tried). *)
Theorem validate_ip_address_dotted_quad (a b c d : string) :
  octet_text a = true -> octet_text b = true ->
  octet_text c = true -> octet_text d = true ->
  validate_ip_address (a ++ "." ++ b ++ "." ++ c ++ "." ++ d)
  = forallb (fun part => (decimal part <=? 255)%Z) [a; b; c; d].
Proof.
  intros Ha Hb Hc Hd. unfold validate_ip_address.
  assert (Hm : match_anchored ipv4_pattern
                 (a ++ "." ++ b ++ "." ++ c ++ "." ++ d) = true).
  { apply match_anchored_lang. left. apply lang_ipv4; assumption. }
  rewrite Hm.
  assert (Hdigits : forall s, octet_text s = true -> all_chars digit s = true).
  { unfold octet_text. intros s Hs. apply andb_prop in Hs. tauto. }
  cbn [append].
  rewrite !split_on_app by (apply digit_not_dot, Hdigits; assumption).
  rewrite split_on_plain by (apply digit_not_dot, Hdigits; assumption).
  cbn [forallb]. rewrite !int_octet by assumption.
  repeat match goal with
         | |- context [(0 <=? decimal ?s)%Z] =>
             replace (0 <=? decimal s)%Z with true
               by (symmetry; apply Z.leb_le, digits_nonneg;
                   [lia|apply Hdigits; assumption])
         end.
  reflexivity.
Qed.

(** X4 on 010.0.0.255 and on 192.168.1.256. *)
Lemma validate_ip_address_dotted_quad_witness :
  validate_ip_address "010.0.0.255" = true
  /\ validate_ip_address "192.168.1.256" = false.
Proof.
  split.
  - apply (@validate_ip_address_dotted_quad "010" "0" "0" "255");
      reflexivity.
  - apply (@validate_ip_address_dotted_quad "192" "168" "1" "256");
      reflexivity.
Defined.

Lemma passphrase_char_printable (c : ascii) :
  passphrase_char c = printable_unquoted c.
Proof.
  destruct c as [[] [] [] [] [] [] [] []]; vm_compute; reflexivity.
Qed.

Lemma all_chars_passphrase (s : string) :
  all_chars passphrase_char s = all_chars printable_unquoted s.
Proof.
  induction s as [|c s IH]; cbn; [reflexivity|].
  rewrite passphrase_char_printable, IH. reflexivity.
Qed.

(** X29.  [validate_passphrase (passphrase, expected_length)] is true
    exactly when the passphrase has the expected length and consists of
    printable ASCII characters other than the space, the double quote and
    the backslash; or has the expected length, ends in a newline and
    consists of one or more such characters before it ([$] matches before
    a final newline, and the newline counts in the length). *)
Theorem validate_passphrase_chars (passphrase : string) (expected_length : Z) :
  validate_passphrase passphrase expected_length = true <->
  Z.of_nat (String.length passphrase) = expected_length
  /\ ((passphrase <> EmptyString
       /\ all_chars printable_unquoted passphrase = true)
      \/ exists body,
           passphrase = body ++ newline
           /\ body <> EmptyString
           /\ all_chars printable_unquoted body = true).
Proof.
  unfold validate_passphrase.
  destruct (String.eqb_spec passphrase EmptyString) as [->|Hne].
  - split; [discriminate|].
    intros (_ & [[Habs _]|(body & Heq & _)]); [congruence|].
    destruct body; discriminate.
  - destruct (Z.eqb_spec (Z.of_nat (String.length passphrase)) expected_length)
      as [Hlen|Hlen]; cbn [negb].
    + change passphrase_pattern with (Plus (Cls passphrase_char)).
      rewrite match_anchored_lang, lang_Plus_Cls. split.
      * intros [[_ Hall]|(body & -> & Hl)]; (split; [exact Hlen|]).
        -- left. rewrite <- all_chars_passphrase.
           auto.
        -- right. apply lang_Plus_Cls in Hl. destruct Hl as [Hb Hall].
           exists body. rewrite <- all_chars_passphrase.
           auto.
      * intros (_ & [[_ Hall]|(body & -> & Hb & Hall)]).
        -- left. rewrite all_chars_passphrase. auto.
        -- right. exists body. split; [reflexivity|].
           apply lang_Plus_Cls.
           rewrite all_chars_passphrase. auto.
    + split; [discriminate|]. intros [Habs _]. contradiction.
Qed.

End Validators.

(* --------------------------------------------------------------------- *)
(** ** Device: the dictionary round trip *)
(* --------------------------------------------------------------------- *)

Section DeviceDict.

Import device device_dict.

Context `{PyLib}.

Lemma DeviceOS_value_roundtrip (o : DeviceOS) :
  DeviceOS_of_value (JStr (DeviceOS_value o)) = Ok o.
Proof. destruct o; reflexivity. Qed.

Lemma DeviceRole_value_roundtrip (r : DeviceRole) :
  DeviceRole_of_value (JStr (DeviceRole_value r)) = Ok r.
Proof. destruct r; reflexivity. Qed.

(** X5.  For a device that the constructor accepted,
    [Device.from_dict (d.to_dict ())] is the device itself, with an
    address that is [None] going through the dictionary as [None].  The
    standard library is asked that [fromisoformat] reads back what
    [isoformat] wrote for the two timestamps. *)
Theorem Device_dict_roundtrip (fields d : Device) :
  device.new fields = Ok d ->
  fromisoformat (isoformat (created_at d)) = Ok (created_at d) ->
  fromisoformat (isoformat (last_seen d)) = Ok (last_seen d) ->
  from_dict (to_dict d) = Ok d.
Proof.
  intros Hnew Hcreated Hseen.
  pose proof (@device_new_inv _ _ Hnew) as ->.
  unfold from_dict, to_dict, get_default.
  cbn [get String.eqb Ascii.eqb Bool.eqb input_event.getitem
       input_event.as_str input_event.as_bool as_int py.bind].
  rewrite DeviceOS_value_roundtrip, DeviceRole_value_roundtrip.
  cbn [py.bind].
  assert (Hip : as_optional_str match ip_address fields with
                                | Some ip => JStr ip
                                | None => JNull
                                end = Ok (ip_address fields))
    by (destruct (ip_address fields); reflexivity).
  rewrite Hip, Hcreated, Hseen. cbn [py.bind].
  destruct fields; exact Hnew.
Qed.

Lemma getitem_Ok (key : string) (data : dict json) (v : json) :
  input_event.getitem key data = Ok v -> get key data = Some v.
Proof.
  unfold input_event.getitem. destruct (get key data); intros [= <-].
  reflexivity.
Qed.

Lemma as_str_Ok (v : json) (s : string) :
  input_event.as_str v = Ok s -> v = JStr s.
Proof. destruct v; intros [= <-]. reflexivity. Qed.

Lemma as_bool_Ok (v : json) (b : bool) :
  input_event.as_bool v = Ok b -> v = JBool b.
Proof. destruct v; intros [= <-]. reflexivity. Qed.

Lemma as_int_Ok (v : json) (n : Z) : as_int v = Ok n -> v = JInt n.
Proof. destruct v; intros [= <-]. reflexivity. Qed.

Lemma as_optional_str_Ok (v : json) (o : option string) :
  as_optional_str v = Ok o ->
  v = match o with Some s => JStr s | None => JNull end.
Proof. destruct v; intros [= <-]; reflexivity. Qed.

Lemma DeviceOS_of_value_Ok (v : json) (o : DeviceOS) :
  DeviceOS_of_value v = Ok o -> v = JStr (DeviceOS_value o).
Proof.
  destruct v as [| | |s| |]; cbn; try discriminate.
  destruct (String.eqb_spec s "Windows") as [->|_]; [intros [= <-]; reflexivity|].
  destruct (String.eqb_spec s "Darwin") as [->|_]; [intros [= <-]; reflexivity|].
  discriminate.
Qed.

Lemma DeviceRole_of_value_Ok (v : json) (r : DeviceRole) :
  DeviceRole_of_value v = Ok r -> v = JStr (DeviceRole_value r).
Proof.
  destruct v as [| | |s| |]; cbn; try discriminate.
  destruct (String.eqb_spec s "MASTER") as [->|_]; [intros [= <-]; reflexivity|].
  destruct (String.eqb_spec s "CLIENT") as [->|_]; [intros [= <-]; reflexivity|].
  destruct (String.eqb_spec s "UNASSIGNED") as [->|_];
    [intros [= <-]; reflexivity|].
  discriminate.
Qed.

(** X6.  [Device.from_dict] returns only a device that the dictionary
    describes and the constructor accepts: the keys [id], [mac_address],
    [name], [os], [role], [created_at] and [last_seen] are present with
    the values of the fields (the enumerations by their values, the
    timestamps as texts that [fromisoformat] reads), and each of
    [ip_address], [port], [version], [is_registered] is either present
    with the value of its field or absent with the field at its default:
    no address, 19999, 1.0.0, false. *)
Theorem Device_from_dict_sound (data : dict json) (d : Device) :
  from_dict data = Ok d ->
  device.new d = Ok d
  /\ get "id" data = Some (JStr (id d))
  /\ get "mac_address" data = Some (JStr (mac_address d))
  /\ get "name" data = Some (JStr (name d))
  /\ get "os" data = Some (JStr (DeviceOS_value (os d)))
  /\ get "role" data = Some (JStr (DeviceRole_value (role d)))
  /\ get_default "ip_address" JNull data
     = match ip_address d with Some ip => JStr ip | None => JNull end
  /\ get_default "port" (JInt 19999) data = JInt (port d)
  /\ get_default "version" (JStr "1.0.0") data = JStr (version d)
  /\ get_default "is_registered" (JBool false) data = JBool (is_registered d)
  /\ (exists text, get "created_at" data = Some (JStr text)
                   /\ fromisoformat text = Ok (created_at d))
  /\ (exists text, get "last_seen" data = Some (JStr text)
                   /\ fromisoformat text = Ok (last_seen d)).
Proof.
  unfold from_dict.
  repeat match goal with
         | |- py.bind ?m _ = Ok _ -> _ =>
             let E := fresh "E" in
             destruct m eqn:E; cbn [py.bind]; [|discriminate]
         end.
  intros Hnew. pose proof (@device_new_inv _ _ Hnew) as Hd. subst d.
  cbn [id mac_address name os role ip_address port version is_registered
       created_at last_seen].
  repeat match goal with
         | E : input_event.getitem _ _ = Ok _ |- _ => apply getitem_Ok in E
         | E : input_event.as_str _ = Ok _ |- _ => apply as_str_Ok in E
         | E : input_event.as_bool _ = Ok _ |- _ => apply as_bool_Ok in E
         | E : as_int _ = Ok _ |- _ => apply as_int_Ok in E
         | E : as_optional_str _ = Ok _ |- _ => apply as_optional_str_Ok in E
         | E : DeviceOS_of_value _ = Ok _ |- _ => apply DeviceOS_of_value_Ok in E
         | E : DeviceRole_of_value _ = Ok _ |- _ =>
             apply DeviceRole_of_value_Ok in E
         end.
  subst. repeat split; try assumption; eexists; split; eassumption.
Qed.

End DeviceDict.

(* --------------------------------------------------------------------- *)
(** ** InputEvent: what [from_dict] returns *)
(* --------------------------------------------------------------------- *)

Section InputEventDict.

Import input_event.

Context `{PyLib}.

Lemma InputEventType_of_value_Ok (v : json) (t : InputEventType) :
  InputEventType_of_value v = Ok t -> v = JStr (InputEventType_value t).
Proof.
  destruct v as [| | |s| |]; cbn [InputEventType_of_value]; try discriminate.
  destruct (find _ all_types) as [t0|] eqn:Efind; [|discriminate].
  intros [= <-]. apply find_some in Efind. destruct Efind as [_ Heq].
  apply String.eqb_eq in Heq. congruence.
Qed.

(** X7.  [InputEvent.from_dict] returns only an event that the dictionary
    describes and the constructor accepts: [event_type],
    [source_device_id], [target_device_id], [payload] and [timestamp] are
    present with the values of the fields, the id is the one of the
    dictionary or, without one, the fresh UUID, and the encryption flag is
    the one of the dictionary or, without one, true.  A dictionary that
    lacks one of the five keys gives no event. *)
Theorem InputEvent_from_dict_sound
    (fresh_uuid : string) (data : dict json) (e : InputEvent) :
  from_dict fresh_uuid data = Ok e ->
  new e = Ok e
  /\ match get "id" data with
     | Some v => v = JStr (id e)
     | None => id e = fresh_uuid
     end
  /\ get "event_type" data = Some (JStr (InputEventType_value (event_type e)))
  /\ get "source_device_id" data = Some (JStr (source_device_id e))
  /\ get "target_device_id" data = Some (JStr (target_device_id e))
  /\ get "payload" data = Some (payload e)
  /\ (exists text, get "timestamp" data = Some (JStr text)
                   /\ fromisoformat text = Ok (timestamp e))
  /\ match get "is_encrypted" data with
     | Some v => v = JBool (is_encrypted e)
     | None => is_encrypted e = true
     end.
Proof.
  unfold from_dict.
  repeat match goal with
         | |- py.bind ?m _ = Ok _ -> _ =>
             let E := fresh "E" in
             destruct m eqn:E; cbn [py.bind]; [|discriminate]
         end.
  intros Hnew. pose proof (@new_inv _ _ Hnew) as [Hd _]. subst e.
  cbn [id event_type source_device_id target_device_id payload timestamp
       is_encrypted].
  repeat match goal with
         | E : getitem _ _ = Ok _ |- _ => apply getitem_Ok in E
         | E : as_str _ = Ok _ |- _ => apply as_str_Ok in E
         | E : as_bool _ = Ok _ |- _ => apply as_bool_Ok in E
         | E : InputEventType_of_value _ = Ok _ |- _ =>
             apply InputEventType_of_value_Ok in E
         end.
  destruct (get "id" data) as [v_id|];
    destruct (get "is_encrypted" data) as [v_enc|];
    subst; repeat split; try assumption; try congruence;
    eexists; split; eassumption.
Qed.

End InputEventDict.

(* --------------------------------------------------------------------- *)
(** ** Connection handler: a stream of frames, and a stream that stops *)
(* --------------------------------------------------------------------- *)

Section Frames.

Import connection.

Context `{PyLib}.

(** One frame at the head of the stream, whatever follows it. *)
Lemma receive_message_frame
    (self : ConnectionHandler) (sock : socket) (cs : list (list byte))
    (rest : list rx_event) (prefix payload following : list byte)
    (timeout_ : Z) (d : list (string * json)) :
  socket_ self = Some sock ->
  rx sock = map Data cs ++ rest ->
  Forall (fun c => c <> []) cs ->
  0 < len payload <= MAX_MESSAGE ->
  to_bytes4 (len payload) = Ok prefix ->
  List.concat cs = prefix ++ payload ++ following ->
  read_message payload = Ok (JDict d) ->
  0 <= timeout_ <= timeout_max ->
  exists cs',
    receive_message timeout_ self
    = (Some (JDict d),
       with_socket
         (Some (with_rx (map Data cs' ++ rest) (with_timeout timeout_ sock)))
         self)
    /\ Forall (fun c => c <> []) cs'
    /\ List.concat cs' = following.
Proof.
  intros Hsock Hrx Hne Hsize Hprefix Hcat Hread Htimeout.
  destruct (@to_bytes4_from_bytes (len payload))
    as (b0 & b1 & b2 & b3 & Eb & Ef).
  { unfold MAX_MESSAGE in Hsize. change (2 ^ 32) with 4294967296. lia. }
  rewrite Eb in Hprefix. injection Hprefix as <-.
  unfold receive_message. rewrite Hsock, (settimeout_Ok _ Htimeout).
  destruct (@recv_exactly_chunks 4 (with_timeout timeout_ sock) cs rest)
    as (cs1 & E1 & F1 & G1); auto.
  { rewrite Hcat, List.length_app. cbn. lia. }
  rewrite E1, Hcat in *. cbn [firstn skipn app] in *. rewrite Ef.
  replace (len payload <=? 0) with false by (symmetry; apply Z.leb_gt; lia).
  replace (len payload >? MAX_MESSAGE) with false
    by (symmetry; rewrite Z.gtb_ltb; apply Z.ltb_ge; lia).
  cbn [orb].
  destruct (@recv_exactly_chunks (Z.to_nat (len payload))
              (with_rx (map Data cs1 ++ rest) (with_timeout timeout_ sock))
              cs1 rest) as (cs2 & E2 & F2 & G2); auto.
  { rewrite G1, List.length_app. unfold len. lia. }
  rewrite E2, G1 in *.
  assert (Hn : Z.to_nat (len payload) = List.length payload)
    by (unfold len; lia).
  rewrite Hn in *.
  rewrite firstn_app, firstn_all, Nat.sub_diag, skipn_app, skipn_all,
    Nat.sub_diag in *.
  cbn [firstn skipn app] in *. rewrite app_nil_r in *.
  unfold read_message in Hread.
  destruct (bytes_decode payload) as [json_str|]; [|discriminate].
  cbn [py.bind] in Hread. rewrite Hread.
  exists cs2. auto.
Qed.

Lemma nonempty_chunks_nil (cs : list (list byte)) :
  Forall (fun c => c <> []) cs -> List.concat cs = [] -> cs = [].
Proof.
  destruct cs as [|c cs]; [reflexivity|].
  intros Hne Hcat. inversion Hne as [|? ? Hc _]; subst.
  cbn in Hcat. apply app_eq_nil in Hcat. destruct Hcat. contradiction.
Qed.

(** X8.  Frames delimit themselves.  When the frames of the messages [ms]
    arrive one after the other, cut into chunks in any way (a chunk may
    end one frame and begin the next), as many calls of [receive_message],
    with a timeout that the socket takes (from 0 to what the platform
    holds), return the messages in the order in which they were framed,
    and leave the stream where the last frame ends.  Each message is one
    that [receive_message] takes: a JSON object of 1 to 1 MiB bytes that
    the library reads back from its bytes. *)
Theorem receive_messages_in_order (ms : list json) :
  forall (self : ConnectionHandler) (sock : socket) (cs : list (list byte))
         (rest : list rx_event) (timeout_ : Z),
    socket_ self = Some sock ->
    rx sock = map Data cs ++ rest ->
    Forall (fun c => c <> []) cs ->
    frames (map message_bytes ms) = Ok (List.concat cs) ->
    Forall (fun m => 0 < len (message_bytes m) <= MAX_MESSAGE
                     /\ (exists d, m = JDict d)
                     /\ read_message (message_bytes m) = Ok m) ms ->
    0 <= timeout_ <= timeout_max ->
    receive_messages (List.length ms) timeout_ self
    = (map Some ms,
       match ms with
       | [] => self
       | _ :: _ =>
           with_socket (Some (with_rx rest (with_timeout timeout_ sock))) self
       end).
Proof.
  induction ms as [|m ms IH];
    intros self sock cs rest timeout_ Hsock Hrx Hne Hframes Hgood Htimeout;
    [reflexivity|].
  inversion Hgood as [|? ? (Hsize & (d & ->) & Hread) Hgood']; subst.
  cbn [map frames] in Hframes. unfold frame in Hframes at 1.
  destruct (to_bytes4 (len (message_bytes (JDict d)))) as [prefix|] eqn:Ep;
    cbn [py.bind] in Hframes; [|discriminate].
  destruct (frames (map message_bytes ms)) as [fs|] eqn:Efs;
    cbn [py.bind] in Hframes; [|discriminate].
  injection Hframes as Hcat. rewrite <- app_assoc in Hcat. symmetry in Hcat.
  destruct (@receive_message_frame self sock cs rest prefix
              (message_bytes (JDict d)) fs timeout_ d)
    as (cs' & E & Hne' & Hcat'); try assumption.
  cbn [List.length receive_messages map]. rewrite E.
  set (sock1 := with_rx (map Data cs' ++ rest) (with_timeout timeout_ sock)).
  rewrite (IH (with_socket (Some sock1) self) sock1 cs' rest timeout_);
    try reflexivity; try assumption; [|rewrite Hcat'; reflexivity].
  destruct ms as [|m' ms']; [|reflexivity].
  cbn in Efs. injection Efs as <-. unfold sock1.
  rewrite (nonempty_chunks_nil Hne' Hcat'). reflexivity.
Qed.

(** The read loop on a stream that stops before the bytes it needs have
    arrived: no buffer is returned, and the bytes that had arrived are
    gone from the stream. *)
Lemma recv_loop_short (want : nat) (cs : list (list byte)) :
  forall (fuel : nat) (buf : list byte) (s : socket) (rest : list rx_event),
    rx s = map Data cs ++ rest ->
    Forall (fun c => c <> []) cs ->
    stops rest = true ->
    (List.length (List.concat cs) < want - List.length buf)%nat ->
    (List.length (List.concat cs) < fuel)%nat ->
    exists r,
      recv_loop fuel want buf s = (r, with_rx (after_stop rest) s)
      /\ (r = Ok None \/ exists e, r = Raise e).
Proof.
  induction cs as [|c cs IH]; intros fuel buf s rest Hrx Hne Hstop Hshort Hfuel.
  - destruct fuel as [|fuel]; [cbn in Hfuel; lia|].
    cbn [recv_loop].
    replace (want <=? List.length buf)%nat with false
      by (symmetry; apply Nat.leb_gt; lia).
    unfold recv. cbn [map app] in Hrx. rewrite Hrx.
    destruct rest as [|[chunk| | |] rest']; try discriminate; cbn [after_stop].
    + rewrite <- Hrx, with_rx_same. eexists; split; [reflexivity|eauto].
    + rewrite <- Hrx, with_rx_same. eexists; split; [reflexivity|eauto].
    + eexists; split; [reflexivity|eauto].
    + eexists; split; [reflexivity|eauto].
  - inversion Hne as [|? ? Hc Hne']; subst.
    destruct c as [|x c']; [congruence|].
    cbn [List.concat] in Hshort, Hfuel. rewrite List.length_app in Hshort, Hfuel.
    destruct fuel as [|fuel]; [lia|].
    cbn [recv_loop].
    replace (want <=? List.length buf)%nat with false
      by (symmetry; apply Nat.leb_gt; lia).
    unfold recv. rewrite Hrx. cbn [map app].
    rewrite firstn_all2, skipn_all2 by lia.
    set (s1 := with_rx (map Data cs ++ rest) s).
    destruct (IH fuel (buf ++ x :: c') s1 rest) as (r & E & Hr);
      auto.
    + rewrite List.length_app. lia.
    + cbn [List.length] in Hfuel. lia.
    + exists r. rewrite E. auto.
Qed.

Lemma recv_exactly_short (want : nat) (cs : list (list byte)) (s : socket)
    (rest : list rx_event) :
  rx s = map Data cs ++ rest ->
  Forall (fun c => c <> []) cs ->
  stops rest = true ->
  (List.length (List.concat cs) < want)%nat ->
  exists r,
    recv_exactly want s = (r, with_rx (after_stop rest) s)
    /\ (r = Ok None \/ exists e, r = Raise e).
Proof.
  intros Hrx Hne Hstop Hshort. unfold recv_exactly.
  apply recv_loop_short with (cs := cs); auto; cbn [List.length]; lia.
Qed.

(** X9.  A frame that does not arrive whole is lost.  When the stream
    stops (nothing more within the timeout, the peer closes, or the
    socket fails) after fewer than the four bytes of a length, or after a
    length within the limit and fewer bytes than it announces,
    [receive_message], called with a timeout that the socket takes (from 0
    to what the platform holds), returns [None], and the bytes it had read
    are gone from the stream: it keeps no partial frame, so that a frame
    whose second half arrives after a timeout is read from its middle. *)
Theorem receive_message_incomplete
    (self : ConnectionHandler) (sock : socket) (cs : list (list byte))
    (rest : list rx_event) (timeout_ : Z) :
  socket_ self = Some sock ->
  rx sock = map Data cs ++ rest ->
  Forall (fun c => c <> []) cs ->
  stops rest = true ->
  partial_frame (List.concat cs) = true ->
  0 <= timeout_ <= timeout_max ->
  receive_message timeout_ self
  = (None,
     with_socket
       (Some (with_rx (after_stop rest) (with_timeout timeout_ sock))) self).
Proof.
  intros Hsock Hrx Hne Hstop Hpartial Htimeout.
  unfold receive_message. rewrite Hsock, (settimeout_Ok _ Htimeout).
  unfold partial_frame in Hpartial.
  destruct (Nat.ltb_spec (List.length (List.concat cs)) 4) as [Hlt|Hge].
  - destruct (@recv_exactly_short 4 cs (with_timeout timeout_ sock) rest)
      as (r & E & [->|[e ->]]); auto; rewrite E; reflexivity.
  - cbn [orb] in Hpartial. apply andb_prop in Hpartial.
    destruct Hpartial as [Hmax Hfew].
    apply Z.leb_le in Hmax. apply Z.ltb_lt in Hfew.
    destruct (@recv_exactly_chunks 4 (with_timeout timeout_ sock) cs rest)
      as (cs1 & E1 & F1 & G1); auto.
    rewrite E1.
    set (length := from_bytes (firstn 4 (List.concat cs))) in *.
    replace (length <=? 0) with false
      by (symmetry; apply Z.leb_gt; unfold len in Hfew; lia).
    replace (length >? MAX_MESSAGE) with false
      by (symmetry; rewrite Z.gtb_ltb; apply Z.ltb_ge; lia).
    cbn [orb].
    destruct (@recv_exactly_short (Z.to_nat length) cs1
                (with_rx (map Data cs1 ++ rest) (with_timeout timeout_ sock))
                rest) as (r & E2 & [->|[e ->]]); auto.
    + rewrite G1. unfold len in Hfew. lia.
    + rewrite E2. reflexivity.
    + rewrite E2. reflexivity.
Qed.

(** What the read loop returns is what had arrived: the next bytes of the
    stream, as many as were asked for, and the stream is left behind
    them. *)
Lemma recv_loop_sound (want : nat) :
  forall (fuel : nat) (buf : list byte) (s s' : socket) (b : list byte),
    recv_loop fuel want buf s = (Ok (Some b), s') ->
    (want - List.length buf <= fuel)%nat ->
    (List.length buf <= want)%nat ->
    b = buf ++ firstn (want - List.length buf) (arrived (rx s))
    /\ List.length b = want
    /\ arrived (rx s)
       = firstn (want - List.length buf) (arrived (rx s)) ++ arrived (rx s').
Proof.
  induction fuel as [|fuel IH]; intros buf s s' b Hloop Hfuel Hbuf.
  - cbn [recv_loop] in Hloop.
    assert (Hzero : (want - List.length buf = 0)%nat) by lia.
    destruct (Nat.leb_spec want (List.length buf)) as [Hle|Hlt]; [|lia].
    injection Hloop as <- <-. rewrite Hzero. cbn [firstn app].
    rewrite app_nil_r. repeat split; auto. lia.
  - cbn [recv_loop] in Hloop.
    destruct (Nat.leb_spec want (List.length buf)) as [Hle|Hlt].
    + injection Hloop as <- <-.
      replace (want - List.length buf)%nat with 0%nat by lia.
      cbn [firstn app]. rewrite app_nil_r. repeat split; auto. lia.
    + unfold recv in Hloop.
      destruct (rx s) as [|[chunk| | |] evs] eqn:Hrx; try discriminate.
      set (n := (want - List.length buf)%nat) in *.
      destruct (firstn n chunk) as [|x now] eqn:Hnow; [discriminate|].
      set (s1 := with_rx match skipn n chunk with
                         | [] => evs
                         | _ :: _ => Data (skipn n chunk) :: evs
                         end s) in *.
      assert (Hlen : (List.length (x :: now) <= n)%nat)
        by (rewrite <- Hnow; apply firstn_le_length).
      assert (Hnowlen : (1 <= List.length (x :: now))%nat)
        by (cbn [List.length]; lia).
      assert (Harr : arrived (rx s1) = skipn n chunk ++ arrived evs).
      { unfold s1. cbn [rx with_rx].
        destruct (skipn n chunk); reflexivity. }
      destruct (IH (buf ++ x :: now) s1 s' b Hloop)
        as (Hb & Hblen & Hrest).
      { rewrite List.length_app. lia. }
      { rewrite List.length_app. lia. }
      rewrite List.length_app in Hb, Hrest.
      replace (want - (List.length buf + List.length (x :: now)))%nat
        with (n - List.length (x :: now))%nat in Hb, Hrest by lia.
      cbn [arrived].
      assert (Hsplit : chunk ++ arrived evs
                       = (x :: now) ++ arrived (rx s1))
        by (rewrite Harr, app_assoc, <- Hnow, firstn_skipn; reflexivity).
      rewrite Hsplit.
      assert (Hfirst : firstn n ((x :: now) ++ arrived (rx s1))
                       = (x :: now)
                         ++ firstn (n - List.length (x :: now))
                                   (arrived (rx s1))).
      { rewrite firstn_app. f_equal. apply firstn_all2. exact Hlen. }
      rewrite Hfirst. split; [|split].
      * rewrite Hb, <- app_assoc. reflexivity.
      * exact Hblen.
      * rewrite <- app_assoc. f_equal. exact Hrest.
Qed.

Lemma recv_exactly_sound (want : nat) (s s' : socket) (b : list byte) :
  recv_exactly want s = (Ok (Some b), s') ->
  b = firstn want (arrived (rx s))
  /\ List.length b = want
  /\ arrived (rx s) = b ++ arrived (rx s').
Proof.
  unfold recv_exactly. intros Hloop.
  destruct (@recv_loop_sound want want [] s s' b Hloop) as (Hb & Hlen & Hrest);
    cbn [List.length]; try lia.
  cbn [List.length app] in Hb, Hrest. rewrite Nat.sub_0_r in Hb, Hrest.
  rewrite <- Hb in Hrest. auto.
Qed.

(** X30.  [receive_message] returns a message only for a whole frame.
    When it returns a message, the bytes that had arrived begin with four
    bytes that announce a length from 1 to 1 MiB and as many bytes that the
    library decodes and parses to that message, which is a JSON object; and
    the stream is left right behind that frame.  It never returns a
    message for a length of 0 or above the limit, for bytes that are not
    JSON, or for JSON that is not an object. *)
Theorem receive_message_sound
    (timeout_ : Z) (self self' : ConnectionHandler) (m : json) :
  receive_message timeout_ self = (Some m, self') ->
  exists (sock sock' : socket) (prefix payload : list byte)
         (d : list (string * json)),
    socket_ self = Some sock
    /\ socket_ self' = Some sock'
    /\ arrived (rx sock) = prefix ++ payload ++ arrived (rx sock')
    /\ List.length prefix = 4%nat
    /\ from_bytes prefix = len payload
    /\ 0 < len payload <= MAX_MESSAGE
    /\ read_message payload = Ok m
    /\ m = JDict d.
Proof.
  unfold receive_message.
  destruct (socket_ self) as [sock|] eqn:Hsock; [|discriminate].
  destruct (settimeout timeout_ sock) as [sock0|] eqn:E0; [|discriminate].
  assert (Hrx0 : rx sock0 = rx sock).
  { unfold settimeout in E0.
    destruct (timeout_ <? 0); [discriminate|].
    destruct (timeout_max <? timeout_); [discriminate|].
    injection E0 as <-. reflexivity. }
  destruct (recv_exactly 4 sock0)
    as [[[length_bytes|]|e] sock1] eqn:E1; try discriminate.
  apply recv_exactly_sound in E1. destruct E1 as (_ & Hlen1 & Harr1).
  rewrite Hrx0 in Harr1.
  destruct (Z.leb_spec (from_bytes length_bytes) 0) as [Hzero|Hpos];
    [discriminate|].
  destruct (from_bytes length_bytes >? MAX_MESSAGE) eqn:Hmax; [discriminate|].
  cbn [orb].
  destruct (recv_exactly (Z.to_nat (from_bytes length_bytes)) sock1)
    as [[[json_bytes|]|e] sock2] eqn:E2; try discriminate.
  apply recv_exactly_sound in E2. destruct E2 as (_ & Hlen2 & Harr2).
  destruct (bytes_decode json_bytes) as [json_str|] eqn:Hdecode;
    [|discriminate].
  destruct (json_loads json_str) as [[| | | | |d]|] eqn:Hloads;
    try discriminate.
  intros [= <- <-].
  exists sock, sock2, length_bytes, json_bytes, d.
  rewrite Z.gtb_ltb in Hmax. apply Z.ltb_ge in Hmax.
  assert (Hn : len json_bytes = from_bytes length_bytes)
    by (unfold len; rewrite Hlen2; lia).
  repeat split; auto.
  - rewrite Harr1, Harr2. reflexivity.
  - lia.
  - lia.
  - unfold read_message. rewrite Hdecode. cbn [py.bind]. exact Hloads.
Qed.

End Frames.

(* --------------------------------------------------------------------- *)
(** ** Input relay: retries, accounting, the batch and the queue *)
(* --------------------------------------------------------------------- *)

Section RelayAccounts.

Import input_event input_relay.

Context `{PyLib} {C : Type} `{Connection C}.

(** What the attempts for one event leave alone, whatever the connection
    does: queue, batch, configuration, callbacks, the flag and the three
    event counters; and the window of latencies stays within its bound. *)
Lemma forward_attempts_keeps (n : nat) :
  forall (event : InputEvent) (start_time : datetime) (conn : C)
         (r : InputRelay C) (w : World),
    let r' := snd (fst (forward_attempts n event start_time conn r w)) in
    config r' = config r
    /\ event_queue r' = event_queue r
    /\ batch_buffer r' = batch_buffer r
    /\ is_running r' = is_running r
    /\ on_event_forwarded r' = on_event_forwarded r
    /\ on_event_failed r' = on_event_failed r
    /\ events_received (metrics r') = events_received (metrics r)
    /\ events_forwarded (metrics r') = events_forwarded (metrics r)
    /\ events_failed (metrics r') = events_failed (metrics r)
    /\ ((List.length (_latencies r) <= 100)%nat ->
        (List.length (_latencies r') <= 100)%nat).
Proof.
  induction n as [|n IH]; intros event start_time conn r w;
    cbn [forward_attempts].
  - cbn. repeat split; auto.
  - destruct (conn_send_message (send_args (to_dict event)) conn w)
      as [[[e|] conn'] w1].
    + apply IH.
    + unfold record_success. cbn [now fst snd].
      cbn [with_metrics with_latencies with_connection config event_queue
           batch_buffer is_running on_event_forwarded on_event_failed metrics
           set_avg_latency add_bytes_sent events_received events_forwarded
           events_failed _latencies].
      repeat split; auto.
      intros Hlen.
      destruct (Nat.ltb_spec 100 (List.length (_latencies r ++ [Qmake
        (total_microseconds (clock w1 (reads w1)) start_time) 1000])))
        as [Hlt|Hge]; [|exact Hge].
      rewrite List.length_app in Hlt. cbn [List.length] in Hlt.
      destruct (_latencies r) as [|l ls]; cbn [app tl List.length] in *;
        [lia|].
      rewrite List.length_app. cbn [List.length]. lia.
Qed.

Lemma forward_event_keeps (event : InputEvent) (r : InputRelay C) (w : World) :
  let r' := snd (fst (_forward_event event r w)) in
  config r' = config r
  /\ event_queue r' = event_queue r
  /\ batch_buffer r' = batch_buffer r
  /\ is_running r' = is_running r
  /\ on_event_forwarded r' = on_event_forwarded r
  /\ on_event_failed r' = on_event_failed r
  /\ events_received (metrics r') = events_received (metrics r)
  /\ events_forwarded (metrics r') = events_forwarded (metrics r)
  /\ events_failed (metrics r') = events_failed (metrics r)
  /\ ((List.length (_latencies r) <= 100)%nat ->
      (List.length (_latencies r') <= 100)%nat).
Proof.
  unfold _forward_event. destruct (connection_ r) as [conn|].
  - cbn [now]. apply forward_attempts_keeps.
  - cbn. repeat split; auto.
Qed.

(** Forwarding does not look at the flag [is_running]. *)
Lemma forward_attempts_running (b : bool) (n : nat) :
  forall (event : InputEvent) (start_time : datetime) (conn : C)
         (r : InputRelay C) (w : World),
    forward_attempts n event start_time conn (with_running b r) w
    = (fst (fst (forward_attempts n event start_time conn r w)),
       with_running b (snd (fst (forward_attempts n event start_time conn r w))),
       snd (forward_attempts n event start_time conn r w)).
Proof.
  induction n as [|n IH]; intros event start_time conn r w;
    cbn [forward_attempts]; [reflexivity|].
  destruct (conn_send_message (send_args (to_dict event)) conn w)
    as [[[e|] conn'] w1]; [apply IH|].
  unfold record_success. cbn [now fst snd]. reflexivity.
Qed.

Lemma forward_all_running (b : bool) (events : list InputEvent) :
  forall (r : InputRelay C) (w : World),
    forward_all events (with_running b r) w
    = (fst (fst (forward_all events r w)),
       with_running b (snd (fst (forward_all events r w))),
       snd (forward_all events r w)).
Proof.
  induction events as [|e es IH]; intros r w; cbn [forward_all];
    [reflexivity|].
  assert (E : _forward_event e (with_running b r) w
              = (fst (fst (_forward_event e r w)),
                 with_running b (snd (fst (_forward_event e r w))),
                 snd (_forward_event e r w))).
  { unfold _forward_event. cbn [with_running connection_ config].
    destruct (connection_ r) as [conn|]; [|reflexivity].
    cbn [now]. apply forward_attempts_running. }
  rewrite E. destruct (_forward_event e r w) as [[ok r1] w1].
  cbn [fst snd].
  destruct ok.
  - change (with_metrics (incr_forwarded (metrics (with_running b r1)))
                         (with_running b r1))
      with (with_running b (with_metrics (incr_forwarded (metrics r1)) r1)).
    change (on_event_forwarded
              (with_running b (with_metrics (incr_forwarded (metrics r1)) r1)))
      with (on_event_forwarded (with_metrics (incr_forwarded (metrics r1)) r1)).
    destruct (invoke _ e); [reflexivity|]. apply IH.
  - change (with_metrics (incr_failed (metrics (with_running b r1)))
                         (with_running b r1))
      with (with_running b (with_metrics (incr_failed (metrics r1)) r1)).
    change (on_event_failed
              (with_running b (with_metrics (incr_failed (metrics r1)) r1)))
      with (on_event_failed (with_metrics (incr_failed (metrics r1)) r1)).
    destruct (invoke _ e); [reflexivity|]. apply IH.
Qed.





Lemma forward_all_window (events : list InputEvent) :
  forall (r : InputRelay C) (w : World),
    (List.length (_latencies r) <= 100)%nat ->
    (List.length (_latencies (snd (fst (forward_all events r w)))) <= 100)%nat.
Proof.
  induction events as [|e es IH]; intros r w Hlen; cbn [forward_all];
    [exact Hlen|].
  pose proof (forward_event_keeps e r w) as K.
  destruct (_forward_event e r w) as [[ok r1] w1]. cbn [fst snd] in K.
  assert (Hlen1 : (List.length (_latencies r1) <= 100)%nat) by (apply K, Hlen).
  destruct ok.
  - destruct (invoke _ e); [exact Hlen1|]. apply IH. exact Hlen1.
  - destruct (invoke _ e); [exact Hlen1|]. apply IH. exact Hlen1.
Qed.

Lemma flush_batch_window (r : InputRelay C) (w : World) :
  (List.length (_latencies r) <= 100)%nat ->
  (List.length (_latencies (snd (fst (_flush_batch r w)))) <= 100)%nat.
Proof.
  intros Hlen. unfold _flush_batch.
  destruct (batch_buffer r) as [|b bs]; [exact Hlen|].
  apply forward_all_window. exact Hlen.
Qed.

Lemma relay_iteration_window (r : InputRelay C) (w : World) :
  (List.length (_latencies r) <= 100)%nat ->
  (List.length (_latencies (fst (_relay_loop_iteration r w))) <= 100)%nat.
Proof.
  intros Hlen. unfold _relay_loop_iteration.
  destruct (queue_get _ _) as [[[e q]|]|]; [| |exact Hlen]; cycle 1.
  - destruct (batch_buffer r) as [|b bs] eqn:Eb; [exact Hlen|].
    pose proof (@flush_batch_window r w Hlen) as F.
    destruct (_flush_batch r w) as [[x r1] w1]. exact F.
  - set (r1 := _add_to_batch e (with_queue q r)).
    destruct (batch_size (config r1) <=? _); [|exact Hlen].
    pose proof (@flush_batch_window r1 w Hlen) as F.
    destruct (_flush_batch r1 w) as [[x r2] w2]. exact F.
Qed.

(** X11.  The window of latencies is bounded.  The relay keeps the
    latencies of at most the last 100 events it sent: a relay that holds
    at most 100 (as a new one does, which holds none) holds at most 100
    after any number of turns of the loop and after [stop], whatever the
    connection and the callbacks do. *)
Theorem relay_latency_window (n : nat) (r : InputRelay C) (w : World) :
  (List.length (_latencies r) <= 100)%nat ->
  (List.length (_latencies (fst (_relay_loop n r w))) <= 100)%nat
  /\ (List.length (_latencies (snd (fst (stop r w)))) <= 100)%nat.
Proof.
  intros Hlen. split.
  - revert r w Hlen. induction n as [|n IH]; intros r w Hlen;
      cbn [_relay_loop]; [exact Hlen|].
    destruct (is_running r); [|exact Hlen].
    pose proof (@relay_iteration_window r w Hlen) as F.
    destruct (_relay_loop_iteration r w) as [r1 w1]. apply IH. exact F.
  - unfold stop. destruct (negb (is_running r)); [exact Hlen|].
    pose proof (@flush_batch_window (with_running false r) w Hlen) as F.
    destruct (_flush_batch (with_running false r) w) as [[[x|] r1] w1];
      exact F.
Qed.

End RelayAccounts.

Section RelayRetries.

Import input_event input_relay.

Context `{PyLib}.

(** The attempts for one event over a recorder whose next calls raise
    [errors], one after the other, and whose call after them returns. *)
Lemma forward_attempts_retries (errors : list exn) :
  forall (n : nat) (event : InputEvent) (start_time : datetime)
         (c : Recorder) (r : InputRelay Recorder) (w : World)
         (later : list (option exn)),
    side_effect c = map Some errors ++ later ->
    hd None later = None ->
    let made := Nat.min (S (List.length errors)) n in
    let c' := {| calls := calls c ++ repeat (wire_call event) made;
                 side_effect := skipn made (side_effect c) |} in
    exists r' w',
      forward_attempts n event start_time c r w
      = ((List.length errors <? n)%nat, r', w')
      /\ connection_ r' = Some c'
      /\ ((n <= List.length errors)%nat -> r' = with_connection (Some c') r).
Proof.
  induction errors as [|x errors IH];
    intros n event start_time c r w later Hscript Hlater made c';
    subst made c'.
  - cbn [map app List.length] in *.
    destruct n as [|n]; cbn [forward_attempts Nat.min Nat.ltb Nat.leb].
    + do 2 eexists. split; [reflexivity|].
      cbn [repeat skipn]. rewrite app_nil_r. destruct c as [cl se].
      cbn [calls side_effect with_connection connection_]. split; auto.
    + cbn [conn_send_message Recorder_Connection].
      rewrite Hscript.
      assert (E : match later with Some e :: _ => Some e | _ => None end
                  = @None exn)
        by (destruct later as [|[e|] later']; cbn in Hlater;
            [reflexivity|discriminate|reflexivity]).
      rewrite E. unfold record_success. cbn [now].
      do 2 eexists. split; [reflexivity|].
      cbn [with_metrics with_latencies with_connection connection_].
      split; [|lia].
      destruct n; reflexivity.
  - cbn [map app List.length] in *.
    destruct n as [|n]; cbn [forward_attempts].
    + do 2 eexists. split; [reflexivity|].
      cbn [Nat.min repeat skipn]. rewrite app_nil_r. destruct c as [cl se].
      cbn [calls side_effect with_connection connection_]. split; auto.
    + cbn [conn_send_message Recorder_Connection].
      rewrite Hscript. cbn [tl].
      destruct (IH n event start_time
                  {| calls := calls c ++ [send_args (to_dict event)];
                     side_effect := map Some errors ++ later |}
                  r w later eq_refl Hlater)
        as (r' & w' & E & Hconn & Hsame).
      rewrite E. exists r', w'.
      split; [reflexivity|].
      cbn [calls side_effect] in Hconn, Hsame.
      rewrite <- app_assoc in Hconn, Hsame. cbn [app] in Hconn, Hsame.
      change (send_args (to_dict event)) with (wire_call event)
        in Hconn, Hsame.
      cbn [Nat.min repeat skipn].
      split; [exact Hconn|].
      intros Hle. rewrite Hsame by lia.
      unfold with_connection. reflexivity.
Qed.



(** X13.  A queue size of 0 or below means no bound.  A running relay
    whose [max_queue_size] is not positive accepts every event: every call
    of [queue_event] returns true, the queue grows by the events in order,
    and no call is counted as failed. *)
Theorem queue_event_unbounded {C} (es : list InputEvent) (r : InputRelay C) :
  is_running r = true ->
  max_queue_size (config r) <= 0 ->
  fst (queue_events es r) = repeat true (List.length es)
  /\ event_queue (snd (queue_events es r)) = event_queue r ++ es
  /\ events_received (metrics (snd (queue_events es r)))
     = events_received (metrics r) + Z.of_nat (List.length es)
  /\ events_failed (metrics (snd (queue_events es r)))
     = events_failed (metrics r).
Proof.
  revert r. induction es as [|e es IH]; intros r Hrun Hmax;
    cbn [queue_events].
  - cbn. rewrite app_nil_r. repeat split; auto; lia.
  - unfold queue_event. rewrite Hrun. cbn [negb]. unfold put_nowait.
    replace (0 <? max_queue_size (config r)) with false
      by (symmetry; apply Z.ltb_ge; exact Hmax).
    cbn [andb].
    set (r1 := with_metrics _ _).
    specialize (IH r1 Hrun Hmax).
    destruct (queue_events es r1) as [oks r2]. cbn [fst snd] in *.
    destruct IH as (I1 & I2 & I3 & I4).
    rewrite I1, I2, I3, I4. unfold r1.
    cbn [with_metrics with_queue incr_received event_queue metrics
         events_received events_failed repeat List.length].
    rewrite <- app_assoc. cbn [app].
    repeat split; auto; lia.
Qed.


(** X15.  [stop] sends the batch and leaves the queue.  On a running relay
    over a connection that takes every call, [stop] returns true, forwards
    what the batch holds, in order, and leaves what is queued where it is:
    the relay no longer runs, so that no turn of the loop will send it. *)
Theorem stop_flushes_batch_keeps_queue
    (r : InputRelay Recorder) (c : Recorder) (w : World) :
  ready r c ->
  exists r' w' c',
    stop r w = (true, r', w')
    /\ is_running r' = false
    /\ connection_ r' = Some c'
    /\ calls c' = calls c ++ map wire_call (batch_buffer r)
    /\ batch_buffer r' = []
    /\ event_queue r' = event_queue r
    /\ events_forwarded (metrics r')
       = events_forwarded (metrics r)
         + Z.of_nat (List.length (batch_buffer r))
    /\ forall (n : nat) (w'' : World), _relay_loop n r' w'' = (r', w'').
Proof.
  intros Hready.
  pose proof Hready as (Hc & Hse & Hrun & Hretry & Hcb1 & Hcb2).
  unfold stop. rewrite Hrun. cbn [negb]. unfold _flush_batch.
  cbn [with_running batch_buffer].
  assert (Hidle : forall r' : InputRelay Recorder,
             is_running r' = false ->
             forall n w'', _relay_loop n r' w'' = (r', w'')).
  { intros r' Hoff n w''. destruct n; cbn [_relay_loop]; [reflexivity|].
    rewrite Hoff. reflexivity. }
  destruct (batch_buffer r) as [|b bs] eqn:Eb.
  - eexists; exists w, c. split; [reflexivity|].
    cbn [with_running is_running connection_ batch_buffer event_queue metrics
         map List.length].
    rewrite app_nil_r. repeat split; auto; lia.
  - change (with_batch [] _)
      with (with_running false (with_batch [] r)).
    rewrite forward_all_running.
    destruct (@forward_all_over_recorder _ (b :: bs) (with_batch [] r) c w)
      as (r1 & w1 & E1 & Hready1 & P1 & P2 & P3 & P4 & P5 & P6).
    { unfold ready. cbn. repeat split; auto. }
    rewrite E1. cbn [fst snd].
    exists (with_running false r1), w1. eexists.
    split; [reflexivity|].
    destruct Hready1 as (Q1 & _).
    cbn [with_running with_batch is_running connection_ batch_buffer
         event_queue metrics] in *.
    split; [reflexivity|]. split; [exact Q1|]. repeat split; auto.
Qed.

(** X16.  A callback that raises costs the rest of the batch.
    [_flush_batch] empties the batch before it forwards; when
    [on_event_forwarded] raises for the first event, which has been sent
    and counted, the exception leaves [_flush_batch] and the events behind
    it in the batch are gone: they are not sent, not counted as forwarded
    or failed, and no longer in batch or queue. *)
Theorem flush_batch_callback_raises
    (r : InputRelay Recorder) (c : Recorder) (w : World)
    (cb : callback) (e : InputEvent) (rest : list InputEvent) (x : exn) :
  connection_ r = Some c ->
  side_effect c = [] ->
  1 <= max_retries (config r) ->
  on_event_forwarded r = Some cb ->
  cb e = Some x ->
  batch_buffer r = e :: rest ->
  exists r' w',
    _flush_batch r w = (Some x, r', w')
    /\ connection_ r'
       = Some {| calls := calls c ++ [wire_call e]; side_effect := [] |}
    /\ batch_buffer r' = []
    /\ event_queue r' = event_queue r
    /\ events_forwarded (metrics r') = events_forwarded (metrics r) + 1
    /\ events_failed (metrics r') = events_failed (metrics r).
Proof.
  intros Hc Hse Hretry Hcb Hraise Eb.
  unfold _flush_batch. rewrite Eb. cbn [forward_all].
  pose proof (forward_event_keeps e (with_batch [] r) w)
    as (K1 & K2 & K3 & K4 & K5 & K6 & K7 & K8 & K9 & K10).
  assert (E : exists r1 w1,
             _forward_event e (with_batch [] r) w = (true, r1, w1)
             /\ connection_ r1
                = Some {| calls := calls c ++ [wire_call e];
                          side_effect := [] |}).
  { unfold _forward_event. cbn [with_batch connection_ config].
    rewrite Hc. cbn [now].
    destruct (@forward_attempts_retries [] (Z.to_nat (max_retries (config r)))
                e (clock w (reads w)) c (with_batch [] r)
                {| clock := clock w; reads := S (reads w) |} [])
      as (r1 & w1 & E & Hconn & _); [rewrite Hse; reflexivity|reflexivity|].
    exists r1, w1. rewrite E.
    replace (Z.to_nat (max_retries (config r))) with
      (S (Z.to_nat (max_retries (config r)) - 1)) in * by lia.
    cbn [List.length Nat.ltb Nat.leb Nat.min repeat skipn] in *.
    rewrite Hse in Hconn. split; [reflexivity|exact Hconn]. }
  destruct E as (r1 & w1 & E & Hconn). rewrite E in *.
  cbn [fst snd with_batch config event_queue batch_buffer is_running
       on_event_forwarded on_event_failed metrics _latencies] in *.
  set (r2 := with_metrics (incr_forwarded (metrics r1)) r1).
  assert (Hcb2 : on_event_forwarded r2 = Some cb)
    by (unfold r2; cbn; rewrite K5; exact Hcb).
  rewrite Hcb2. cbn [invoke]. rewrite Hraise.
  exists r2, w1. split; [reflexivity|].
  unfold r2. cbn [with_metrics incr_forwarded connection_ batch_buffer
                  event_queue metrics events_forwarded events_failed].
  repeat split; auto; lia.
Qed.

End RelayRetries.

(* --------------------------------------------------------------------- *)
(** ** Device repository: what is written is what is read *)
(* --------------------------------------------------------------------- *)

Section Repository.

Import device repositories.




Lemma map_update_absent (d : Device) (rows : list Device) :
  id_taken (id d) rows = false ->
  map (fun r => if String.eqb (id r) (id d) then update_row d r else r) rows
  = rows.
Proof.
  unfold id_taken. induction rows as [|r rows IH]; cbn; [reflexivity|].
  destruct (String.eqb (id r) (id d)); cbn; [discriminate|].
  intros Hrest. rewrite IH by exact Hrest. reflexivity.
Qed.

Lemma find_id_taken (k : string) (rows : list Device) :
  id_taken k rows
  = match find (fun r => String.eqb (id r) k) rows with
    | Some _ => true
    | None => false
    end.
Proof.
  unfold id_taken. induction rows as [|r rows IH]; cbn; [reflexivity|].
  destruct (String.eqb (id r) k); [reflexivity|exact IH].
Qed.



(** X18.  [update] of a device that has no row reports success and stores
    nothing.  When [read] finds no row for the id of [d], [update] returns
    [d] as if it had been stored, and the database is as it was: the
    device is still not there. *)
Theorem update_without_row (caller : thread) (d : Device)
    (database : Database) :
  read caller (id d) database = Ok None ->
  update caller d database = (Ok d, database).
Proof.
  unfold read, update, cursor.
  destruct (connection database) as [rows|] eqn:Hconn; [|discriminate].
  destruct (caller =? created_in database)%nat; [|discriminate].
  cbn [bind]. rewrite find_id_taken.
  destruct (find _ rows) as [row|] eqn:Efind.
  - destruct (_row_to_device row); discriminate.
  - intros _. cbn [andb]. f_equal.
    assert (Habsent : id_taken (id d) rows = false)
      by (rewrite find_id_taken, Efind; reflexivity).
    rewrite map_update_absent by exact Habsent.
    destruct database as [conn owner]. cbn in Hconn. subst conn. reflexivity.
Qed.


End Repository.

(* --------------------------------------------------------------------- *)
(** ** Discovery: what the table lets in *)
(* --------------------------------------------------------------------- *)

Section DiscoveryStored.

Import device repositories discovery.

(** X20.  Only one peer without a row is ever let in.  [_on_device_added]
    makes the device of a peer that has no row with an empty
    [mac_address], and the column is UNIQUE: once the table holds a row
    with an empty [mac_address] (as it does when a first such peer has been
    stored), the advertisement of every peer that has no row is dropped;
    the service is as it was and no listener is called. *)
Theorem new_peer_dropped_once_blank_mac_stored
    (caller : thread) (service_name : string) (info : ServiceInfo)
    (s : DiscoveryService) (w : World) (rows : list Device) :
  connection (db s) = Some rows ->
  id_taken (property "device_id" "" info) rows = false ->
  existsb (fun r => String.eqb (mac_address r) "") rows = true ->
  fst (_on_device_added caller service_name (Some info) s w) = (s, []).
Proof.
  intros Hconn Hnew Hblank. unfold _on_device_added.
  destruct (String.eqb _ (id (local_device s))); [reflexivity|].
  cbn [now].
  destruct (device.new _) as [fresh|] eqn:Efresh; [|reflexivity].
  apply device_new_inv in Efresh.
  unfold read, create, cursor. rewrite Hconn.
  destruct (caller =? created_in (db s))%nat; [|reflexivity].
  cbn [bind].
  rewrite find_id_taken in Hnew.
  destruct (find _ rows) as [row|] eqn:Efind; [discriminate|].
  assert (Hid : id fresh = property "device_id" "" info)
    by (rewrite Efresh; reflexivity).
  assert (Hmac : mac_address fresh = EmptyString)
    by (rewrite Efresh; reflexivity).
  rewrite Hid, Hmac.
  assert (Htaken : mac_taken (property "device_id" "" info) "" rows = true).
  { unfold mac_taken. apply existsb_exists in Hblank.
    destruct Hblank as (r & Hin & Hr).
    apply existsb_exists. exists r. split; [exact Hin|].
    rewrite Hr, andb_true_r. apply negb_true_iff.
    destruct (String.eqb (id r) (property "device_id" "" info)) eqn:E;
      [|reflexivity].
    exfalso.
    assert (Hfound : find (fun r0 => String.eqb (id r0)
                                       (property "device_id" "" info)) rows
                     <> None).
    { clear - Hin E. induction rows as [|r0 rows IH]; [contradiction|].
      cbn. destruct (String.eqb (id r0) _) eqn:E0; [discriminate|].
      destruct Hin as [->|Hin]; [congruence|]. apply IH. exact Hin. }
    apply Hfound. exact Efind. }
  rewrite Htaken, orb_true_r. reflexivity.
Qed.


(** An advertisement that arrives in a thread other than the one that
    opened the database changes nothing. *)
Lemma added_in_foreign_thread (caller : thread) (service_name : string)
    (info : option ServiceInfo) (s : DiscoveryService) (w : World) :
  caller <> created_in (db s) ->
  fst (_on_device_added caller service_name info s w) = (s, []).
Proof.
  intros Hforeign. unfold _on_device_added.
  destruct info as [info|]; [|reflexivity].
  destruct (String.eqb _ (id (local_device s))); [reflexivity|].
  cbn [now].
  destruct (device.new _) as [fresh|]; [|reflexivity].
  unfold read, cursor.
  destruct (connection (db s)); [|reflexivity].
  replace (caller =? created_in (db s))%nat with false; [reflexivity|].
  symmetry. apply Nat.eqb_neq. exact Hforeign.
Qed.

(** X28.  Nothing is discovered from another thread.  When every state
    change of the browser is handled in a thread other than the one that
    opened the database (the sqlite3 connection is bound to its thread, and
    the handlers log and drop what the repository raises), a discovery
    service that starts from [__init__] never holds a discovered device and
    never calls a listener, whatever is advertised and however often the
    sweep runs. *)
Theorem foreign_threads_discover_nothing
    (actions : list action) (local : Device) (database : Database)
    (w : World) :
  Forall (fun a => match a with
                   | StateChange caller _ _ _ => caller <> created_in database
                   | _ => True
                   end) actions ->
  get_discovered (fst (fst (run actions (__init__ local database) w))) = []
  /\ snd (fst (run actions (__init__ local database) w)) = [].
Proof.
  intros Hforeign.
  assert (Hrun : forall (s : DiscoveryService) (w0 : World),
             discovered_devices s = [] ->
             created_in (db s) = created_in database ->
             discovered_devices (fst (fst (run actions s w0))) = []
             /\ snd (fst (run actions s w0)) = []).
  { induction Hforeign as [|a rest Ha Hrest IH]; intros s w0 Hnone Hown;
      cbn [run]; [auto|].
    assert (Hstep : discovered_devices (fst (fst (step a s w0))) = []
                    /\ created_in (db (fst (fst (step a s w0))))
                       = created_in database
                    /\ snd (fst (step a s w0)) = []).
    { destruct a as [cb|caller sweeper| |caller n sc info|]; cbn [step fst snd].
      - cbn. auto.
      - unfold start.
        destruct (update _ _ _) as [[res|e] db'] eqn:Eup; cbn [fst snd].
        + apply update_created_in in Eup. cbn in *. split; [auto|].
          split; [congruence|reflexivity].
        + cbn. auto.
      - cbn. auto.
      - rewrite <- Hown in Ha.
        assert (Hremoved : _on_device_removed caller n s = (s, []))
          by (unfold _on_device_removed; rewrite Hnone; reflexivity).
        pose proof (@added_in_foreign_thread caller n info s w0 Ha) as Hadded.
        unfold on_service_state_change, _on_device_updated.
        rewrite Hremoved.
        destruct (_on_device_added caller n info s w0) as [[s1 calls1] w1].
        cbn [fst] in Hadded. injection Hadded as -> ->.
        destruct sc; cbn [fst snd app]; auto.
      - unfold check_offline.
        destruct (_offline_thread s); [|cbn; auto].
        destruct (running s); [|cbn; auto].
        cbn [now]. rewrite Hnone. cbn. auto. }
    destruct (step a s w0) as [[s1 calls1] w1]. cbn [fst snd] in Hstep.
    destruct Hstep as (Hnone1 & Hown1 & ->).
    specialize (IH s1 w1 Hnone1 Hown1).
    destruct (run rest s1 w1) as [[s2 calls2] w2]. cbn [fst snd] in *.
    destruct IH as [IH1 IH2]. rewrite IH2. auto. }
  destruct (Hrun (__init__ local database) w) as [H1 H2];
    [reflexivity|reflexivity|].
  unfold get_discovered. rewrite H1. auto.
Qed.

End DiscoveryStored.

(* --------------------------------------------------------------------- *)
(** ** Relay manager: one relay per remote device *)
(* --------------------------------------------------------------------- *)

Section RelayManagerProps.

Import device input_event input_relay relay_manager.

Context `{PyLib} {C : Type} `{Connection C}.



Lemma get_absent {V} (k : string) (d : dict V) :
  ~ In k (keys d) -> get k d = None.
Proof.
  induction d as [|[k0 v0] d IH]; cbn; [reflexivity|].
  intros Hnot. destruct (String.eqb k k0) eqn:E.
  - apply String.eqb_eq in E. subst. tauto.
  - apply IH. tauto.
Qed.

Lemma get_present {V} (k : string) (d : dict V) :
  In k (keys d) -> get k d <> None.
Proof.
  induction d as [|[k0 v0] d IH]; cbn; [tauto|].
  intros [->|Hin]; [rewrite String.eqb_refl; discriminate|].
  destruct (String.eqb k k0); [discriminate|]. apply IH. exact Hin.
Qed.

Lemma get_del_same {V} (k : string) (d : dict V) :
  NoDup (keys d) -> get k (py.del k d) = None.
Proof.
  induction d as [|[k0 v0] d IH]; cbn; [reflexivity|].
  intros Hnd. inversion Hnd as [|? ? Hnot Hnd']; subst.
  destruct (String.eqb k k0) eqn:E.
  - apply String.eqb_eq in E. subst. apply get_absent. exact Hnot.
  - cbn. rewrite E. apply IH. exact Hnd'.
Qed.

Lemma get_del_other {V} (k k' : string) (d : dict V) :
  k' <> k -> get k' (py.del k d) = get k' d.
Proof.
  intros Hne. induction d as [|[k0 v0] d IH]; cbn; [reflexivity|].
  destruct (String.eqb k k0) eqn:E.
  - apply String.eqb_eq in E. subst k0.
    replace (String.eqb k' k) with false; [reflexivity|].
    symmetry. apply String.eqb_neq. exact Hne.
  - cbn. rewrite IH. reflexivity.
Qed.

Lemma NoDup_keys_set {V} (k : string) (v : V) (d : dict V) :
  NoDup (keys d) -> NoDup (keys (py.set k v d)).
Proof.
  induction d as [|[k0 v0] d IH]; cbn; intros Hnd.
  - constructor; [tauto|constructor].
  - inversion Hnd as [|? ? Hnot Hnd']; subst.
    destruct (String.eqb k k0) eqn:E; cbn.
    + apply String.eqb_eq in E. subst. constructor; assumption.
    + constructor; [|apply IH; exact Hnd'].
      intros Hin. apply keys_set in Hin. destruct Hin as [->|Hin];
        [rewrite String.eqb_refl in E; discriminate|contradiction].
Qed.

Lemma NoDup_keys_del {V} (k : string) (d : dict V) :
  NoDup (keys d) -> NoDup (keys (py.del k d)).
Proof.
  induction d as [|[k0 v0] d IH]; cbn; intros Hnd; [constructor|].
  inversion Hnd as [|? ? Hnot Hnd']; subst.
  destruct (String.eqb k k0); [exact Hnd'|]. cbn.
  constructor; [|apply IH; exact Hnd'].
  intros Hin. apply keys_del in Hin. contradiction.
Qed.


(** What the methods of the manager keep: no id has two relays, and every
    relay runs and is filed under the id of its remote device. *)
Lemma queue_event_keeps_relay (event : InputEvent) (relay : InputRelay C) :
  is_running (snd (queue_event event relay)) = is_running relay
  /\ remote_device (snd (queue_event event relay)) = remote_device relay.
Proof.
  unfold queue_event. destruct (negb (is_running relay)); [split; reflexivity|].
  destruct (put_nowait _ _ _); split; reflexivity.
Qed.

Lemma broadcast_items_keeps (event : InputEvent) (items : dict (InputRelay C)) :
  keys (snd (broadcast_items event items)) = keys items
  /\ (Forall (fun kv => is_running (snd kv) = true
                        /\ device.id (remote_device (snd kv)) = fst kv) items ->
      Forall (fun kv => is_running (snd kv) = true
                        /\ device.id (remote_device (snd kv)) = fst kv)
             (snd (broadcast_items event items))).
Proof.
  induction items as [|[k relay] items IH]; cbn [broadcast_items].
  - cbn. split; [reflexivity|auto].
  - destruct (queue_event_keeps_relay event relay) as [K1 K2].
    destruct (queue_event event relay) as [ok relay1].
    destruct (broadcast_items event items) as [count rest1].
    cbn [fst snd keys map] in *. destruct IH as [IH1 IH2].
    unfold keys in IH1. rewrite IH1. split; [reflexivity|].
    intros Hall. inversion Hall as [|? ? [Hrun Hid] Hall']; subst.
    cbn [fst snd] in *. constructor; [|apply IH2; exact Hall'].
    cbn [fst snd]. split; congruence.
Qed.

Lemma step_keeps_relays (a : action C) (m : RelayManager C) (w : World) :
  NoDup (keys (relays m)) ->
  Forall (fun kv => is_running (snd kv) = true
                    /\ device.id (remote_device (snd kv)) = fst kv) (relays m) ->
  NoDup (keys (relays (fst (step a m w))))
  /\ Forall (fun kv => is_running (snd kv) = true
                       /\ device.id (remote_device (snd kv)) = fst kv)
            (relays (fst (step a m w))).
Proof.
  intros Hnd Hall. destruct a as [remote conn cfg|k|event|]; cbn [step].
  - unfold add_relay.
    destruct (get (device.id remote) (relays m)); cbn [fst snd]; [split; assumption|].
    cbn [input_relay.start input_relay.__init__ is_running snd with_relays
         relays].
    split; [apply NoDup_keys_set; exact Hnd|].
    apply Forall_set; [cbn; split; reflexivity|exact Hall].
  - unfold remove_relay.
    destruct (get k (relays m)) as [relay|]; cbn [fst]; [|split; assumption].
    destruct (stop relay w) as [[ok relay1] w1]. cbn [fst with_relays relays].
    split; [apply NoDup_keys_del; exact Hnd|].
    apply Forall_del. exact Hall.
  - unfold broadcast_event.
    destruct (broadcast_items_keeps event (relays m)) as [K1 K2].
    destruct (broadcast_items event (relays m)) as [count items].
    cbn [fst snd with_relays relays] in *.
    rewrite K1. split; [exact Hnd|apply K2; exact Hall].
  - cbn. split; constructor.
Qed.

Lemma run_keeps_relays (actions : list (action C)) :
  forall (m : RelayManager C) (w : World),
    NoDup (keys (relays m)) ->
    Forall (fun kv => is_running (snd kv) = true
                      /\ device.id (remote_device (snd kv)) = fst kv) (relays m) ->
    NoDup (keys (relays (fst (run actions m w))))
    /\ Forall (fun kv => is_running (snd kv) = true
                         /\ device.id (remote_device (snd kv)) = fst kv)
              (relays (fst (run actions m w))).
Proof.
  induction actions as [|a rest IH]; intros m w Hnd Hall; cbn [run];
    [split; assumption|].
  destruct (@step_keeps_relays a m w Hnd Hall) as [Hnd1 Hall1].
  destruct (step a m w) as [m1 w1]. cbn [fst] in *.
  apply IH; assumption.
Qed.



(** X24.  A relay that is removed is gone.  In a manager that has been
    worked through its methods only, [remove_relay] returns whether the
    device had a relay; afterwards [get_relay] finds none for it, and the
    relays of the other devices are as they were. *)
Theorem remove_relay_then_get
    (actions : list (action C)) (local : Device) (w w1 : World)
    (device_id : string) :
  let m := fst (run actions (relay_manager.__init__ local) w) in
  let m1 := snd (fst (remove_relay device_id m w1)) in
  fst (fst (remove_relay device_id m w1))
  = match get_relay device_id m with Some _ => true | None => false end
  /\ get_relay device_id m1 = None
  /\ forall k, k <> device_id -> get_relay k m1 = get_relay k m.
Proof.
  intros m m1.
  destruct (@run_keeps_relays actions (relay_manager.__init__ local) w)
    as [Hnd _]; [constructor|constructor|]. fold m in Hnd.
  subst m1. unfold remove_relay, get_relay.
  destruct (get device_id (relays m)) as [relay|] eqn:Hget.
  - destruct (stop relay w1) as [[ok relay1] w2].
    cbn [fst snd with_relays relays].
    split; [reflexivity|]. split.
    + apply get_del_same. exact Hnd.
    + intros k Hk. apply get_del_other. exact Hk.
  - cbn [fst snd]. split; [reflexivity|]. split; [exact Hget|reflexivity].
Qed.

End RelayManagerProps.

(* --------------------------------------------------------------------- *)
(** ** Connection entity: dictionary round trip, the two device ids *)
(* --------------------------------------------------------------------- *)

Section ConnectionEntity.

Import re validators connection_entity.

Context `{PyLib}.

Lemma connection_new_inv (fields c : Connection) :
  connection_entity.new fields = Ok c -> c = fields.
Proof.
  unfold connection_entity.new.
  destruct (connection_entity.__post_init__ fields); cbn;
    intros Heq; inversion Heq; reflexivity.
Qed.

Lemma ConnectionStatus_value_roundtrip (s : ConnectionStatus) :
  ConnectionStatus_of_value (JStr (ConnectionStatus_value s)) = Ok s.
Proof. destruct s; reflexivity. Qed.

(** X25.  For a connection that the constructor accepted,
    [Connection.from_dict (c.to_dict ())] is the connection itself, with a
    certificate or token that is [None] going through the dictionary as
    [None].  The standard library is asked that [fromisoformat] reads back
    what [isoformat] wrote for the two timestamps. *)
Theorem Connection_dict_roundtrip (fields c : Connection) :
  connection_entity.new fields = Ok c ->
  fromisoformat (isoformat (created_at c)) = Ok (created_at c) ->
  fromisoformat (isoformat (last_heartbeat c)) = Ok (last_heartbeat c) ->
  from_dict (to_dict c) = Ok c.
Proof.
  intros Hnew Hcreated Hbeat.
  pose proof (@connection_new_inv _ _ Hnew) as ->.
  unfold from_dict, to_dict, device_dict.get_default.
  cbn [get String.eqb Ascii.eqb Bool.eqb input_event.getitem
       input_event.as_str device_dict.as_int py.bind].
  rewrite ConnectionStatus_value_roundtrip. cbn [py.bind].
  assert (Hopt : forall o, device_dict.as_optional_str (optional_str o) = Ok o)
    by (intros [s|]; reflexivity).
  rewrite !Hopt, Hcreated, Hbeat. cbn [py.bind].
  destruct fields; exact Hnew.
Qed.

(** Upper case keeps a character in its class of the UUID pattern. *)
Lemma hexdigit_upper (c : ascii) :
  hexdigit c = true -> hexdigit (discovery.upper_char c) = true.
Proof.
  destruct c as [[] [] [] [] [] [] [] []]; vm_compute; intros Hc;
    first [reflexivity | discriminate Hc].
Qed.

Lemma hyphen_upper (c : ascii) :
  Ascii.eqb "-" c = true -> Ascii.eqb "-" (discovery.upper_char c) = true.
Proof.
  intros Hc. apply Ascii.eqb_eq in Hc. subst c. reflexivity.
Qed.

Lemma shape_upper (ps : list (ascii -> bool)) :
  Forall (fun p => forall c, p c = true -> p (discovery.upper_char c) = true)
         ps ->
  forall s, shape ps s = true -> shape ps (discovery.upper s) = true.
Proof.
  induction 1 as [|p ps Hp Hps IH]; intros s; destruct s as [|c s];
    cbn [shape discovery.upper]; try discriminate; [reflexivity|].
  intros Hs. apply andb_prop in Hs. destruct Hs as [Hc Hs].
  rewrite (Hp c Hc), (IH s Hs). reflexivity.
Qed.

Lemma upper_app (s1 s2 : string) :
  discovery.upper (s1 ++ s2)
  = (discovery.upper s1 ++ discovery.upper s2)%string.
Proof.
  induction s1 as [|c s1 IH]; cbn; [reflexivity|]. rewrite IH. reflexivity.
Qed.

Lemma validate_uuid_upper (u : string) :
  validate_uuid u = true -> validate_uuid (discovery.upper u) = true.
Proof.
  unfold validate_uuid. rewrite !match_anchored_lang.
  assert (Hc : classes uuid_pattern = Some uuid_classes) by reflexivity.
  assert (Hup : Forall (fun p => forall c, p c = true ->
                                   p (discovery.upper_char c) = true)
                       uuid_classes).
  { unfold uuid_classes. cbn [repeat app].
    repeat (constructor; [first [exact hexdigit_upper|exact hyphen_upper]|]).
    constructor. }
  intros [Hl|(body & -> & Hl)].
  - left. apply (@classes_lang _ _ _ Hc). apply shape_upper; [exact Hup|].
    apply (@classes_lang _ _ _ Hc). exact Hl.
  - right. exists (discovery.upper body). split.
    + rewrite upper_app. reflexivity.
    + apply (@classes_lang _ _ _ Hc). apply shape_upper; [exact Hup|].
      apply (@classes_lang _ _ _ Hc). exact Hl.
Qed.

(** X26.  The two device ids are compared as strings.  The constructor
    asks that master and client be valid UUIDs, which it checks without
    regard to letter case, and that they be different, which it checks as
    strings: a UUID that contains a letter, given once as it is and once
    in upper case, is accepted as master and client of one connection. *)
Theorem Connection_same_uuid_in_other_case (fields : Connection) :
  validate_uuid (master_device_id fields) = true ->
  client_device_id fields = discovery.upper (master_device_id fields) ->
  discovery.upper (master_device_id fields) <> master_device_id fields ->
  connection_entity.new fields = Ok fields.
Proof.
  intros Hmaster Hclient Hcase.
  unfold connection_entity.new, connection_entity.__post_init__.
  rewrite Hclient, Hmaster, (validate_uuid_upper _ Hmaster).
  replace (String.eqb (master_device_id fields)
                      (discovery.upper (master_device_id fields)))
    with false; [reflexivity|].
  symmetry. apply String.eqb_neq. congruence.
Qed.

End ConnectionEntity.

(* --------------------------------------------------------------------- *)
(** ** Receiver of input events: what its check lets through *)
(* --------------------------------------------------------------------- *)

Section Receiver.

Import input_event input_event_receiver.


End Receiver.

(* --------------------------------------------------------------------- *)
(** ** The further properties on sample inputs *)
(* --------------------------------------------------------------------- *)

Section FurtherInstances.

Local Existing Instance reference.lib.
Local Existing Instance input_relay.Recorder_Connection.

(** X5 on the master device. *)
Lemma Device_dict_roundtrip_witness :
  device_dict.from_dict (device_dict.to_dict samples.master)
  = Ok samples.master.
Proof.
  apply (@Device_dict_roundtrip reference.lib samples.master samples.master);
    vm_compute; reflexivity.
Defined.

(** X6 on a dictionary without the optional keys. *)
Lemma Device_from_dict_sound_witness :
  device_dict.get_default "port" (JInt 19999) samples.sparse_device_dict
  = JInt 19999
  /\ device_dict.get_default "ip_address" JNull samples.sparse_device_dict
     = JNull.
Proof.
  destruct (@Device_from_dict_sound reference.lib samples.sparse_device_dict
              samples.sparse_device)
    as (_ & _ & _ & _ & _ & _ & Hip & Hport & _).
  - vm_compute. reflexivity.
  - split; [exact Hport|exact Hip].
Defined.

(** X7 on a dictionary without [id] and [is_encrypted]. *)
Lemma InputEvent_from_dict_sound_witness :
  input_event.new (samples.key_event samples.uuid_c "A")
  = Ok (samples.key_event samples.uuid_c "A").
Proof.
  apply (@InputEvent_from_dict_sound reference.lib samples.uuid_c
           samples.bare_event_dict (samples.key_event samples.uuid_c "A")).
  vm_compute. reflexivity.
Defined.

(** X8 on two HELLO frames in three pieces. *)
Lemma receive_messages_in_order_witness :
  connection.receive_messages 2 30 samples.two_hellos_receiver
  = ([Some samples.hello_message; Some samples.hello_message],
     connection.with_socket
       (Some (connection.with_rx []
                (connection.with_timeout 30 samples.idle_socket)))
       samples.two_hellos_receiver).
Proof.
  apply (@receive_messages_in_order reference.lib
           [samples.hello_message; samples.hello_message]
           samples.two_hellos_receiver
           (connection.with_rx
              (map connection.Data samples.two_hellos_chunks)
              samples.idle_socket)
           samples.two_hellos_chunks [] 30).
  - reflexivity.
  - cbn [connection.rx connection.with_rx]. rewrite app_nil_r. reflexivity.
  - repeat constructor; vm_compute; discriminate.
  - vm_compute. reflexivity.
  - repeat constructor; try (vm_compute; reflexivity);
      try (vm_compute; discriminate);
      eexists; reflexivity.
  - change (0 <= 30 <= 2147483). lia.
Defined.

(** X9 on a HELLO frame halved by a timeout: the first call returns
    nothing and leaves the second half at the head of the stream. *)
Lemma receive_message_incomplete_witness :
  connection.receive_message 30 samples.halved_hello_receiver
  = (None,
     connection.with_socket
       (Some (connection.with_rx
                [connection.Data (skipn 20 samples.hello_frame)]
                (connection.with_timeout 30 samples.idle_socket)))
       samples.halved_hello_receiver).
Proof.
  apply (@receive_message_incomplete reference.lib
           samples.halved_hello_receiver
           (connection.with_rx
              [connection.Data (firstn 20 samples.hello_frame);
               connection.TimedOut;
               connection.Data (skipn 20 samples.hello_frame)]
              samples.idle_socket)
           [firstn 20 samples.hello_frame]
           [connection.TimedOut;
            connection.Data (skipn 20 samples.hello_frame)] 30).
  - reflexivity.
  - reflexivity.
  - repeat constructor; vm_compute; discriminate.
  - reflexivity.
  - vm_compute. reflexivity.
  - change (0 <= 30 <= 2147483). lia.
Defined.


(** X11 on the same relay. *)
Lemma relay_latency_window_witness :
  (List.length
     (input_relay._latencies
        (fst (input_relay._relay_loop 3
                (snd (input_relay.queue_events samples.three_events
                        samples.small_relay))
                samples.world0))) <= 100)%nat.
Proof.
  apply (@relay_latency_window reference.lib
           input_relay.Recorder input_relay.Recorder_Connection 3
           (snd (input_relay.queue_events samples.three_events
                   samples.small_relay))
           samples.world0).
  vm_compute. lia.
Defined.


(** X13 on three events and a queue size of 0. *)
Lemma queue_event_unbounded_witness :
  fst (input_relay.queue_events samples.three_events samples.unbounded_relay)
  = [true; true; true].
Proof.
  apply (@queue_event_unbounded input_relay.Recorder samples.three_events
           samples.unbounded_relay).
  - reflexivity.
  - vm_compute. discriminate.
Defined.


(** X15 on a relay with one event in the batch and two in the queue. *)
Lemma stop_flushes_batch_keeps_queue_witness :
  exists r' w' c',
    input_relay.stop samples.relay_mid_batch samples.world0 = (true, r', w')
    /\ input_relay.connection_ r' = Some c'
    /\ input_relay.calls c'
       = [input_relay.wire_call (samples.key_event "e1" "A")]
    /\ input_relay.event_queue r'
       = [samples.key_event "e2" "B"; samples.key_event "e3" "C"].
Proof.
  destruct (@stop_flushes_batch_keeps_queue reference.lib
              samples.relay_mid_batch samples.recorder samples.world0)
    as (r' & w' & c' & E & _ & Hconn & Hcalls & _ & Hqueue & _).
  - unfold input_relay.ready. repeat split; try reflexivity.
    vm_compute. discriminate.
  - exists r', w', c'. split; [exact E|]. split; [exact Hconn|].
    split; [exact Hcalls|exact Hqueue].
Defined.

(** X16 on a batch of two events: the second is never sent. *)
Lemma flush_batch_callback_raises_witness :
  exists r' w',
    input_relay._flush_batch samples.relay_with_raising_callback samples.world0
    = (Some (RuntimeError "callback"), r', w')
    /\ input_relay.connection_ r'
       = Some {| input_relay.calls :=
                   [input_relay.wire_call (samples.key_event "e1" "A")];
                 input_relay.side_effect := [] |}
    /\ input_relay.batch_buffer r' = [].
Proof.
  destruct (@flush_batch_callback_raises reference.lib
              samples.relay_with_raising_callback samples.recorder
              samples.world0 samples.raising_callback
              (samples.key_event "e1" "A") [samples.key_event "e2" "B"]
              (RuntimeError "callback"))
    as (r' & w' & E & Hconn & Hbatch & _); try reflexivity.
  - vm_compute. discriminate.
  - exists r', w'. split; [exact E|]. split; [exact Hconn|exact Hbatch].
Defined.


(** X18: [client] has no row in the database of [master]. *)
Lemma update_without_row_witness :
  repositories.update samples.main_thread samples.client samples.devices_db
  = (Ok samples.client, samples.devices_db).
Proof.
  apply (@update_without_row samples.main_thread samples.client
           samples.devices_db).
  vm_compute. reflexivity.
Defined.


(** X20: after [client] has been discovered and stored without a hardware
    address, the advertisement of a third device is dropped. *)
Lemma new_peer_dropped_once_blank_mac_stored_witness :
  fst (discovery._on_device_added samples.main_thread "Kiosk._kms._tcp.local."
         (Some samples.kiosk_info) (fst (fst (samples.silent_run 0)))
         (snd (samples.silent_run 0)))
  = (fst (fst (samples.silent_run 0)), []).
Proof.
  apply (@new_peer_dropped_once_blank_mac_stored samples.main_thread
           "Kiosk._kms._tcp.local." samples.kiosk_info
           (fst (fst (samples.silent_run 0))) (snd (samples.silent_run 0))
           [device.set_is_registered true samples.master;
            samples.discovered_client]).
  - vm_compute. reflexivity.
  - vm_compute. reflexivity.
  - vm_compute. reflexivity.
Defined.



(** X25 on a connection without a certificate. *)
Lemma Connection_dict_roundtrip_witness :
  connection_entity.from_dict (connection_entity.to_dict samples.link)
  = Ok samples.link.
Proof.
  apply (@Connection_dict_roundtrip reference.lib samples.link samples.link);
    vm_compute; reflexivity.
Defined.

(** X26 on the id of [master]. *)
Lemma Connection_same_uuid_in_other_case_witness :
  connection_entity.new samples.self_link = Ok samples.self_link.
Proof.
  apply (@Connection_same_uuid_in_other_case samples.self_link).
  - vm_compute. reflexivity.
  - reflexivity.
  - vm_compute. discriminate.
Defined.


(** X28 on the advertisement of [client], handled in the thread of the
    browser. *)
Lemma foreign_threads_discover_nothing_witness :
  discovery.get_discovered
    (fst (fst (discovery.run samples.discovering_from_browser
                 samples.fresh_service samples.slow_world)))
  = [].
Proof.
  apply (@foreign_threads_discover_nothing samples.discovering_from_browser
           samples.master samples.devices_db samples.slow_world).
  repeat constructor. discriminate.
Defined.

(** X30 on the HELLO frame received in three pieces. *)
Lemma receive_message_sound_witness :
  exists payload : list byte,
    connection.read_message payload = Ok samples.hello_message
    /\ 0 < connection.len payload <= connection.MAX_MESSAGE.
Proof.
  destruct (@receive_message_sound reference.lib 30 samples.hello_receiver
              (snd (connection.receive_message 30 samples.hello_receiver))
              samples.hello_message)
    as (_ & _ & _ & payload & _ & _ & _ & _ & _ & _ & Hsize & Hread & _).
  - vm_compute. reflexivity.
  - exists payload. split; [exact Hread|exact Hsize].
Defined.

End FurtherInstances.
